(** * Terminal Session Orchestrator: a shallow embedding

    The development follows the terminal service of the repository:
    - [services/ptyManager.ts]          the session registry ([PtyManager]),
    - [services/sessionManager.ts]      the persistence layer,
    - [services/notificationService.ts] the webhook dispatcher,
    - [routes/index.ts]                 the session-list route.

    The Electron copy of the registry (the main-process PTY manager) has the
    same admission check, callbacks and command injection, so one model serves
    both.

    Conventions.  JavaScript numbers that hold timestamps, exit codes and
    terminal sizes are [Z].  [Date.now()] is an argument [now] of every
    operation that reads the clock.  An optional field is an [option]; the
    JavaScript truthiness test on an optional string is [truthy].  A call that
    may raise returns its result through an explicit failure oracle. *)

From Stdlib Require Import ZArith String Ascii List Bool Lia Permutation Sorted.
From stdpp Require Import gmap strings list fin_maps.
Import ListNotations.

Local Open Scope string_scope.
Local Open Scope list_scope.
Local Open Scope nat_scope.
Local Open Scope stdpp_scope.

(* ===================================================================== *)
(** * Data model ([types/index.ts]) *)
(* ===================================================================== *)

Inductive Status := running | completed | failed.

Inductive AiTool := claude | codex.

Definition Status_eqb (a b : Status) : bool :=
  match a, b with
  | running, running | completed, completed | failed, failed => true
  | _, _ => false
  end.

Record TerminalSession := mkSession {
  id : string;
  requirementId : option string;
  projectPath : option string;
  aiTool : option AiTool;
  status : Status;
  command : option string;
  cwd : string;
  createdAt : Z;
  completedAt : option Z;
  exitCode : option Z
}.

Record CreateSessionRequest := mkRequest {
  req_requirementId : option string;
  req_projectPath : option string;
  req_aiTool : option AiTool;
  req_command : option string;
  req_cwd : string;
  req_initialInput : option string
}.

(** [if (s)] on an optional string: [undefined] and the empty string are
    falsy. *)
Definition truthy (o : option string) : bool :=
  match o with
  | Some s => negb (String.eqb s "")
  | None => false
  end.

(* ===================================================================== *)
(** * The process handle (node-pty's [IPty]) *)
(* ===================================================================== *)

(** What the registry can observe of a handle: the data written to it, the
    resizes forwarded to it, whether [kill()] was called and whether the exit
    handler has run for it. *)
Record IPty := mkPty {
  written : list string;
  resized : list (Z * Z);
  killed : bool;
  exited : bool
}.

(** node-pty is not part of the repository.  Which calls raise is left to the
    backend: the registry wraps every call in [try]/[catch]. *)
Record NodePty := mkBackend {
  spawn_throws : string -> bool;
  write_throws : IPty -> string -> bool;
  resize_throws : IPty -> Z -> Z -> bool;
  kill_throws : IPty -> bool
}.

(** A backend on which no call raises. *)
Definition reliable_pty : NodePty :=
  mkBackend (fun _ => false) (fun _ _ => false) (fun _ _ _ => false) (fun _ => false).

(** node-pty's own argument check: [resize] raises on a non-positive
    dimension. *)
Definition node_pty : NodePty :=
  mkBackend (fun _ => false) (fun _ _ => false)
            (fun _ cols rows => (cols <=? 0)%Z || (rows <=? 0)%Z)
            (fun _ => false).

Record PtyInstance := mkInstance {
  pty : IPty;
  session : TerminalSession;
  outputBuffer : list string
}.

Inductive Emitted :=
| EmitOutput (sessionId : string) (data : string)
| EmitExit (sessionId : string) (code : Z).

(** [MAX_PARALLEL_SESSIONS] and the capacity of the output buffer. *)
Definition MAX_PARALLEL_SESSIONS : nat := 5.
Definition BUFFER_CAPACITY : nat := Z.to_nat 10000.

(* ===================================================================== *)
(** * A JavaScript [Map] with string keys, in insertion order *)
(* ===================================================================== *)

Section JsMap.
Context {V : Type}.

Fixpoint map_get (k : string) (m : list (string * V)) : option V :=
  match m with
  | [] => None
  | (k', v) :: rest => if String.eqb k k' then Some v else map_get k rest
  end.

(** [Map.prototype.set]: an existing key keeps its position. *)
Fixpoint map_set (k : string) (v : V) (m : list (string * V)) : list (string * V) :=
  match m with
  | [] => [(k, v)]
  | (k', v') :: rest =>
      if String.eqb k k' then (k, v) :: rest else (k', v') :: map_set k v rest
  end.

Definition map_delete (k : string) (m : list (string * V)) : list (string * V) :=
  List.filter (fun e => negb (String.eqb k (fst e))) m.
End JsMap.

(* ===================================================================== *)
(** * Command injection ([createSession], the [setTimeout] callback) *)
(* ===================================================================== *)

(** The carriage return of ['\r']. *)
Definition CR : string := String (ascii_of_nat 13) EmptyString.

(** The replacement text of [replace(/'/g, "'\\''")]: quote, backslash,
    quote, quote. *)
Definition ESCAPED_QUOTE : string := "'\''".

(** [initialInput.replace(/'/g, "'\\''")]. *)
Fixpoint escapeSingleQuotes (s : string) : string :=
  match s with
  | EmptyString => EmptyString
  | String c rest =>
      if Ascii.eqb c "'"%char
      then ESCAPED_QUOTE +:+ escapeSingleQuotes rest
      else String c (escapeSingleQuotes rest)
  end.

(** The argument of [ptyProcess.write] in the timer callback, or [None] when
    the callback writes nothing. *)
Definition commandInjection (request : CreateSessionRequest) : option string :=
  if truthy (req_command request) then
    let cmd := default "" (req_command request) in
    let fullCommand :=
      if truthy (req_initialInput request)
      then cmd +:+ " '" +:+ escapeSingleQuotes (default "" (req_initialInput request)) +:+ "'"
      else cmd in
    Some (fullCommand +:+ CR)
  else None.

(* ===================================================================== *)
(** * The session registry ([PtyManager]) *)
(* ===================================================================== *)

(** Session and instance objects are shared between the registry map and the
    closures of the data, exit and timer callbacks.  They live in [heap],
    addressed by the order of creation; [instances] maps a session id to its
    cell, and a callback addresses its cell directly, also after the id has
    left the map. *)
Record PtyManager := mkManager {
  heap : list PtyInstance;
  instances : list (string * nat);
  timers : list (nat * CreateSessionRequest);
  emitted : list Emitted;
  uuids : nat
}.

Definition empty_manager : PtyManager := mkManager [] [] [] [] 0.

Definition set_heap (hp : list PtyInstance) (m : PtyManager) : PtyManager :=
  mkManager hp (instances m) (timers m) (emitted m) (uuids m).

Definition set_instances (entries : list (string * nat)) (m : PtyManager) : PtyManager :=
  mkManager (heap m) entries (timers m) (emitted m) (uuids m).

Definition emit (e : Emitted) (m : PtyManager) : PtyManager :=
  mkManager (heap m) (instances m) (timers m) (emitted m ++ [e]) (uuids m).

Definition set_pty (p : IPty) (i : PtyInstance) : PtyInstance :=
  mkInstance p (session i) (outputBuffer i).

Definition set_session (s : TerminalSession) (i : PtyInstance) : PtyInstance :=
  mkInstance (pty i) s (outputBuffer i).

Definition set_outputBuffer (b : list string) (i : PtyInstance) : PtyInstance :=
  mkInstance (pty i) (session i) b.

Definition is_running (i : PtyInstance) : bool :=
  Status_eqb (status (session i)) running.

(** [this.instances.get(sessionId)]: the cell and the object in it. *)
Definition get_instance (sessionId : string) (m : PtyManager) : option (nat * PtyInstance) :=
  match map_get sessionId (instances m) with
  | Some h =>
      match heap m !! h with
      | Some i => Some (h, i)
      | None => None
      end
  | None => None
  end.

(** [Array.from(this.instances.values())]. *)
Definition instance_values (m : PtyManager) : list PtyInstance :=
  omap (fun e => heap m !! snd e) (instances m).

Definition getActiveSessionCount (m : PtyManager) : nat :=
  length (List.filter is_running (instance_values m)).

Definition canCreateSession (m : PtyManager) : bool :=
  getActiveSessionCount m <? MAX_PARALLEL_SESSIONS.

Definition getSession (sessionId : string) (m : PtyManager) : option TerminalSession :=
  option_map (fun hi => session (snd hi)) (get_instance sessionId m).

Definition getAllSessions (m : PtyManager) : list TerminalSession :=
  List.map session (instance_values m).

(** [Array.prototype.join('')]. *)
Definition join (chunks : list string) : string :=
  List.fold_right String.append "" chunks.

Definition getSessionOutput (sessionId : string) (m : PtyManager) : string :=
  let joined := option_map (fun hi => join (outputBuffer (snd hi))) (get_instance sessionId m) in
  if truthy joined then default "" joined else "".

(** Everything that can happen to a registry, one event-loop turn each. *)
Inductive Op :=
| CreateSession (request : CreateSessionRequest)
| WriteToSession (sessionId data : string)
| ResizeSession (sessionId : string) (cols rows : Z)
| KillSession (sessionId : string)
| RemoveSession (sessionId : string)
| CleanupCompletedSessions
| Shutdown
| OnData (h : nat) (data : string)
| OnExit (h : nat) (code : Z)
| OnTimer.

Section Registry.
Context (uuidv4 : nat -> string) (backend : NodePty).

Definition new_session (sessionId : string) (now : Z) (request : CreateSessionRequest)
  : TerminalSession :=
  {| id := sessionId;
     requirementId := req_requirementId request;
     projectPath := req_projectPath request;
     aiTool := req_aiTool request;
     status := running;
     command := req_command request;
     cwd := req_cwd request;
     createdAt := now;
     completedAt := None;
     exitCode := None |}.

Definition createSession (now : Z) (request : CreateSessionRequest) (m : PtyManager)
  : option TerminalSession * PtyManager :=
  if negb (canCreateSession m) then (None, m)
  else
    let sessionId := uuidv4 (uuids m) in
    let session := new_session sessionId now request in
    let drawn := S (uuids m) in
    if spawn_throws backend (req_cwd request)
    then (None, mkManager (heap m) (instances m) (timers m) (emitted m) drawn)
    else
      let h := length (heap m) in
      let instance := mkInstance (mkPty [] [] false false) session [] in
      (Some session,
       mkManager (heap m ++ [instance])
                 (map_set sessionId h (instances m))
                 (timers m ++ [(h, request)])
                 (emitted m)
                 drawn).

Definition writeToSession (sessionId data : string) (m : PtyManager) : bool * PtyManager :=
  match get_instance sessionId m with
  | None => (false, m)
  | Some (h, i) =>
      if negb (is_running i) then (false, m)
      else if write_throws backend (pty i) data then (false, m)
      else
        let p := pty i in
        let p' := mkPty (written p ++ [data]) (resized p) (killed p) (exited p) in
        (true, set_heap (<[h := set_pty p' i]> (heap m)) m)
  end.

Definition resizeSession (sessionId : string) (cols rows : Z) (m : PtyManager)
  : bool * PtyManager :=
  match get_instance sessionId m with
  | None => (false, m)
  | Some (h, i) =>
      if negb (is_running i) then (false, m)
      else if resize_throws backend (pty i) cols rows then (false, m)
      else
        let p := pty i in
        let p' := mkPty (written p) (resized p ++ [(cols, rows)]) (killed p) (exited p) in
        (true, set_heap (<[h := set_pty p' i]> (heap m)) m)
  end.

Definition mark_killed (now : Z) (i : PtyInstance) : PtyInstance :=
  let p := pty i in
  let s := session i in
  mkInstance (mkPty (written p) (resized p) true (exited p))
             {| id := id s; requirementId := requirementId s;
                projectPath := projectPath s; aiTool := aiTool s;
                status := failed;
                command := command s; cwd := cwd s; createdAt := createdAt s;
                completedAt := Some now;
                exitCode := exitCode s |}
             (outputBuffer i).

Definition killSession (now : Z) (sessionId : string) (m : PtyManager) : bool * PtyManager :=
  match get_instance sessionId m with
  | None => (false, m)
  | Some (h, i) =>
      if is_running i then
        if kill_throws backend (pty i) then (false, m)
        else (true, set_heap (<[h := mark_killed now i]> (heap m)) m)
      else (true, m)
  end.

Definition removeSession (now : Z) (sessionId : string) (m : PtyManager) : bool * PtyManager :=
  match get_instance sessionId m with
  | None => (false, m)
  | Some (h, i) =>
      let m1 := if is_running i then snd (killSession now sessionId m) else m in
      (true, set_instances (map_delete sessionId (instances m1)) m1)
  end.

Definition entry_running (m : PtyManager) (e : string * nat) : bool :=
  match heap m !! snd e with
  | Some i => is_running i
  | None => false
  end.

Definition cleanupCompletedSessions (m : PtyManager) : nat * PtyManager :=
  let kept := List.filter (entry_running m) (instances m) in
  (length (instances m) - length kept, set_instances kept m).

Definition shutdown (now : Z) (m : PtyManager) : PtyManager :=
  let m1 := List.fold_left (fun acc e => snd (killSession now (fst e) acc)) (instances m) m in
  set_instances [] m1.

(** The [onData] callback of the instance in cell [h]. *)
Definition push_chunk (data : string) (buffer : list string) : list string :=
  let pushed := buffer ++ [data] in
  if BUFFER_CAPACITY <? length pushed then tail pushed else pushed.

Definition onData (h : nat) (data : string) (m : PtyManager) : PtyManager :=
  match heap m !! h with
  | None => m
  | Some i =>
      let i' := set_outputBuffer (push_chunk data (outputBuffer i)) i in
      emit (EmitOutput (id (session i)) data) (set_heap (<[h := i']> (heap m)) m)
  end.

(** The [onExit] callback of the instance in cell [h]. *)
Definition mark_exited (now code : Z) (i : PtyInstance) : PtyInstance :=
  let p := pty i in
  let s := session i in
  mkInstance (mkPty (written p) (resized p) (killed p) true)
             {| id := id s; requirementId := requirementId s;
                projectPath := projectPath s; aiTool := aiTool s;
                status := if (code =? 0)%Z then completed else failed;
                command := command s; cwd := cwd s; createdAt := createdAt s;
                completedAt := Some now;
                exitCode := Some code |}
             (outputBuffer i).

Definition onExit (now : Z) (h : nat) (code : Z) (m : PtyManager) : PtyManager :=
  match heap m !! h with
  | None => m
  | Some i =>
      emit (EmitExit (id (session i)) code)
           (set_heap (<[h := mark_exited now code i]> (heap m)) m)
  end.

(** The oldest pending [setTimeout] callback fires.  It writes to the
    handle directly, outside any [try]: when the write raises, the registry
    is left as it was. *)
Definition onTimer (m : PtyManager) : PtyManager :=
  match timers m with
  | [] => m
  | (h, request) :: rest =>
      let m1 := mkManager (heap m) (instances m) rest (emitted m) (uuids m) in
      match commandInjection request, heap m !! h with
      | Some text, Some i =>
          if write_throws backend (pty i) text then m1
          else
            let p := pty i in
            let p' := mkPty (written p ++ [text]) (resized p) (killed p) (exited p) in
            set_heap (<[h := set_pty p' i]> (heap m1)) m1
      | _, _ => m1
      end
  end.

Definition step (m : PtyManager) (ev : Z * Op) : PtyManager :=
  let now := fst ev in
  match snd ev with
  | CreateSession request => snd (createSession now request m)
  | WriteToSession sessionId data => snd (writeToSession sessionId data m)
  | ResizeSession sessionId cols rows => snd (resizeSession sessionId cols rows m)
  | KillSession sessionId => snd (killSession now sessionId m)
  | RemoveSession sessionId => snd (removeSession now sessionId m)
  | CleanupCompletedSessions => snd (cleanupCompletedSessions m)
  | Shutdown => shutdown now m
  | OnData h data => onData h data m
  | OnExit h code => onExit now h code m
  | OnTimer => onTimer m
  end.

Definition run (trace : list (Z * Op)) (m : PtyManager) : PtyManager :=
  List.fold_left step trace m.

End Registry.



(* ===================================================================== *)
(** * The persistence layer ([sessionManager.ts]) *)
(* ===================================================================== *)

(** The log directory is a finite map from file name to content; [logDir]
    itself is left out of the names, so that [path.join(logDir, name)] is the
    entry [name].  That is what [path.join] gives for a name that is a single
    path component, as the names built from a UUID and the names read from
    the directory listing are; the properties that take a session id from a
    caller ask for such an id.  [JsonMeta s] is the text that
    [JSON.stringify] makes of the record [s]; [RawText] is any other text,
    and as the content of a metadata file it stands for text that
    [JSON.parse] rejects.  The disk never fails in this model. *)
Inductive Content :=
| JsonMeta (s : TerminalSession)
| RawText (data : string).

(** [JSON.parse(content) as TerminalSession]; [None] when it raises.  Text
    that parses to something other than a record is outside the model: the
    properties of the listing ask for a directory without such files. *)
Definition JSON_parse (c : Content) : option TerminalSession :=
  match c with
  | JsonMeta s => Some s
  | RawText _ => None
  end.

(** [s.endsWith(suffix)]. *)
Fixpoint endsWith (s suffix : string) : bool :=
  if String.eqb s suffix then true
  else match s with
       | EmptyString => false
       | String _ rest => endsWith rest suffix
       end.

(** [s.startsWith(pattern)]. *)
Fixpoint startsWith (s pattern : string) {struct pattern} : bool :=
  match pattern, s with
  | EmptyString, _ => true
  | String a pattern', String b s' => Ascii.eqb a b && startsWith s' pattern'
  | String _ _, EmptyString => false
  end.

Fixpoint string_drop (n : nat) (s : string) : string :=
  match n, s with
  | S n', String _ rest => string_drop n' rest
  | _, _ => s
  end.

(** [s.replace(pattern, '')] with a string pattern: the first occurrence of
    [pattern] is removed. *)
Fixpoint remove_first (pattern s : string) : string :=
  if startsWith s pattern then string_drop (String.length pattern) s
  else match s with
       | EmptyString => EmptyString
       | String c rest => String c (remove_first pattern rest)
       end.

(** [file.replace('session_', '').replace('.json', '')]. *)
Definition sessionIdOfFile (file : string) : string :=
  remove_first ".json" (remove_first "session_" file).

Definition getSessionLogPath (sessionId : string) : string :=
  "session_" +:+ sessionId +:+ ".log".

Definition getSessionMetaPath (sessionId : string) : string :=
  "session_" +:+ sessionId +:+ ".json".

Definition existsSync (path : string) (fs : gmap string Content) : bool :=
  bool_decide (is_Some (fs !! path)).

(** [fs.readdirSync(logDir)]. *)
Definition readdirSync (fs : gmap string Content) : list string :=
  (map_to_list fs).*1.

Definition saveSessionMeta (s : TerminalSession) (fs : gmap string Content)
  : gmap string Content :=
  <[getSessionMetaPath (id s) := JsonMeta s]> fs.

Definition loadSessionMeta (sessionId : string) (fs : gmap string Content)
  : option TerminalSession :=
  let metaPath := getSessionMetaPath sessionId in
  if existsSync metaPath fs then
    match fs !! metaPath with
    | Some c => JSON_parse c
    | None => None
    end
  else None.

Definition deleteSessionLog (sessionId : string) (fs : gmap string Content)
  : gmap string Content :=
  let logPath := getSessionLogPath sessionId in
  let metaPath := getSessionMetaPath sessionId in
  let fs1 := if existsSync logPath fs then delete logPath fs else fs in
  if existsSync metaPath fs1 then delete metaPath fs1 else fs1.

(** The comparator [(a, b) => b.createdAt - a.createdAt] is non-positive
    when [a] may stay in front of [b]. *)
Definition stays_before (a b : TerminalSession) : bool :=
  (createdAt b - createdAt a <=? 0)%Z.

(** [Array.prototype.sort] is stable; insertion from the right is. *)
Fixpoint sort_insert (a : TerminalSession) (sorted : list TerminalSession)
  : list TerminalSession :=
  match sorted with
  | [] => [a]
  | b :: rest => if stays_before a b then a :: b :: rest else b :: sort_insert a rest
  end.

Definition sort_by_createdAt_desc (sessions : list TerminalSession) : list TerminalSession :=
  List.fold_right sort_insert [] sessions.

(** The loop of [getAllSavedSessions] over the listing. *)
Definition collect_saved (fs : gmap string Content) (files : list string)
  : list TerminalSession :=
  List.fold_left
    (fun sessions file =>
       if endsWith file ".json" then
         match loadSessionMeta (sessionIdOfFile file) fs with
         | Some s => sessions ++ [s]
         | None => sessions
         end
       else sessions)
    files [].

Definition getAllSavedSessions (fs : gmap string Content) : list TerminalSession :=
  sort_by_createdAt_desc (collect_saved fs (readdirSync fs)).

Definition MS_PER_DAY : Z := 24 * 60 * 60 * 1000.

(** The loop of [cleanupOldLogs]: the listing is read once, the directory
    changes as the loop deletes. *)
Definition cleanup_file (cutoff : Z) (acc : gmap string Content * nat) (file : string)
  : gmap string Content * nat :=
  let '(fs, cleaned) := acc in
  if endsWith file ".json" then
    let sessionId := sessionIdOfFile file in
    match loadSessionMeta sessionId fs with
    | Some s =>
        if (createdAt s <? cutoff)%Z
        then (deleteSessionLog sessionId fs, S cleaned)
        else (fs, cleaned)
    | None => (fs, cleaned)
    end
  else (fs, cleaned).

Definition cleanupOldLogs (now daysToKeep : Z) (fs : gmap string Content)
  : gmap string Content * nat :=
  let files := readdirSync fs in
  let cutoff := (now - daysToKeep * MS_PER_DAY)%Z in
  List.fold_left (cleanup_file cutoff) files (fs, 0).

(* ===================================================================== *)
(** * The routes that combine registry and store ([routes/index.ts]) *)
(* ===================================================================== *)

Record SessionsResponse := mkSessionsResponse {
  sessions : list TerminalSession;
  activeCount : nat;
  canCreateNew : bool
}.

(** [GET /sessions]. *)
Definition get_sessions (m : PtyManager) (fs : gmap string Content) : SessionsResponse :=
  let activeSessions := getAllSessions m in
  let savedSessions := getAllSavedSessions fs in
  let activeIds : gset string := list_to_set (List.map id activeSessions) in
  let allSessions :=
    activeSessions ++ List.filter (fun s => negb (bool_decide (id s ∈ activeIds))) savedSessions in
  mkSessionsResponse allSessions (getActiveSessionCount m) (canCreateSession m).

(** [POST /cleanup]: the handler has the store in hand and nothing else. *)
Definition post_cleanup (now days : Z) (sys : PtyManager * gmap string Content)
  : nat * (PtyManager * gmap string Content) :=
  let '(fs', cleaned) := cleanupOldLogs now days (snd sys) in
  (cleaned, (fst sys, fs')).

(* ===================================================================== *)
(** * The notification dispatcher ([notificationService.ts]) *)
(* ===================================================================== *)

Record NotificationConfig := mkConfig {
  enabled : bool;
  webhookUrl : string
}.

(** The parts of the markdown text of a completion message. *)
Record NotificationMessage := mkMessage {
  msg_success : bool;
  msg_tool : option AiTool;
  msg_duration : Z;
  msg_project : option string;
  msg_requirement : option string;
  msg_exitCode : option Z
}.

(** A computation that may raise. *)
Inductive Outcome (A : Type) :=
| Returned (a : A)
| Thrown.
Arguments Returned {A} a.
Arguments Thrown {A}.

(** [try { body } catch { handler }]. *)
Definition try_catch {A} (body : Outcome A) (handler : A) : Outcome A :=
  match body with
  | Returned a => Returned a
  | Thrown => Returned handler
  end.

(** The body the webhook answered with, as [JSON.parse] sees it. *)
Inductive ResponseBody :=
| BodyNotJson
| BodyNull
| BodyObject (errcode : option Z).

(** What the world does with one request. *)
Inductive Delivery :=
| UrlRejected
| RequestError
| RequestTimeout
| Responded (statusCode : Z) (body : ResponseBody).

(** [JSON.parse(responseBody)] followed by [result.errcode === 0]. *)
Definition errcode_is_zero (body : ResponseBody) : Outcome bool :=
  match body with
  | BodyNotJson => Thrown
  | BodyNull => Thrown
  | BodyObject (Some code) => Returned (code =? 0)%Z
  | BodyObject None => Returned false
  end.

(** The value the promise of [sendWeChatMessage] settles with, and the
    requests that were sent. *)
Definition sendWeChatMessage (config : NotificationConfig) (world : Delivery)
  (message : NotificationMessage) : Outcome bool * list (string * NotificationMessage) :=
  if negb (enabled config) || String.eqb (webhookUrl config) "" then (Returned false, [])
  else
    match world with
    | UrlRejected => (try_catch Thrown false, [])
    | RequestError => (Returned false, [(webhookUrl config, message)])
    | RequestTimeout => (Returned false, [(webhookUrl config, message)])
    | Responded statusCode body =>
        (if (statusCode =? 200)%Z then try_catch (errcode_is_zero body) false
         else Returned false,
         [(webhookUrl config, message)])
    end.

(** [Math.round(ms / 1000)]. *)
Definition round_seconds (ms : Z) : Z := ((ms + 500) / 1000)%Z.

Definition notifyTaskCompleted (config : NotificationConfig) (world : Delivery)
  (s : TerminalSession) : Outcome bool * list (string * NotificationMessage) :=
  let duration :=
    match completedAt s with
    | Some c => if (c =? 0)%Z then 0%Z else round_seconds (c - createdAt s)
    | None => 0%Z
    end in
  let message :=
    mkMessage (Status_eqb (status s) completed) (aiTool s) duration (projectPath s)
              (if truthy (requirementId s) then requirementId s else None)
              (exitCode s) in
  sendWeChatMessage config world message.

(* ===================================================================== *)
(** * Session logs ([sessionManager.ts]) *)
(* ===================================================================== *)

Section SessionLogs.
Context (JSON_stringify : TerminalSession -> string).

(** [fs.readFileSync(path, 'utf-8')] on an existing file. *)
Definition readFileSync (c : Content) : string :=
  match c with
  | JsonMeta s => JSON_stringify s
  | RawText data => data
  end.

(** [fs.appendFileSync(path, data)]: a missing file is created.  The file
    written here is a log, and a log is only ever read back as text. *)
Definition appendFileSync (path data : string) (fs : gmap string Content)
  : gmap string Content :=
  match fs !! path with
  | Some c => <[path := RawText (readFileSync c +:+ data)]> fs
  | None => <[path := RawText data]> fs
  end.

Definition appendSessionLog (sessionId data : string) (fs : gmap string Content)
  : gmap string Content :=
  appendFileSync (getSessionLogPath sessionId) data fs.

Definition readSessionLog (sessionId : string) (fs : gmap string Content) : string :=
  let logPath := getSessionLogPath sessionId in
  if existsSync logPath fs then
    match fs !! logPath with
    | Some c => readFileSync c
    | None => ""
    end
  else "".

(** The calls that write the directory, and a sequence of them. *)
Inductive StoreOp :=
| SaveMeta (s : TerminalSession)
| AppendLog (sessionId data : string)
| DeleteLog (sessionId : string).

Definition store_op_id (op : StoreOp) : string :=
  match op with
  | SaveMeta s => id s
  | AppendLog sessionId _ => sessionId
  | DeleteLog sessionId => sessionId
  end.

Definition store_step (fs : gmap string Content) (op : StoreOp) : gmap string Content :=
  match op with
  | SaveMeta s => saveSessionMeta s fs
  | AppendLog sessionId data => appendSessionLog sessionId data fs
  | DeleteLog sessionId => deleteSessionLog sessionId fs
  end.

Definition store_run (ops : list StoreOp) (fs : gmap string Content) : gmap string Content :=
  List.fold_left store_step ops fs.

(* ===================================================================== *)
(** * The service: registry, store and event listeners ([index.ts]) *)
(* ===================================================================== *)

(** [svc_notified] lists the session records that [notifyTaskCompleted] was
    called with, in order. *)
Record Service := mkService {
  svc_manager : PtyManager;
  svc_store : gmap string Content;
  svc_notified : list TerminalSession
}.

Definition empty_service : Service := mkService empty_manager ∅ [].

(** The listeners of ['output'] and ['exit'].  [emit] runs them inside the
    callback that emits, so they see the registry as the callback left it. *)
Definition dispatch (m : PtyManager) (sv : Service) (e : Emitted) : Service :=
  match e with
  | EmitOutput sessionId data =>
      mkService (svc_manager sv) (appendSessionLog sessionId data (svc_store sv))
                (svc_notified sv)
  | EmitExit sessionId _ =>
      match getSession sessionId m with
      | Some s =>
          mkService (svc_manager sv) (saveSessionMeta s (svc_store sv))
                    (svc_notified sv ++ [s])
      | None => sv
      end
  end.

(** What the service is asked to do: a turn of the registry (an operation or
    a callback) with its listeners, or one of the routes that write the
    store. *)
Inductive ServiceRequest :=
| Turn (ev : Z * Op)
| PostSessions (now : Z) (request : CreateSessionRequest)
| DeleteSession (now : Z) (sessionId : string)
| PostCleanup (now days : Z).

Section ServiceSteps.
Context (uuidv4 : nat -> string) (backend : NodePty).

(** One turn of the registry followed by the listeners of what it emitted. *)
Definition service_step (sv : Service) (ev : Z * Op) : Service :=
  let m' := step uuidv4 backend (svc_manager sv) ev in
  let fresh := drop (length (emitted (svc_manager sv))) (emitted m') in
  List.fold_left (dispatch m') fresh (mkService m' (svc_store sv) (svc_notified sv)).

Definition service_run (trace : list (Z * Op)) (sv : Service) : Service :=
  List.fold_left service_step trace sv.

(* ===================================================================== *)
(** * The session routes ([routes/index.ts]) *)
(* ===================================================================== *)

(** [POST /sessions]: the status code, the session of a 200 answer, and the
    service afterwards.  An absent [cwd] is the empty string. *)
Definition post_sessions (now : Z) (request : CreateSessionRequest) (sv : Service)
  : Z * option TerminalSession * Service :=
  if negb (truthy (Some (req_cwd request))) || negb (bool_decide (is_Some (req_aiTool request)))
  then (400%Z, None, sv)
  else if negb (canCreateSession (svc_manager sv)) then (429%Z, None, sv)
  else
    let '(created, m') := createSession uuidv4 backend now request (svc_manager sv) in
    match created with
    | None => (500%Z, None, mkService m' (svc_store sv) (svc_notified sv))
    | Some s => (200%Z, Some s, mkService m' (saveSessionMeta s (svc_store sv)) (svc_notified sv))
    end.

(** [DELETE /sessions/:id]: always answers 200. *)
Definition delete_session (now : Z) (sessionId : string) (sv : Service) : Service :=
  let m' := snd (removeSession backend now sessionId (svc_manager sv)) in
  mkService m' (deleteSessionLog sessionId (svc_store sv)) (svc_notified sv).

Definition serve (sv : Service) (r : ServiceRequest) : Service :=
  match r with
  | Turn ev => service_step sv ev
  | PostSessions now request => snd (post_sessions now request sv)
  | DeleteSession now sessionId => delete_session now sessionId sv
  | PostCleanup now days =>
      mkService (svc_manager sv) (fst (cleanupOldLogs now days (svc_store sv)))
                (svc_notified sv)
  end.

Definition serve_all (requests : list ServiceRequest) (sv : Service) : Service :=
  List.fold_left serve requests sv.

End ServiceSteps.

(** [GET /sessions/:id]: the session and its output, or [None] for a 404. *)
Definition get_session_by_id (sessionId : string) (sv : Service)
  : option (TerminalSession * string) :=
  let found :=
    match getSession sessionId (svc_manager sv) with
    | Some s => Some s
    | None => List.find (fun s => String.eqb (id s) sessionId)
                        (getAllSavedSessions (svc_store sv))
    end in
  match found with
  | None => None
  | Some s =>
      let buffered := getSessionOutput sessionId (svc_manager sv) in
      Some (s, if truthy (Some buffered) then buffered
               else readSessionLog sessionId (svc_store sv))
  end.

(** The history sent to a viewer that connects, if any. *)
Definition connect_history (sessionId : string) (sv : Service) : option string :=
  let buffered := getSessionOutput sessionId (svc_manager sv) in
  let output := if truthy (Some buffered) then buffered
                else readSessionLog sessionId (svc_store sv) in
  if truthy (Some output) then Some output else None.

End SessionLogs.

(* ===================================================================== *)
(** * Viewer connections ([index.ts]) *)
(* ===================================================================== *)

(** [sessionConnections]: session id to the set of its sockets; a [Set]
    keeps insertion order and holds a socket once.  Sockets are numbered. *)
Definition set_add (ws : nat) (sockets : list nat) : list nat :=
  if bool_decide (ws ∈ sockets) then sockets else sockets ++ [ws].

Definition set_delete (ws : nat) (sockets : list nat) : list nat :=
  List.filter (fun x => negb (Nat.eqb x ws)) sockets.

(** The ['connection'] handler, as far as the table goes.  Without a session
    id in the URL the socket is closed and the table is left alone. *)
Definition ws_connect (ws : nat) (sessionId : option string) (conns : gmap string (list nat))
  : gmap string (list nat) :=
  if negb (truthy sessionId) then conns
  else
    let key := default "" sessionId in
    let conns1 := if bool_decide (is_Some (conns !! key)) then conns else <[key := []]> conns in
    <[key := set_add ws (default [] (conns1 !! key))]> conns1.

(** The ['close'] handler of a socket of session [sessionId]. *)
Definition ws_close (ws : nat) (sessionId : string) (conns : gmap string (list nat))
  : gmap string (list nat) :=
  match conns !! sessionId with
  | Some sockets =>
      let sockets' := set_delete ws sockets in
      if Nat.eqb (length sockets') 0 then delete sessionId conns
      else <[sessionId := sockets']> conns
  | None => conns
  end.

(** [broadcastToSession]: the sockets that are sent the message. *)
Definition broadcastToSession (sessionId : string) (is_open : nat -> bool)
  (conns : gmap string (list nat)) : list nat :=
  match conns !! sessionId with
  | Some sockets => List.filter is_open sockets
  | None => []
  end.

Inductive WsEvent :=
| WsConnect (ws : nat) (sessionId : option string)
| WsClose (ws : nat) (sessionId : string).

Definition ws_step (conns : gmap string (list nat)) (ev : WsEvent) : gmap string (list nat) :=
  match ev with
  | WsConnect ws sessionId => ws_connect ws sessionId conns
  | WsClose ws sessionId => ws_close ws sessionId conns
  end.

Definition ws_run (events : list WsEvent) (conns : gmap string (list nat))
  : gmap string (list nat) :=
  List.fold_left ws_step events conns.
(* ===================================================================== *)
(** * Vocabulary of the properties *)
(* ===================================================================== *)

(** An operation rewrites a cell without touching its buffer in one of
    three ways: it logs a call on the handle, it marks the session killed
    (running sessions only), or it runs the exit handler, which looks at
    nothing. *)
Inductive quiet_step : PtyInstance -> PtyInstance -> Prop :=
| quiet_io i w r :
    quiet_step i (set_pty (mkPty w r (killed (pty i)) (exited (pty i))) i)
| quiet_kill now i :
    is_running i = true -> quiet_step i (mark_killed now i)
| quiet_exit now code i :
    quiet_step i (mark_exited now code i).

(** The data callback pushes a chunk; nothing else changes a cell. *)
Inductive cell_step : PtyInstance -> PtyInstance -> Prop :=
| cell_quiet i i' :
    quiet_step i i' -> cell_step i i'
| cell_buffer i data :
    cell_step i (set_outputBuffer (push_chunk data (outputBuffer i)) i).

(** A handle whose exit event was delivered carries a finished session. *)
Definition cell_finished (i : PtyInstance) : Prop :=
  exited (pty i) = true ->
  is_running i = false /\ is_Some (completedAt (session i)) /\ is_Some (exitCode (session i)).

(** A running session has no completion time and no exit code yet. *)
Definition cell_fresh (i : PtyInstance) : Prop :=
  is_running i = true ->
  completedAt (session i) = None /\ exitCode (session i) = None.

Definition cell_ok (i : PtyInstance) : Prop :=
  cell_finished i /\ cell_fresh i /\ length (outputBuffer i) <= BUFFER_CAPACITY.

(** [hp'] is [hp] with some cells rewritten by [R] and no cell added or
    dropped. *)
Definition heap_evolves_by (R : relation PtyInstance) (hp hp' : list PtyInstance) : Prop :=
  length hp' = length hp /\
  forall h i, hp !! h = Some i -> exists i', hp' !! h = Some i' /\ rtc R i i'.

Abbreviation heap_evolves := (heap_evolves_by cell_step).

(** The last [n] elements of a list. *)
Definition keep_last {A} (n : nat) (l : list A) : list A :=
  drop (length l - n) l.

(** The chunks that a trace delivers to the data callback of cell [h]. *)
Definition chunks_for (h : nat) (trace : list (Z * Op)) : list string :=
  omap (fun ev => match snd ev with
                  | OnData h' data => if decide (h' = h) then Some data else None
                  | _ => None
                  end) trace.

Definition count_entries (hp : list PtyInstance) (entries : list (string * nat)) : nat :=
  length (List.filter is_running (omap (fun e => hp !! snd e) entries)).

Record registry_ok (m : PtyManager) : Prop := {
  ok_keys : List.NoDup (List.map fst (instances m));
  ok_cells : forall k h, List.In (k, h) (instances m) ->
             exists i, heap m !! h = Some i /\ id (session i) = k;
  ok_exited : forall h i, heap m !! h = Some i -> cell_ok i;
  ok_ceiling : getActiveSessionCount m <= MAX_PARALLEL_SESSIONS
}.

(** The escaping in the words of the specification: a quote character becomes
    quote, backslash, quote, quote; any other character stands for itself. *)
Definition posix_escape_char (c : ascii) : string :=
  if Ascii.eqb c "'"%char then "'\''" else String c EmptyString.

Definition posix_escape (s : string) : string :=
  join (List.map posix_escape_char (list_ascii_of_string s)).

(** The data callback run on a buffer for each chunk in turn. *)
Definition feed (chunks buffer : list string) : list string :=
  List.fold_left (fun b data => push_chunk data b) chunks buffer.

(** A handle after a forwarded write, and after a forwarded resize. *)
Definition log_write (data : string) (i : PtyInstance) : PtyInstance :=
  set_pty (mkPty (written (pty i) ++ [data]) (resized (pty i)) (killed (pty i)) (exited (pty i))) i.

Definition log_resize (cols rows : Z) (i : PtyInstance) : PtyInstance :=
  set_pty (mkPty (written (pty i)) (resized (pty i) ++ [(cols, rows)])
                 (killed (pty i)) (exited (pty i))) i.


(** The deliveries that count as a failure: the URL is refused, the request
    errors or times out, or the answer is not a 200. *)
Definition delivery_failed (world : Delivery) : Prop :=
  match world with
  | UrlRejected | RequestError | RequestTimeout => True
  | Responded statusCode _ => statusCode <> 200%Z
  end.


(** The artifacts that the persistence layer keeps for one session. *)
Definition artifacts (sessionId : string) : list string :=
  [getSessionLogPath sessionId; getSessionMetaPath sessionId].

(** Every metadata file of the directory is named after a session id:
    rebuilding the name from the id that the loops extract gives the name
    back.  This is so for the names that [saveSessionMeta] writes for ids
    without a dot, such as UUIDs. *)
Definition store_names_ok (fs : gmap string Content) : bool :=
  forallb (fun file =>
             implb (endsWith file ".json")
                   (String.eqb (getSessionMetaPath (sessionIdOfFile file)) file))
          (readdirSync fs).

(** Every readable metadata file holds the record of the session it is named
    after, as [saveSessionMeta] writes it. *)
Definition store_ids_ok (fs : gmap string Content) : bool :=
  forallb (fun file =>
             match loadSessionMeta (sessionIdOfFile file) fs with
             | Some s => implb (endsWith file ".json") (String.eqb (id s) (sessionIdOfFile file))
             | None => true
             end)
          (readdirSync fs).

(** The metadata file [file] holds a readable record older than [cutoff]. *)
Definition expired_file (cutoff : Z) (fs : gmap string Content) (file : string) : bool :=
  endsWith file ".json" &&
  match loadSessionMeta (sessionIdOfFile file) fs with
  | Some s => (createdAt s <? cutoff)%Z
  | None => false
  end.

(** The persisted session [sessionId] has a readable record older than
    [cutoff]. *)
Definition expired (cutoff : Z) (fs : gmap string Content) (sessionId : string) : Prop :=
  exists s, loadSessionMeta sessionId fs = Some s /\ (createdAt s < cutoff)%Z.

(** Newest first. *)
Definition newer_or_same (a b : TerminalSession) : Prop :=
  (createdAt b <= createdAt a)%Z.

Fixpoint no_dot (s : string) : bool :=
  match s with
  | EmptyString => true
  | String c rest => negb (Ascii.eqb c "."%char) && no_dot rest
  end.

(** The record that [getAllSavedSessions] takes from one file of the
    listing, if any. *)
Definition saved_of_file (fs : gmap string Content) (file : string) : option TerminalSession :=
  if endsWith file ".json" then loadSessionMeta (sessionIdOfFile file) fs else None.

(** The trace delivers no exit event to the handler of cell [h]. *)
Definition no_exit_for (h : nat) (trace : list (Z * Op)) : bool :=
  forallb (fun ev => match snd ev with
                     | OnExit h' _ => negb (Nat.eqb h' h)
                     | _ => true
                     end) trace.

(** The registry holds [s] as a resident session: its map has an entry under
    the id of [s] whose instance carries [s]. *)
Definition resident_record (m : PtyManager) (s : TerminalSession) : Prop :=
  exists h i, List.In (id s, h) (instances m) /\ heap m !! h = Some i /\ session i = s.

(** The map of the registry has an entry under [sessionId]. *)
Definition resident_id (m : PtyManager) (sessionId : string) : Prop :=
  exists h, List.In (sessionId, h) (instances m).

(** The directory holds [s] in one of its metadata files. *)
Definition persisted_record (fs : gmap string Content) (s : TerminalSession) : Prop :=
  exists file, endsWith file ".json" = true /\ fs !! file = Some (JsonMeta s).

(** JSON white space, and the characters a JSON value can start with. *)
Definition json_space (c : ascii) : bool :=
  Ascii.eqb c " "%char || Ascii.eqb c "009"%char || Ascii.eqb c "010"%char
  || Ascii.eqb c "013"%char.

Definition json_value_start (c : ascii) : bool :=
  Ascii.eqb c "{"%char || Ascii.eqb c "["%char || Ascii.eqb c "034"%char
  || Ascii.eqb c "-"%char || Ascii.eqb c "t"%char || Ascii.eqb c "f"%char
  || Ascii.eqb c "n"%char
  || ((48 <=? nat_of_ascii c) && (nat_of_ascii c <=? 57)).

(** Text on which [JSON.parse] is sure to raise: it is empty or blank, or its
    first character after the white space cannot start a JSON value. *)
Fixpoint not_json (text : string) : bool :=
  match text with
  | EmptyString => true
  | String c rest => if json_space c then not_json rest else negb (json_value_start c)
  end.

(** Every metadata file of the directory holds a record as [saveSessionMeta]
    writes it, or text that [JSON.parse] rejects.  A file with any other
    JSON in it is left out: [JSON.parse] would hand it on as if it were a
    record. *)
Definition record_or_unreadable (c : Content) : bool :=
  match c with
  | JsonMeta _ => true
  | RawText data => not_json data
  end.

Definition store_records_ok (fs : gmap string Content) : bool :=
  forallb (fun entry => implb (endsWith (fst entry) ".json") (record_or_unreadable (snd entry)))
          (map_to_list fs).


(** What one turn of the registry emits: the data callback of an existing
    cell emits the chunk, the exit callback of an existing cell emits the exit
    code, and nothing else emits. *)
Definition emits (m : PtyManager) (ev : Z * Op) : list Emitted :=
  match snd ev with
  | OnData h data =>
      match heap m !! h with
      | Some i => [EmitOutput (id (session i)) data]
      | None => []
      end
  | OnExit h code =>
      match heap m !! h with
      | Some i => [EmitExit (id (session i)) code]
      | None => []
      end
  | _ => []
  end.

(** Every data callback of the trace is the one of cell [h]. *)
Definition data_only_for (h : nat) (trace : list (Z * Op)) : bool :=
  forallb (fun ev => match snd ev with
                     | OnData h' _ => Nat.eqb h' h
                     | _ => true
                     end) trace.

(** The table of viewer connections holds no empty set, no socket twice in a
    set, and no empty session id. *)
Definition connections_ok (conns : gmap string (list nat)) : Prop :=
  forall sessionId sockets,
    conns !! sessionId = Some sockets ->
    sockets <> [] /\ NoDup sockets /\ sessionId <> "".

(** Every session object of the registry has an id without a dot. *)
Definition ids_have_no_dot (m : PtyManager) : Prop :=
  forall h i, heap m !! h = Some i -> no_dot (id (session i)) = true.

(** The store is as the persistence layer writes it, and the registry can
    only add well-named records to it. *)
Definition service_ok (sv : Service) : Prop :=
  store_names_ok (svc_store sv) = true /\
  store_ids_ok (svc_store sv) = true /\
  ids_have_no_dot (svc_manager sv).

(** The handle of a running session was neither killed nor seen to exit. *)
Definition cell_live (i : PtyInstance) : Prop :=
  is_running i = true -> killed (pty i) = false /\ exited (pty i) = false.

(** An id that is one part of a file name: it holds no path separator and no
    NUL, and the file names built from it fit a directory entry.  For such an
    id [path.join(logDir, name)] is the entry [name] of the log directory;
    for any other id it may name a file elsewhere (an id with [..] in it can
    even name the file of another session), or a directory that is not
    there, and then the write fails and is swallowed. *)
Definition NAME_MAX : nat := 255.

Fixpoint no_separator (s : string) : bool :=
  match s with
  | EmptyString => true
  | String c rest =>
      negb (Ascii.eqb c "/"%char) && negb (Ascii.eqb c "\"%char)
      && negb (Ascii.eqb c "000"%char) && no_separator rest
  end.

Definition file_name_part (sessionId : string) : bool :=
  no_separator sessionId && (String.length (getSessionMetaPath sessionId) <=? NAME_MAX).

(** The chunks that a sequence of store calls appends to the log of
    [sessionId]. *)
Definition appended_to (sessionId : string) (ops : list StoreOp) : list string :=
  omap (fun op => match op with
                  | AppendLog k data => if String.eqb k sessionId then Some data else None
                  | _ => None
                  end) ops.

(** The call deletes the artifacts of [sessionId]. *)
Definition deletes (sessionId : string) (op : StoreOp) : bool :=
  match op with
  | DeleteLog k => String.eqb k sessionId
  | _ => false
  end.

(** The call writes or deletes the metadata record of [sessionId]. *)
Definition rewrites_meta (sessionId : string) (op : StoreOp) : bool :=
  match op with
  | SaveMeta s => String.eqb (id s) sessionId
  | DeleteLog k => String.eqb k sessionId
  | AppendLog _ _ => false
  end.

(** Every call of the sequence is made with an id that is a file-name
    part. *)
Definition file_name_ops (ops : list StoreOp) : bool :=
  forallb (fun op => file_name_part (store_op_id op)) ops.


(* ===================================================================== *)
(** * Sample inputs *)
(* ===================================================================== *)

(** Distinct ids for the first draws: a, b, c, ... *)
Definition sample_uuid (n : nat) : string := String (ascii_of_nat (97 + n)) EmptyString.

Definition sample_request : CreateSessionRequest :=
  mkRequest None (Some "/tmp/proj") (Some claude) (Some "claude") "/tmp/proj" (Some "fix bug").

Definition five_creates : list (Z * Op) :=
  [(10%Z, CreateSession sample_request); (11%Z, CreateSession sample_request);
   (12%Z, CreateSession sample_request); (13%Z, CreateSession sample_request);
   (14%Z, CreateSession sample_request)].

(** The session record held in cell [h]. *)
Definition session_at (h : nat) (m : PtyManager) : option TerminalSession :=
  option_map session (heap m !! h).

Definition sample_old : TerminalSession :=
  mkSession "a1" None (Some "/tmp/proj") (Some claude) completed (Some "claude")
            "/tmp/proj" 100 (Some 200%Z) (Some 0%Z).

Definition sample_recent : TerminalSession :=
  mkSession "b2" None (Some "/tmp/proj") (Some codex) running (Some "codex")
            "/tmp/proj" 5000 None None.

(** Two persisted sessions, one of them with a log, and a stray file. *)
Definition sample_store : gmap string Content :=
  <["notes.txt" := RawText "keep"]>
    (<["session_a1.log" := RawText "out"]>
       (saveSessionMeta sample_old (saveSessionMeta sample_recent ∅))).

(** Seven days and one second after the epoch: the cutoff of a seven-day
    retention is then 1000. *)
Definition sample_now : Z := 7 * MS_PER_DAY + 1000.

(** An id generator whose ids are distinct and have no dot. *)
Fixpoint unary_uuid (n : nat) : string :=
  match n with
  | 0 => "u"
  | S k => String "a"%char (unary_uuid k)
  end.

(** A record left on disk for the id of the first session of [sample_uuid],
    and a directory that holds it beside the two persisted sessions and a
    metadata file that does not parse. *)
Definition sample_stale : TerminalSession :=
  mkSession "a" None None (Some claude) completed (Some "claude")
            "/tmp/proj" 10 (Some 90%Z) (Some 0%Z).

Definition sample_listing_store : gmap string Content :=
  <["session_c3.json" := RawText "garbage"]> (saveSessionMeta sample_stale sample_store).

Definition sample_resident : TerminalSession :=
  mkSession "a" None (Some "/tmp/proj") (Some claude) running (Some "claude")
            "/tmp/proj" 10 None None.

(* ===================================================================== *)
(** * Properties of the registry: how one cell of the heap can change *)
(* ===================================================================== *)

Lemma quiet_step_id i i' : quiet_step i i' -> id (session i') = id (session i).
Proof. destruct 1; reflexivity. Qed.

Lemma quiet_step_buffer i i' : quiet_step i i' -> outputBuffer i' = outputBuffer i.
Proof. destruct 1; reflexivity. Qed.

Lemma quiet_step_running i i' : quiet_step i i' -> is_running i' = true -> is_running i = true.
Proof.
  destruct 1; cbn; try tauto.
  unfold is_running; cbn. destruct (code =? 0)%Z; discriminate.
Qed.

Lemma cell_step_id i i' : cell_step i i' -> id (session i') = id (session i).
Proof. destruct 1; [apply quiet_step_id; assumption|reflexivity]. Qed.

Lemma cell_step_running i i' : cell_step i i' -> is_running i' = true -> is_running i = true.
Proof. destruct 1; [apply quiet_step_running; assumption|tauto]. Qed.

Lemma push_chunk_length data buffer :
  length buffer <= BUFFER_CAPACITY -> length (push_chunk data buffer) <= BUFFER_CAPACITY.
Proof.
  intros H. unfold push_chunk.
  destruct (Nat.ltb_spec BUFFER_CAPACITY (length (buffer ++ [data]))) as [Hlt|Hge]; [|exact Hge].
  rewrite length_app in Hlt. cbn in Hlt.
  destruct buffer as [|c buffer]; cbn in *; [lia|]. rewrite length_app. cbn. lia.
Qed.

Lemma cell_step_ok i i' : cell_step i i' -> cell_ok i -> cell_ok i'.
Proof.
  destruct 1 as [i0 i1 [i w r|now i Hrun|now code i]|i data];
    intros (Hfin & Hfresh & Hlen); unfold cell_ok, cell_finished, cell_fresh in *; cbn.
  - auto.
  - split; [|split; [|exact Hlen]].
    + intros He. destruct (Hfin He) as [Hr _]. congruence.
    + unfold is_running; cbn. discriminate.
  - split; [|split; [|exact Hlen]].
    + intros _. unfold is_running; cbn. destruct (code =? 0)%Z; eauto.
    + unfold is_running; cbn. destruct (code =? 0)%Z; discriminate.
  - split; [exact Hfin|]. split; [exact Hfresh|]. apply push_chunk_length, Hlen.
Qed.

Lemma cell_step_exited i i' :
  cell_step i i' -> exited (pty i) = true -> exited (pty i') = true.
Proof. destruct 1 as [i0 i1 [i w r|now i Hrun|now code i]|i data]; cbn; auto. Qed.

Lemma quiet_steps_buffer i i' : rtc quiet_step i i' -> outputBuffer i' = outputBuffer i.
Proof. induction 1 as [|x y z Hxy _ IH]; [reflexivity|]. rewrite IH. eauto using quiet_step_buffer. Qed.

Lemma cell_steps_id i i' : rtc cell_step i i' -> id (session i') = id (session i).
Proof. induction 1 as [|x y z Hxy _ IH]; [reflexivity|]. rewrite IH. eauto using cell_step_id. Qed.

Lemma cell_steps_running i i' :
  rtc cell_step i i' -> is_running i' = true -> is_running i = true.
Proof. induction 1; eauto using cell_step_running. Qed.

Lemma cell_steps_ok i i' : rtc cell_step i i' -> cell_ok i -> cell_ok i'.
Proof. induction 1; eauto using cell_step_ok. Qed.

Lemma cell_steps_exited i i' :
  rtc cell_step i i' -> exited (pty i) = true -> exited (pty i') = true.
Proof. induction 1; eauto using cell_step_exited. Qed.

Section HeapEvolution.
Context (R : relation PtyInstance).

Lemma heap_evolves_refl hp : heap_evolves_by R hp hp.
Proof. split; [reflexivity|]. intros h i H. exists i. split; [exact H|constructor]. Qed.

Lemma heap_evolves_trans hp1 hp2 hp3 :
  heap_evolves_by R hp1 hp2 -> heap_evolves_by R hp2 hp3 -> heap_evolves_by R hp1 hp3.
Proof.
  intros [L1 H1] [L2 H2]. split; [congruence|].
  intros h i Hi. destruct (H1 h i Hi) as (i2 & Hi2 & S12).
  destruct (H2 h i2 Hi2) as (i3 & Hi3 & S23).
  exists i3. split; [exact Hi3|]. etrans; eassumption.
Qed.

Lemma heap_evolves_insert (hp : list PtyInstance) h0 i0 x :
  hp !! h0 = Some i0 -> R i0 x -> heap_evolves_by R hp (<[h0 := x]> hp).
Proof.
  intros H0 Hstep. split; [apply length_insert|].
  intros h i Hi. destruct (decide (h = h0)) as [->|Hne].
  - exists x. split.
    + apply list_lookup_insert_eq. eapply lookup_lt_Some; eassumption.
    + assert (i = i0) as -> by congruence. apply rtc_once. exact Hstep.
  - exists i. split; [|constructor]. rewrite list_lookup_insert_ne; auto.
Qed.
End HeapEvolution.

Lemma heap_quiet_evolves hp hp' : heap_evolves_by quiet_step hp hp' -> heap_evolves hp hp'.
Proof.
  intros [Hlen Hev]. split; [exact Hlen|].
  intros h i Hi. destruct (Hev h i Hi) as (i' & Hi' & Hsteps).
  exists i'. split; [exact Hi'|].
  clear -Hsteps. induction Hsteps as [|x y z Hxy _ IH]; [constructor|].
  eapply rtc_l; [apply cell_quiet; exact Hxy|exact IH].
Qed.

Lemma get_instance_Some sessionId m h i :
  get_instance sessionId m = Some (h, i) ->
  map_get sessionId (instances m) = Some h /\ heap m !! h = Some i.
Proof.
  unfold get_instance. destruct (map_get sessionId (instances m)) as [h'|]; [|discriminate].
  destruct (heap m !! h') as [i'|] eqn:E; [|discriminate].
  intros [= <- <-]. auto.
Qed.

Section RegistryFacts.
Context (backend : NodePty).

Lemma writeToSession_evolves sessionId data m :
  heap_evolves_by quiet_step (heap m) (heap (snd (writeToSession backend sessionId data m))) /\
  instances (snd (writeToSession backend sessionId data m)) = instances m.
Proof.
  unfold writeToSession.
  destruct (get_instance sessionId m) as [[h i]|] eqn:G; cbn; [|auto using heap_evolves_refl].
  destruct (negb (is_running i)); cbn; [auto using heap_evolves_refl|].
  destruct (write_throws backend (pty i) data); cbn; [auto using heap_evolves_refl|].
  split; [|reflexivity].
  apply get_instance_Some in G as [_ G].
  eapply heap_evolves_insert; [exact G|apply quiet_io].
Qed.

Lemma resizeSession_evolves sessionId cols rows m :
  heap_evolves_by quiet_step (heap m) (heap (snd (resizeSession backend sessionId cols rows m))) /\
  instances (snd (resizeSession backend sessionId cols rows m)) = instances m.
Proof.
  unfold resizeSession.
  destruct (get_instance sessionId m) as [[h i]|] eqn:G; cbn; [|auto using heap_evolves_refl].
  destruct (negb (is_running i)); cbn; [auto using heap_evolves_refl|].
  destruct (resize_throws backend (pty i) cols rows); cbn; [auto using heap_evolves_refl|].
  split; [|reflexivity].
  apply get_instance_Some in G as [_ G].
  eapply heap_evolves_insert; [exact G|apply quiet_io].
Qed.

Lemma killSession_evolves now sessionId m :
  heap_evolves_by quiet_step (heap m) (heap (snd (killSession backend now sessionId m))) /\
  instances (snd (killSession backend now sessionId m)) = instances m.
Proof.
  unfold killSession.
  destruct (get_instance sessionId m) as [[h i]|] eqn:G; cbn; [|auto using heap_evolves_refl].
  destruct (is_running i) eqn:R; cbn; [|auto using heap_evolves_refl].
  destruct (kill_throws backend (pty i)); cbn; [auto using heap_evolves_refl|].
  split; [|reflexivity].
  apply get_instance_Some in G as [_ G].
  eapply heap_evolves_insert; [exact G|apply quiet_kill; exact R].
Qed.

Lemma removeSession_evolves now sessionId m :
  heap_evolves_by quiet_step (heap m) (heap (snd (removeSession backend now sessionId m))) /\
  instances (snd (removeSession backend now sessionId m)) = map_delete sessionId (instances m)
  \/ snd (removeSession backend now sessionId m) = m.
Proof.
  unfold removeSession.
  destruct (get_instance sessionId m) as [[h i]|] eqn:G; cbn; [|auto].
  left. destruct (is_running i); cbn.
  - destruct (killSession_evolves now sessionId m) as [He Hi]. rewrite Hi. auto.
  - auto using heap_evolves_refl.
Qed.

Lemma shutdown_kills_evolve now (entries : list (string * nat)) m :
  let m' := List.fold_left (fun acc e => snd (killSession backend now (fst e) acc)) entries m in
  heap_evolves_by quiet_step (heap m) (heap m') /\ instances m' = instances m.
Proof.
  revert m. induction entries as [|e entries IH]; intros m; cbn.
  - auto using heap_evolves_refl.
  - destruct (killSession_evolves now (fst e) m) as [He Hi].
    destruct (IH (snd (killSession backend now (fst e) m))) as [He' Hi'].
    split; [eapply heap_evolves_trans; eassumption|congruence].
Qed.

Lemma onData_evolves h data m :
  heap_evolves (heap m) (heap (onData h data m)) /\ instances (onData h data m) = instances m.
Proof.
  unfold onData. destruct (heap m !! h) as [i|] eqn:G; cbn; [|auto using heap_evolves_refl].
  split; [|reflexivity]. eapply heap_evolves_insert; [exact G|apply cell_buffer].
Qed.

Lemma onExit_evolves now h code m :
  heap_evolves_by quiet_step (heap m) (heap (onExit now h code m)) /\
  instances (onExit now h code m) = instances m.
Proof.
  unfold onExit. destruct (heap m !! h) as [i|] eqn:G; cbn; [|auto using heap_evolves_refl].
  split; [|reflexivity]. eapply heap_evolves_insert; [exact G|apply quiet_exit].
Qed.

Lemma onTimer_evolves m :
  heap_evolves_by quiet_step (heap m) (heap (onTimer backend m)) /\ instances (onTimer backend m) = instances m.
Proof.
  unfold onTimer. destruct (timers m) as [|[h request] rest]; [auto using heap_evolves_refl|].
  destruct (commandInjection request) as [text|]; cbn; [|auto using heap_evolves_refl].
  destruct (heap m !! h) as [i|] eqn:G; cbn; [|auto using heap_evolves_refl].
  destruct (write_throws backend (pty i) text); cbn; [auto using heap_evolves_refl|].
  split; [|reflexivity]. eapply heap_evolves_insert; [exact G|apply quiet_io].
Qed.

End RegistryFacts.

(* ===================================================================== *)
(** * The registry invariant *)
(* ===================================================================== *)

Lemma getActiveSessionCount_entries m :
  getActiveSessionCount m = count_entries (heap m) (instances m).
Proof. reflexivity. Qed.

Lemma count_entries_cons hp e entries :
  count_entries hp (e :: entries) =
  (match hp !! snd e with
   | Some i => if is_running i then 1 else 0
   | None => 0
   end) + count_entries hp entries.
Proof.
  unfold count_entries. cbn. destruct (hp !! snd e) as [i|]; cbn; [|reflexivity].
  destruct (is_running i); reflexivity.
Qed.

Lemma count_entries_filter_le hp f entries :
  count_entries hp (List.filter f entries) <= count_entries hp entries.
Proof.
  induction entries as [|e entries IH]; [reflexivity|].
  cbn [List.filter]. destruct (f e); rewrite ?count_entries_cons; lia.
Qed.

Lemma count_entries_evolve_le hp hp' entries :
  heap_evolves hp hp' -> count_entries hp' entries <= count_entries hp entries.
Proof.
  intros [Hlen Hev]. induction entries as [|e entries IH]; [reflexivity|].
  rewrite !count_entries_cons.
  destruct (hp !! snd e) as [i|] eqn:E.
  - destruct (Hev _ _ E) as (i' & -> & Hsteps).
    destruct (is_running i') eqn:R'; [|lia].
    rewrite (cell_steps_running _ _ Hsteps R'). lia.
  - apply lookup_ge_None in E. rewrite <- Hlen in E. apply lookup_ge_None in E.
    rewrite E. lia.
Qed.

Lemma count_entries_set_le hp k v entries :
  count_entries hp (map_set k v entries) <= S (count_entries hp entries).
Proof.
  induction entries as [|[k' v'] entries IH]; cbn [map_set].
  - rewrite count_entries_cons. unfold count_entries; cbn.
    destruct (hp !! v) as [i|]; [destruct (is_running i)|]; lia.
  - destruct (String.eqb k k'); rewrite !count_entries_cons; cbn [snd].
    + destruct (hp !! v) as [i|]; [destruct (is_running i)|];
        destruct (hp !! v') as [i'|]; try destruct (is_running i'); lia.
    + lia.
Qed.

Lemma count_entries_ext hp hp' entries :
  (forall e, List.In e entries -> hp' !! snd e = hp !! snd e) ->
  count_entries hp' entries = count_entries hp entries.
Proof.
  induction entries as [|e entries IH]; intros H; [reflexivity|].
  rewrite !count_entries_cons, H, IH; [reflexivity| |left; reflexivity].
  intros e' He'. apply H. right. exact He'.
Qed.

Lemma map_set_In {V} k (v : V) entries e :
  List.In e (map_set k v entries) -> e = (k, v) \/ List.In e entries.
Proof.
  induction entries as [|[k' v'] entries IH]; cbn [map_set].
  - intros [<-|[]]. auto.
  - destruct (String.eqb k k'); cbn; intuition.
Qed.

Lemma map_set_keys {V} k (v : V) entries key :
  List.In key (List.map fst (map_set k v entries)) ->
  key = k \/ List.In key (List.map fst entries).
Proof.
  induction entries as [|[k' v'] entries IH]; cbn [map_set].
  - cbn. intuition.
  - destruct (String.eqb k k') eqn:E; cbn; intuition.
Qed.

Lemma map_set_NoDup {V} k (v : V) entries :
  List.NoDup (List.map fst entries) -> List.NoDup (List.map fst (map_set k v entries)).
Proof.
  induction entries as [|[k' v'] entries IH]; cbn [map_set]; intros Hnd.
  - cbn. constructor; [intros []|constructor].
  - cbn in Hnd. inversion Hnd as [|? ? Hnotin Hnd']; subst.
    destruct (String.eqb k k') eqn:E.
    + apply String.eqb_eq in E. subst k'. cbn. constructor; assumption.
    + apply String.eqb_neq in E. cbn. constructor; [|auto].
      intros Hin. apply map_set_keys in Hin as [->|Hin]; [congruence|auto].
Qed.

Lemma filter_keys_NoDup {V} (f : string * V -> bool) entries :
  List.NoDup (List.map fst entries) -> List.NoDup (List.map fst (List.filter f entries)).
Proof.
  induction entries as [|e entries IH]; cbn; intros Hnd; [constructor|].
  inversion Hnd as [|? ? Hnotin Hnd']; subst.
  destruct (f e); cbn; [constructor|]; auto.
  intros Hin. apply Hnotin. apply List.in_map_iff in Hin as (x & Hx & Hin).
  apply List.filter_In in Hin as [Hin _]. apply List.in_map_iff. eauto.
Qed.

Lemma empty_manager_ok : registry_ok empty_manager.
Proof.
  split; cbn.
  - constructor.
  - intros ? ? [].
  - intros h i H. rewrite lookup_nil in H. discriminate.
  - unfold getActiveSessionCount, MAX_PARALLEL_SESSIONS. cbn. lia.
Qed.

(** An operation that rewrites cells and keeps a filtered part of the map
    keeps the invariant. *)
Lemma registry_ok_evolve m m' f :
  registry_ok m ->
  heap_evolves (heap m) (heap m') ->
  instances m' = List.filter f (instances m) ->
  registry_ok m'.
Proof.
  intros [Hk Hc He Hn] Hev Hi. split.
  - rewrite Hi. apply filter_keys_NoDup, Hk.
  - intros k h Hin. rewrite Hi in Hin. apply List.filter_In in Hin as [Hin _].
    destruct (Hc k h Hin) as (i & Hh & Hid).
    destruct Hev as [_ Hev]. destruct (Hev h i Hh) as (i' & Hh' & Hsteps).
    exists i'. split; [exact Hh'|]. rewrite (cell_steps_id _ _ Hsteps). exact Hid.
  - intros h i' Hh'.
    destruct Hev as [Hlen Hev].
    destruct (heap m !! h) as [i|] eqn:Hh.
    + destruct (Hev h i Hh) as (i'' & Hh'' & Hsteps).
      assert (i'' = i') as -> by congruence.
      eapply cell_steps_ok; [exact Hsteps|]. eapply He; exact Hh.
    + apply lookup_ge_None in Hh. rewrite <- Hlen in Hh. apply lookup_ge_None in Hh. congruence.
  - rewrite getActiveSessionCount_entries in *. rewrite Hi.
    etrans; [apply count_entries_filter_le|].
    etrans; [apply count_entries_evolve_le; exact Hev|]. exact Hn.
Qed.

Lemma filter_true {A} (l : list A) : List.filter (fun _ => true) l = l.
Proof. induction l; cbn; congruence. Qed.

Lemma filter_false {A} (l : list A) : List.filter (fun _ => false) l = [].
Proof. induction l; cbn; congruence. Qed.

Section RegistryInvariant.
Context (uuidv4 : nat -> string) (backend : NodePty).

Lemma createSession_ok now request m :
  registry_ok m -> registry_ok (snd (createSession uuidv4 backend now request m)).
Proof.
  intros Hok. unfold createSession.
  destruct (canCreateSession m) eqn:Hcan; cbn; [|exact Hok].
  destruct (spawn_throws backend (req_cwd request)); cbn.
  { destruct Hok as [Hk Hc He Hn]. split; assumption. }
  destruct Hok as [Hk Hc He Hn]. split; cbn.
  - apply map_set_NoDup, Hk.
  - intros k h Hin. apply map_set_In in Hin as [[= -> ->]|Hin].
    + eexists. split; [apply list_lookup_middle; reflexivity|reflexivity].
    + destruct (Hc k h Hin) as (i & Hh & Hid). exists i. split; [|exact Hid].
      rewrite lookup_app_l; [exact Hh|]. eapply lookup_lt_Some; exact Hh.
  - intros h i Hh. apply lookup_app_Some in Hh as [Hh|[_ Hh]]; [eapply He; exact Hh|].
    destruct (h - length (heap m)) as [|n]; cbn in Hh; [|discriminate].
    injection Hh as <-. unfold cell_ok, cell_finished, cell_fresh. cbn.
    split; [discriminate|]. split; [auto|]. unfold BUFFER_CAPACITY. lia.
  - rewrite getActiveSessionCount_entries in *. cbn.
    etrans; [apply count_entries_set_le|].
    rewrite (count_entries_ext (heap m)).
    + unfold canCreateSession in Hcan. apply Nat.ltb_lt in Hcan.
      rewrite getActiveSessionCount_entries in Hcan. lia.
    + intros [k h] Hin. cbn. destruct (Hc k h Hin) as (i & Hh & _).
      apply lookup_app_l. eapply lookup_lt_Some; exact Hh.
Qed.

Lemma step_ok m ev : registry_ok m -> registry_ok (step uuidv4 backend m ev).
Proof.
  intros Hok. destruct ev as [now op]. unfold step. cbn [fst snd].
  destruct op as [request|sessionId data|sessionId cols rows|sessionId|sessionId| |
                  |h data|h code|].
  - apply createSession_ok, Hok.
  - destruct (writeToSession_evolves backend sessionId data m) as [He Hi].
    eapply registry_ok_evolve; [exact Hok|apply heap_quiet_evolves; exact He|]. rewrite Hi, filter_true. reflexivity.
  - destruct (resizeSession_evolves backend sessionId cols rows m) as [He Hi].
    eapply registry_ok_evolve; [exact Hok|apply heap_quiet_evolves; exact He|]. rewrite Hi, filter_true. reflexivity.
  - destruct (killSession_evolves backend now sessionId m) as [He Hi].
    eapply registry_ok_evolve; [exact Hok|apply heap_quiet_evolves; exact He|]. rewrite Hi, filter_true. reflexivity.
  - destruct (removeSession_evolves backend now sessionId m) as [[He Hi]| ->]; [|exact Hok].
    eapply registry_ok_evolve; [exact Hok|apply heap_quiet_evolves; exact He|exact Hi].
  - eapply registry_ok_evolve; [exact Hok|apply heap_evolves_refl|reflexivity].
  - destruct (shutdown_kills_evolve backend now (instances m) m) as [He Hi].
    eapply registry_ok_evolve; [exact Hok|apply heap_quiet_evolves; exact He|]. cbn. rewrite filter_false. reflexivity.
  - destruct (onData_evolves h data m) as [He Hi].
    eapply registry_ok_evolve; [exact Hok|exact He|]. rewrite Hi, filter_true. reflexivity.
  - destruct (onExit_evolves now h code m) as [He Hi].
    eapply registry_ok_evolve; [exact Hok|apply heap_quiet_evolves; exact He|]. rewrite Hi, filter_true. reflexivity.
  - destruct (onTimer_evolves backend m) as [He Hi].
    eapply registry_ok_evolve; [exact Hok|apply heap_quiet_evolves; exact He|]. rewrite Hi, filter_true. reflexivity.
Qed.

Lemma run_ok trace m : registry_ok m -> registry_ok (run uuidv4 backend trace m).
Proof.
  revert m. induction trace as [|ev trace IH]; intros m Hok; [exact Hok|].
  cbn. apply IH, step_ok, Hok.
Qed.

End RegistryInvariant.

(* ===================================================================== *)
(** * Admission control and the session state machine *)
(* ===================================================================== *)

Section RegistryCells.
Context (uuidv4 : nat -> string) (backend : NodePty).

Lemma createSession_cell now request m h i :
  heap m !! h = Some i ->
  heap (snd (createSession uuidv4 backend now request m)) !! h = Some i.
Proof.
  intros Hh. unfold createSession.
  destruct (negb (canCreateSession m)); cbn; [exact Hh|].
  destruct (spawn_throws backend (req_cwd request)); cbn; [exact Hh|].
  rewrite lookup_app_l; [exact Hh|]. eapply lookup_lt_Some; exact Hh.
Qed.

(** A cell is never dropped, and it changes by [cell_step]s only. *)
Lemma step_cell m ev h i :
  heap m !! h = Some i ->
  exists i', heap (step uuidv4 backend m ev) !! h = Some i' /\ rtc cell_step i i'.
Proof.
  intros Hh. destruct ev as [now op]. unfold step. cbn [fst snd].
  destruct op as [request|sessionId data|sessionId cols rows|sessionId|sessionId| |
                  |h0 data|h0 code|].
  - exists i. split; [apply createSession_cell; exact Hh|constructor].
  - destruct (writeToSession_evolves backend sessionId data m) as [He _].
    apply heap_quiet_evolves in He as [_ He]. auto.
  - destruct (resizeSession_evolves backend sessionId cols rows m) as [He _].
    apply heap_quiet_evolves in He as [_ He]. auto.
  - destruct (killSession_evolves backend now sessionId m) as [He _].
    apply heap_quiet_evolves in He as [_ He]. auto.
  - destruct (removeSession_evolves backend now sessionId m) as [[He _]| ->].
    + apply heap_quiet_evolves in He as [_ He]. auto.
    + exists i. split; [exact Hh|constructor].
  - exists i. split; [exact Hh|constructor].
  - destruct (shutdown_kills_evolve backend now (instances m) m) as [He _].
    apply heap_quiet_evolves in He as [_ He]. auto.
  - destruct (onData_evolves h0 data m) as [[_ He] _]. auto.
  - destruct (onExit_evolves now h0 code m) as [He _].
    apply heap_quiet_evolves in He as [_ He]. auto.
  - destruct (onTimer_evolves backend m) as [He _].
    apply heap_quiet_evolves in He as [_ He]. auto.
Qed.

Lemma run_cell trace m h i :
  heap m !! h = Some i ->
  exists i', heap (run uuidv4 backend trace m) !! h = Some i' /\ rtc cell_step i i'.
Proof.
  revert m i. induction trace as [|ev trace IH]; intros m i Hh; cbn.
  - exists i. split; [exact Hh|constructor].
  - destruct (step_cell m ev h i Hh) as (i1 & H1 & S1).
    destruct (IH _ _ H1) as (i2 & H2 & S2).
    exists i2. split; [exact H2|]. etrans; eassumption.
Qed.

(** [killSession] on a resident session that is no longer running does
    nothing and answers [true]. *)
(** A session that has left running: no operation of the registry rewrites
    its record. *)
Lemma session_at_insert_pty m h h' i' p :
  heap m !! h' = Some i' ->
  session_at h (set_heap (<[h' := set_pty p i']> (heap m)) m) = session_at h m.
Proof.
  intros Hh'. unfold session_at. cbn. destruct (decide (h = h')) as [->|Hne].
  - rewrite list_lookup_insert_eq by (eapply lookup_lt_Some; exact Hh').
    rewrite Hh'. reflexivity.
  - rewrite list_lookup_insert_ne by congruence. reflexivity.
Qed.

Lemma killSession_settled now sessionId m h s :
  session_at h m = Some s -> status s <> running ->
  session_at h (snd (killSession backend now sessionId m)) = Some s.
Proof.
  intros Hs Hr. unfold killSession.
  destruct (get_instance sessionId m) as [[h' i']|] eqn:G; [|exact Hs].
  destruct (get_instance_Some _ _ _ _ G) as [_ Hh'].
  destruct (is_running i') eqn:R; [|exact Hs].
  destruct (kill_throws backend (pty i')); [exact Hs|]. cbn.
  unfold session_at in *. cbn. rewrite list_lookup_insert_ne; [exact Hs|].
  intros ->. rewrite Hh' in Hs. cbn in Hs. injection Hs as <-.
  unfold is_running in R. destruct (status (session i')); try discriminate. congruence.
Qed.

Lemma shutdown_kills_settled now (entries : list (string * nat)) m h s :
  session_at h m = Some s -> status s <> running ->
  session_at h (List.fold_left (fun acc e => snd (killSession backend now (fst e) acc))
                               entries m) = Some s.
Proof.
  revert m. induction entries as [|e entries IH]; intros m Hs Hr; [exact Hs|].
  cbn [List.fold_left]. apply IH; [|exact Hr]. apply killSession_settled; assumption.
Qed.

Lemma step_settled m ev h s :
  session_at h m = Some s -> status s <> running -> no_exit_for h [ev] = true ->
  session_at h (step uuidv4 backend m ev) = Some s.
Proof.
  intros Hs Hr Hev. destruct ev as [now op]. unfold step. cbn [fst snd].
  destruct op as [request|sessionId data|sessionId cols rows|sessionId|sessionId| |
                  |h0 data|h0 code|].
  - unfold createSession. destruct (negb (canCreateSession m)); [exact Hs|].
    destruct (spawn_throws backend (req_cwd request)); [exact Hs|]. cbn.
    unfold session_at in *. cbn. destruct (heap m !! h) as [i|] eqn:Hh; [|discriminate].
    rewrite (lookup_app_l_Some _ _ _ _ Hh). exact Hs.
  - unfold writeToSession. destruct (get_instance sessionId m) as [[h' i']|] eqn:G; [|exact Hs].
    destruct (negb (is_running i')); [exact Hs|].
    destruct (write_throws backend (pty i') data); [exact Hs|]. cbn [snd].
    rewrite session_at_insert_pty; [exact Hs|]. apply (get_instance_Some _ _ _ _ G).
  - unfold resizeSession. destruct (get_instance sessionId m) as [[h' i']|] eqn:G; [|exact Hs].
    destruct (negb (is_running i')); [exact Hs|].
    destruct (resize_throws backend (pty i') cols rows); [exact Hs|]. cbn [snd].
    rewrite session_at_insert_pty; [exact Hs|]. apply (get_instance_Some _ _ _ _ G).
  - apply killSession_settled; assumption.
  - unfold removeSession. destruct (get_instance sessionId m) as [[h' i']|] eqn:G; [|exact Hs].
    cbn [snd]. destruct (is_running i'); [|exact Hs].
    change (session_at h (snd (killSession backend now sessionId m)) = Some s).
    apply killSession_settled; assumption.
  - exact Hs.
  - unfold shutdown.
    change (session_at h (List.fold_left
                            (fun acc e => snd (killSession backend now (fst e) acc))
                            (instances m) m) = Some s).
    apply shutdown_kills_settled; assumption.
  - unfold onData. destruct (heap m !! h0) as [i0|] eqn:Hh0; [|exact Hs].
    unfold session_at in *. cbn. destruct (decide (h = h0)) as [->|Hne].
    + rewrite list_lookup_insert_eq by (eapply lookup_lt_Some; exact Hh0).
      rewrite Hh0 in Hs. exact Hs.
    + rewrite list_lookup_insert_ne by congruence. exact Hs.
  - cbn in Hev. rewrite andb_true_r in Hev. apply negb_true_iff, Nat.eqb_neq in Hev.
    unfold onExit. destruct (heap m !! h0) as [i0|] eqn:Hh0; [|exact Hs].
    unfold session_at in *. cbn. rewrite list_lookup_insert_ne by congruence. exact Hs.
  - unfold onTimer. destruct (timers m) as [|[h' request] rest]; [exact Hs|].
    destruct (commandInjection request) as [text|]; [|exact Hs].
    destruct (heap m !! h') as [i'|] eqn:Hh'; [|exact Hs].
    destruct (write_throws backend (pty i') text); [exact Hs|].
    unfold session_at in *. cbn. destruct (decide (h = h')) as [->|Hne].
    + rewrite list_lookup_insert_eq by (eapply lookup_lt_Some; exact Hh').
      rewrite Hh' in Hs. exact Hs.
    + rewrite list_lookup_insert_ne by congruence. exact Hs.
Qed.

Lemma run_settled trace m h s :
  session_at h m = Some s -> status s <> running -> no_exit_for h trace = true ->
  session_at h (run uuidv4 backend trace m) = Some s.
Proof.
  revert m. induction trace as [|ev trace IH]; intros m Hs Hr Hev; [exact Hs|].
  cbn [run List.fold_left]. cbn [no_exit_for forallb] in Hev.
  apply andb_true_iff in Hev as [Hev Htrace].
  apply IH; [|exact Hr|exact Htrace].
  apply step_settled; [exact Hs|exact Hr|]. cbn. rewrite Hev. reflexivity.
Qed.

Lemma killSession_terminal_noop now sessionId m h i :
  get_instance sessionId m = Some (h, i) -> is_running i = false ->
  killSession backend now sessionId m = (true, m).
Proof. intros G R. unfold killSession. rewrite G, R. reflexivity. Qed.

(** C1.  On every registry reachable from the empty one, the number of
    resident sessions with status running is at most the ceiling of 5; and
    when it equals the ceiling, createSession returns no session and leaves
    the registry as it was, the count of ids drawn from the generator
    included. *)
Theorem admission_ceiling (trace : list (Z * Op)) :
  let m := run uuidv4 backend trace empty_manager in
  getActiveSessionCount m <= MAX_PARALLEL_SESSIONS /\
  (forall now request,
      getActiveSessionCount m = MAX_PARALLEL_SESSIONS ->
      createSession uuidv4 backend now request m = (None, m)).
Proof.
  intros m. split.
  - apply (ok_ceiling m). apply run_ok, empty_manager_ok.
  - intros now request Hfull. unfold createSession, canCreateSession.
    rewrite Hfull, Nat.ltb_irrefl. reflexivity.
Qed.

(** C3, as amended.  On every reachable registry: (1) a running session
    has neither completedAt nor exitCode, and the exit callback sets status,
    completedAt and exitCode in one step; (2) once the exit callback has
    run, the session is not running and completedAt and exitCode are
    defined, and they stay so after any later sequence of operations and
    callbacks; (3) killSession on a running session sets status to failed and
    completedAt to the current time in one step and leaves exitCode unset;
    (4) once a session has left running, whether by exit or by kill, no
    later sequence of operations and callbacks changes its record unless it
    delivers an exit event to the handler of that session. *)
Theorem completion_fields (trace : list (Z * Op)) :
  let m := run uuidv4 backend trace empty_manager in
  (forall now h code i,
      heap m !! h = Some i -> is_running i = true ->
      completedAt (session i) = None /\ exitCode (session i) = None /\
      exists i', heap (onExit now h code m) !! h = Some i' /\
                 status (session i') = (if (code =? 0)%Z then completed else failed) /\
                 completedAt (session i') = Some now /\
                 exitCode (session i') = Some code /\
                 exited (pty i') = true) /\
  (forall h i later,
      heap m !! h = Some i -> exited (pty i) = true ->
      status (session i) <> running /\
      is_Some (completedAt (session i)) /\ is_Some (exitCode (session i)) /\
      exists s', session_at h (run uuidv4 backend later m) = Some s' /\
                 status s' <> running /\
                 is_Some (completedAt s') /\ is_Some (exitCode s')) /\
  (forall now sessionId h i,
      get_instance sessionId m = Some (h, i) -> is_running i = true ->
      kill_throws backend (pty i) = false ->
      exists i', heap (snd (killSession backend now sessionId m)) !! h = Some i' /\
                 status (session i') = failed /\
                 completedAt (session i') = Some now /\
                 exitCode (session i') = None) /\
  (forall h i later,
      heap m !! h = Some i -> is_running i = false -> no_exit_for h later = true ->
      session_at h (run uuidv4 backend later m) = Some (session i)).
Proof.
  intros m.
  assert (Hok : registry_ok m) by (apply run_ok, empty_manager_ok).
  assert (Hnot : forall i, is_running i = false -> status (session i) <> running).
  { intros i Hr Hs. unfold is_running in Hr. rewrite Hs in Hr. discriminate. }
  split; [|split; [|split]].
  - intros now h code i Hh Hrun.
    destruct (ok_exited m Hok h i Hh) as (Hfin & Hfresh & _).
    destruct (Hfresh Hrun) as [Hc He]. split; [exact Hc|]. split; [exact He|].
    exists (mark_exited now code i). unfold onExit. rewrite Hh. cbn.
    split; [|auto]. apply list_lookup_insert_eq. eapply lookup_lt_Some; exact Hh.
  - intros h i later Hh Hex.
    pose proof (ok_exited m Hok h i Hh) as Hcell.
    destruct (proj1 Hcell Hex) as (Hr & Hc & He).
    split; [exact (Hnot i Hr)|]. split; [exact Hc|]. split; [exact He|].
    destruct (run_cell later m h i Hh) as (i' & Hh' & Hsteps).
    exists (session i'). unfold session_at. rewrite Hh'. split; [reflexivity|].
    destruct (proj1 (cell_steps_ok _ _ Hsteps Hcell) (cell_steps_exited _ _ Hsteps Hex))
      as (Hr' & Hc' & He').
    split; [exact (Hnot i' Hr')|]. split; assumption.
  - intros now sessionId h i G Hrun Hk.
    pose proof (get_instance_Some _ _ _ _ G) as [_ Hh].
    destruct (ok_exited m Hok h i Hh) as (_ & Hfresh & _).
    destruct (Hfresh Hrun) as [_ He].
    exists (mark_killed now i). unfold killSession. rewrite G, Hrun, Hk. cbn.
    split; [|auto]. apply list_lookup_insert_eq. eapply lookup_lt_Some; exact Hh.
  - intros h i later Hh Hr Hev. apply run_settled; [|exact (Hnot i Hr)|exact Hev].
    unfold session_at. rewrite Hh. reflexivity.
Qed.

End RegistryCells.

Lemma admission_ceiling_witness :
  getActiveSessionCount (run sample_uuid reliable_pty five_creates empty_manager)
    = MAX_PARALLEL_SESSIONS /\
  createSession sample_uuid reliable_pty 15 sample_request
                (run sample_uuid reliable_pty five_creates empty_manager)
    = (None, run sample_uuid reliable_pty five_creates empty_manager).
Proof.
  split; [reflexivity|].
  destruct (admission_ceiling sample_uuid reliable_pty five_creates) as [_ H].
  apply H. reflexivity.
Defined.

(** C2, at the failing input.  A session is created and killed: it is failed,
    with completedAt 20 and no exit code.  The process then exits with code 0
    and the exit handler, which does not look at the status, turns the
    session into a completed one with a new completedAt. *)
Lemma exit_after_kill_rewrites_session :
  let create_kill := [(10%Z, CreateSession sample_request); (20%Z, KillSession "a")] in
  session_at 0 (run sample_uuid reliable_pty create_kill empty_manager)
    = Some (mkSession "a" None (Some "/tmp/proj") (Some claude) failed (Some "claude")
                      "/tmp/proj" 10 (Some 20%Z) None) /\
  session_at 0 (run sample_uuid reliable_pty (create_kill ++ [(30%Z, OnExit 0 0%Z)]) empty_manager)
    = Some (mkSession "a" None (Some "/tmp/proj") (Some claude) completed (Some "claude")
                      "/tmp/proj" 10 (Some 30%Z) (Some 0%Z)).
Proof. split; reflexivity. Qed.

(** C3 as stated fails: after the transition out of running that killSession
    makes, exitCode is not defined. *)
Lemma kill_leaves_exitCode_unset :
  session_at 0 (run sample_uuid reliable_pty [(10%Z, CreateSession sample_request)] empty_manager)
    = Some (mkSession "a" None (Some "/tmp/proj") (Some claude) running (Some "claude")
                      "/tmp/proj" 10 None None) /\
  session_at 0 (run sample_uuid reliable_pty
                    [(10%Z, CreateSession sample_request); (20%Z, KillSession "a")] empty_manager)
    = Some (mkSession "a" None (Some "/tmp/proj") (Some claude) failed (Some "claude")
                      "/tmp/proj" 10 (Some 20%Z) None).
Proof. split; reflexivity. Qed.

Lemma completion_fields_witness :
  let created := run sample_uuid reliable_pty [(10%Z, CreateSession sample_request)] empty_manager in
  let finished :=
    run sample_uuid reliable_pty
        [(10%Z, CreateSession sample_request); (30%Z, OnExit 0 2%Z)] empty_manager in
  (exists i', heap (onExit 30 0 2 created) !! 0 = Some i' /\
              status (session i') = failed /\
              completedAt (session i') = Some 30%Z /\
              exitCode (session i') = Some 2%Z) /\
  (exists s', session_at 0 (run sample_uuid reliable_pty
                                [(40%Z, KillSession "a"); (50%Z, OnExit 0 0%Z)] finished)
              = Some s' /\
              is_Some (completedAt s') /\ is_Some (exitCode s')) /\
  (exists i', heap (snd (killSession reliable_pty 20 "a" created)) !! 0 = Some i' /\
              status (session i') = failed /\
              completedAt (session i') = Some 20%Z /\
              exitCode (session i') = None) /\
  session_at 0 (run sample_uuid reliable_pty
                    [(40%Z, KillSession "a"); (45%Z, WriteToSession "a" "ls");
                     (50%Z, OnExit 1 0%Z); (60%Z, RemoveSession "a")] finished)
    = session_at 0 finished.
Proof.
  intros created finished.
  destruct (completion_fields sample_uuid reliable_pty
              [(10%Z, CreateSession sample_request)]) as (Hexit & _ & Hkill & _).
  destruct (completion_fields sample_uuid reliable_pty
              [(10%Z, CreateSession sample_request); (30%Z, OnExit 0 2%Z)])
    as (_ & Hdefined & _ & Hsettled).
  split; [|split; [|split]].
  - edestruct (Hexit 30%Z 0 2%Z) as (_ & _ & i' & Hi' & Hs & Hc & He & _);
      [reflexivity|reflexivity|].
    exists i'. auto.
  - edestruct (Hdefined 0) as (_ & _ & _ & s' & Hs' & _ & Hc & He);
      [reflexivity|reflexivity|].
    exists s'. split; [exact Hs'|]. split; assumption.
  - edestruct (Hkill 20%Z "a" 0) as (i' & Hi' & Hs & Hc & He);
      [reflexivity|reflexivity|reflexivity|].
    exists i'. auto.
  - etrans; [eapply Hsettled; reflexivity|reflexivity].
Defined.

(* ===================================================================== *)
(** * Command injection *)
(* ===================================================================== *)

Lemma append_assoc (a b c : string) : (a +:+ b) +:+ c = a +:+ (b +:+ c).
Proof.
  induction a as [|x a IH]; [reflexivity|].
  change (String x ((a +:+ b) +:+ c) = String x (a +:+ (b +:+ c))). f_equal. exact IH.
Qed.

Lemma escapeSingleQuotes_posix s : escapeSingleQuotes s = posix_escape s.
Proof.
  unfold posix_escape. induction s as [|c s IH]; cbn; [reflexivity|].
  unfold posix_escape_char at 1. destruct (Ascii.eqb c "'"); rewrite IH; reflexivity.
Qed.

Lemma truthy_Some s : truthy (Some s) = true <-> s <> "".
Proof.
  cbn. destruct (String.eqb_spec s ""); cbn; split; intros; congruence.
Qed.

(** C4, as amended.  For a request whose command and initialInput are both
    present and non-empty, the text handed to the terminal by the delayed
    callback is the command, a space, the initialInput in single quotes with
    every quote character replaced by quote-backslash-quote-quote, and a
    carriage return; when that callback fires on a handle whose write does not
    raise, exactly this text is appended to what the handle received. *)
Theorem injected_text_is_quoted (backend : NodePty) (request : CreateSessionRequest)
    (cmd input : string) :
  req_command request = Some cmd -> cmd <> "" ->
  req_initialInput request = Some input -> input <> "" ->
  let text := cmd +:+ " '" +:+ posix_escape input +:+ "'" +:+ CR in
  commandInjection request = Some text /\
  (forall m h rest i,
      timers m = (h, request) :: rest -> heap m !! h = Some i ->
      write_throws backend (pty i) text = false ->
      option_map (fun i' => written (pty i')) (heap (onTimer backend m) !! h)
        = Some (written (pty i) ++ [text])).
Proof.
  intros Hcmd Hne Hin Hne' text.
  assert (Hinj : commandInjection request = Some text).
  { unfold commandInjection. rewrite Hcmd, Hin.
    rewrite (proj2 (truthy_Some cmd) Hne), (proj2 (truthy_Some input) Hne'). cbn [default].
    rewrite escapeSingleQuotes_posix. unfold text.
    rewrite !append_assoc. reflexivity. }
  split; [exact Hinj|].
  intros m h rest i Ht Hh Hw. unfold onTimer. rewrite Ht, Hinj, Hh, Hw. cbn.
  rewrite list_lookup_insert_eq; [reflexivity|]. eapply lookup_lt_Some; exact Hh.
Qed.

Lemma injected_text_is_quoted_witness :
  commandInjection
    (mkRequest None None (Some claude) (Some "claude") "/tmp/proj" (Some "it's broken"))
    = Some ("claude 'it'\''s broken'" +:+ CR).
Proof.
  apply (injected_text_is_quoted reliable_pty
           (mkRequest None None (Some claude) (Some "claude") "/tmp/proj" (Some "it's broken"))
           "claude" "it's broken"); [reflexivity|discriminate|reflexivity|discriminate].
Defined.

(** C4 as stated fails for an initialInput that is supplied but empty: the
    truthiness test skips it and the command goes out alone, not followed by
    an empty pair of quotes. *)
Lemma empty_initialInput_is_dropped :
  commandInjection (mkRequest None None (Some claude) (Some "claude") "/tmp/proj" (Some ""))
    = Some ("claude" +:+ CR) /\
  commandInjection (mkRequest None None (Some claude) (Some "claude") "/tmp/proj" (Some ""))
    <> Some ("claude" +:+ " '" +:+ posix_escape "" +:+ "'" +:+ CR).
Proof. split; [reflexivity|discriminate]. Qed.

(** C9.  The delayed callback produces a text exactly when the command is a
    non-empty string; for a request whose command is absent or empty it
    produces none, and firing it leaves every handle, and the rest of the
    registry apart from the timer queue, as it was. *)
Theorem no_command_no_injection (backend : NodePty) (request : CreateSessionRequest) :
  (commandInjection request = None <->
   req_command request = None \/ req_command request = Some "") /\
  (req_command request = None \/ req_command request = Some "" ->
   forall m h rest,
     timers m = (h, request) :: rest ->
     onTimer backend m = mkManager (heap m) (instances m) rest (emitted m) (uuids m)).
Proof.
  assert (Hiff : commandInjection request = None <->
                 req_command request = None \/ req_command request = Some "").
  { unfold commandInjection. destruct (req_command request) as [cmd|]; cbn.
    - destruct (String.eqb_spec cmd ""); cbn; split.
      + intros _. right. congruence.
      + reflexivity.
      + discriminate.
      + intros [H|H]; congruence.
    - split; auto. }
  split; [exact Hiff|].
  intros Hcmd m h rest Ht. unfold onTimer. rewrite Ht.
  rewrite (proj2 Hiff Hcmd). reflexivity.
Qed.

Lemma no_command_no_injection_witness :
  let request := mkRequest None None (Some codex) (Some "") "/tmp/proj" (Some "fix bug") in
  let m := snd (createSession sample_uuid reliable_pty 10 request empty_manager) in
  heap (onTimer reliable_pty m) = heap m /\ timers (onTimer reliable_pty m) = [].
Proof.
  intros request m.
  destruct (no_command_no_injection reliable_pty request) as [_ H].
  rewrite (H (or_intror eq_refl) m 0 []); [split; reflexivity|reflexivity].
Defined.

(* ===================================================================== *)
(** * Input and resize *)
(* ===================================================================== *)

(** C5, as amended.  For an id that is not resident, or whose session is not
    running, writeToSession and resizeSession return false and leave the
    registry, the handles included, as it was.  For a resident running
    session the call is forwarded to the handle and returns true, unless the
    handle raises: then the call returns false and nothing is recorded. *)
Theorem write_and_resize_guard (backend : NodePty) (m : PtyManager)
    (sessionId data : string) (cols rows : Z) :
  (get_instance sessionId m = None ->
   writeToSession backend sessionId data m = (false, m) /\
   resizeSession backend sessionId cols rows m = (false, m)) /\
  (forall h i,
      get_instance sessionId m = Some (h, i) -> is_running i = false ->
      writeToSession backend sessionId data m = (false, m) /\
      resizeSession backend sessionId cols rows m = (false, m)) /\
  (forall h i,
      get_instance sessionId m = Some (h, i) -> is_running i = true ->
      writeToSession backend sessionId data m =
        (if write_throws backend (pty i) data then (false, m)
         else (true, set_heap (<[h := log_write data i]> (heap m)) m)) /\
      resizeSession backend sessionId cols rows m =
        (if resize_throws backend (pty i) cols rows then (false, m)
         else (true, set_heap (<[h := log_resize cols rows i]> (heap m)) m))).
Proof.
  unfold writeToSession, resizeSession. split; [|split].
  - intros ->. auto.
  - intros h i -> ->. auto.
  - intros h i -> ->. cbn. split; reflexivity.
Qed.

Lemma write_and_resize_guard_witness :
  let m := run sample_uuid node_pty
               [(10%Z, CreateSession sample_request); (11%Z, CreateSession sample_request);
                (20%Z, KillSession "b")] empty_manager in
  writeToSession node_pty "zz" "ls" m = (false, m) /\
  writeToSession node_pty "b" "ls" m = (false, m) /\
  fst (writeToSession node_pty "a" "ls" m) = true /\
  option_map (fun i => written (pty i)) (heap (snd (writeToSession node_pty "a" "ls" m)) !! 0)
    = Some ["ls"] /\
  fst (resizeSession node_pty "a" 80 24 m) = true.
Proof.
  intros m.
  destruct (write_and_resize_guard node_pty m "zz" "ls" 80 24) as (Hnone & _ & _).
  destruct (write_and_resize_guard node_pty m "b" "ls" 80 24) as (_ & Hdone & _).
  destruct (write_and_resize_guard node_pty m "a" "ls" 80 24) as (_ & _ & Hrun).
  split; [apply Hnone; reflexivity|].
  split; [eapply Hdone; reflexivity|].
  edestruct Hrun as [Hw Hr]; [reflexivity|reflexivity|].
  rewrite Hw, Hr. repeat split; reflexivity.
Defined.

(** C5 as stated fails: a resize with a non-positive dimension on a resident
    running session is refused by the handle, the exception is caught, and
    the call returns false. *)
Lemma resize_on_running_session_returns_false :
  let m := run sample_uuid node_pty [(10%Z, CreateSession sample_request)] empty_manager in
  option_map status (getSession "a" m) = Some running /\
  resizeSession node_pty "a" (-1) 24 m = (false, m).
Proof. split; reflexivity. Qed.

(* ===================================================================== *)
(** * The output buffer *)
(* ===================================================================== *)

Section KeepLast.
Context {A : Type}.
Implicit Types l r : list A.

Lemma keep_last_short n l : length l <= n -> keep_last n l = l.
Proof. intros H. unfold keep_last. replace (length l - n) with 0 by lia. apply drop_0. Qed.

Lemma keep_last_length n l : length (keep_last n l) <= n.
Proof. unfold keep_last. rewrite length_drop. lia. Qed.

Lemma keep_last_app n l r : keep_last n (keep_last n l ++ r) = keep_last n (l ++ r).
Proof.
  destruct (Nat.le_gt_cases (length l) n) as [Hle|Hgt].
  - rewrite (keep_last_short n l Hle). reflexivity.
  - unfold keep_last. rewrite !length_app, length_drop.
    replace (length l - (length l - n) + length r - n) with (length r) by lia.
    replace (length l + length r - n) with ((length l - n) + length r) by lia.
    rewrite <- drop_drop. rewrite (drop_app_le l r (length l - n)) by lia. reflexivity.
Qed.
End KeepLast.

Lemma tail_drop {A} (l : list A) : tail l = drop 1 l.
Proof. destruct l; reflexivity. Qed.

Lemma push_chunk_keep_last data buffer :
  length buffer <= BUFFER_CAPACITY ->
  push_chunk data buffer = keep_last BUFFER_CAPACITY (buffer ++ [data]).
Proof.
  intros H. unfold push_chunk, keep_last.
  destruct (Nat.ltb_spec BUFFER_CAPACITY (length (buffer ++ [data]))) as [Hlt|Hge];
    rewrite length_app in *; cbn [length] in *.
  - replace (length buffer + 1 - BUFFER_CAPACITY) with 1 by lia. apply tail_drop.
  - replace (length buffer + 1 - BUFFER_CAPACITY) with 0 by lia. reflexivity.
Qed.

Lemma feed_keep_last chunks buffer :
  length buffer <= BUFFER_CAPACITY ->
  feed chunks buffer = keep_last BUFFER_CAPACITY (buffer ++ chunks).
Proof.
  revert buffer. induction chunks as [|data chunks IH]; intros buffer H; cbn.
  - rewrite app_nil_r. symmetry. apply keep_last_short, H.
  - fold (feed chunks (push_chunk data buffer)).
    rewrite IH by (apply push_chunk_length, H).
    rewrite push_chunk_keep_last by exact H.
    rewrite keep_last_app, <- app_assoc. reflexivity.
Qed.

Lemma feed_app chunks1 chunks2 buffer :
  feed (chunks1 ++ chunks2) buffer = feed chunks2 (feed chunks1 buffer).
Proof. apply List.fold_left_app. Qed.

Lemma chunks_for_cons h ev trace :
  chunks_for h (ev :: trace) = chunks_for h [ev] ++ chunks_for h trace.
Proof.
  unfold chunks_for. cbn.
  destruct (snd ev); try reflexivity. destruct (decide (h0 = h)); reflexivity.
Qed.

Lemma map_get_set {V} k (v : V) entries : map_get k (map_set k v entries) = Some v.
Proof.
  induction entries as [|[k' v'] entries IH]; cbn.
  - rewrite String.eqb_refl. reflexivity.
  - destruct (String.eqb k k') eqn:E; cbn; [rewrite String.eqb_refl|rewrite E]; auto.
Qed.

Section Buffer.
Context (uuidv4 : nat -> string) (backend : NodePty).

Lemma quiet_evolution_buffer hp hp' h i :
  heap_evolves_by quiet_step hp hp' -> hp !! h = Some i ->
  exists i', hp' !! h = Some i' /\ outputBuffer i' = outputBuffer i.
Proof.
  intros [_ Hev] Hh. destruct (Hev h i Hh) as (i' & Hh' & Hsteps).
  exists i'. split; [exact Hh'|]. apply quiet_steps_buffer, Hsteps.
Qed.

(** One turn of the event loop runs the data callback of cell [h] on the
    chunks it delivers to [h], and leaves the buffer alone otherwise. *)
Lemma step_buffer m ev h i :
  heap m !! h = Some i ->
  exists i', heap (step uuidv4 backend m ev) !! h = Some i' /\
             outputBuffer i' = feed (chunks_for h [ev]) (outputBuffer i).
Proof.
  intros Hh. destruct ev as [now op]. unfold step, chunks_for. cbn [fst snd omap list_omap].
  destruct op as [request|sessionId data|sessionId cols rows|sessionId|sessionId| |
                  |h0 data|h0 code|]; cbn [feed List.fold_left].
  - exists i. split; [apply createSession_cell; exact Hh|reflexivity].
  - destruct (writeToSession_evolves backend sessionId data m) as [He _].
    eapply quiet_evolution_buffer; eassumption.
  - destruct (resizeSession_evolves backend sessionId cols rows m) as [He _].
    eapply quiet_evolution_buffer; eassumption.
  - destruct (killSession_evolves backend now sessionId m) as [He _].
    eapply quiet_evolution_buffer; eassumption.
  - destruct (removeSession_evolves backend now sessionId m) as [[He _]| ->].
    + eapply quiet_evolution_buffer; eassumption.
    + exists i. auto.
  - exists i. auto.
  - destruct (shutdown_kills_evolve backend now (instances m) m) as [He _].
    eapply quiet_evolution_buffer; eassumption.
  - unfold onData. destruct (decide (h0 = h)) as [->|Hne]; cbn.
    + rewrite Hh. exists (set_outputBuffer (push_chunk data (outputBuffer i)) i).
      split; [|reflexivity]. cbn [heap emit set_heap].
      apply list_lookup_insert_eq. eapply lookup_lt_Some; exact Hh.
    + destruct (heap m !! h0) as [i0|]; cbn; [|exists i; auto].
      exists i. split; [|reflexivity]. rewrite list_lookup_insert_ne; auto.
  - destruct (onExit_evolves now h0 code m) as [He _].
    eapply quiet_evolution_buffer; eassumption.
  - destruct (onTimer_evolves backend m) as [He _].
    eapply quiet_evolution_buffer; eassumption.
Qed.

Lemma run_buffer trace m h i :
  heap m !! h = Some i ->
  exists i', heap (run uuidv4 backend trace m) !! h = Some i' /\
             outputBuffer i' = feed (chunks_for h trace) (outputBuffer i).
Proof.
  revert m i. induction trace as [|ev trace IH]; intros m i Hh.
  - exists i. auto.
  - destruct (step_buffer m ev h i Hh) as (i1 & H1 & B1).
    destruct (IH _ _ H1) as (i2 & H2 & B2).
    exists i2. split; [exact H2|].
    rewrite chunks_for_cons, feed_app, <- B1. exact B2.
Qed.

(** C6.  On every reachable registry: (1) every buffer has at most 10,000
    chunks, and after any further events the buffer of a cell is the last
    10,000 of its chunks followed by the chunks that the data callback
    received since, in the order received; (2) a new session starts with
    an empty buffer; (3) getSessionOutput of a resident id is the
    concatenation of the buffered chunks in order, and the empty string for
    an id that is not resident. *)
Theorem output_buffer (trace : list (Z * Op)) :
  let m := run uuidv4 backend trace empty_manager in
  (forall h i,
      heap m !! h = Some i ->
      length (outputBuffer i) <= BUFFER_CAPACITY /\
      forall later,
      exists i', heap (run uuidv4 backend later m) !! h = Some i' /\
                 outputBuffer i' =
                   keep_last BUFFER_CAPACITY (outputBuffer i ++ chunks_for h later) /\
                 length (outputBuffer i') <= BUFFER_CAPACITY) /\
  (forall now request s m',
      createSession uuidv4 backend now request m = (Some s, m') ->
      exists h i, get_instance (id s) m' = Some (h, i) /\
                  session i = s /\ outputBuffer i = []) /\
  (forall sessionId,
      (forall h i, get_instance sessionId m = Some (h, i) ->
                   getSessionOutput sessionId m = join (outputBuffer i)) /\
      (get_instance sessionId m = None -> getSessionOutput sessionId m = "")).
Proof.
  intros m.
  assert (Hok : registry_ok m) by (apply run_ok, empty_manager_ok).
  split; [|split].
  - intros h i Hh.
    destruct (ok_exited m Hok h i Hh) as (_ & _ & Hlen).
    split; [exact Hlen|]. intros later.
    destruct (run_buffer later m h i Hh) as (i' & Hh' & Hb).
    exists i'. split; [exact Hh'|].
    rewrite Hb, feed_keep_last by exact Hlen.
    split; [reflexivity|apply keep_last_length].
  - intros now request s m'. unfold createSession.
    destruct (negb (canCreateSession m)); [discriminate|].
    destruct (spawn_throws backend (req_cwd request)); [discriminate|].
    intros [= <- <-]. unfold get_instance. cbn.
    rewrite map_get_set, list_lookup_middle by reflexivity.
    eexists _, _. split; [reflexivity|]. split; reflexivity.
  - intros sessionId. unfold getSessionOutput. split.
    + intros h i ->. cbn.
      destruct (String.eqb_spec (join (outputBuffer i)) ""); cbn; congruence.
    + intros ->. reflexivity.
Qed.

End Buffer.

Lemma output_buffer_witness :
  let m := run sample_uuid reliable_pty
               [(10%Z, CreateSession sample_request); (11%Z, OnData 0 "he")] empty_manager in
  getSessionOutput "a" m = "he" /\
  (exists i', heap (run sample_uuid reliable_pty [(12%Z, OnData 0 "llo")] m) !! 0 = Some i' /\
              outputBuffer i' = ["he"; "llo"]) /\
  getSessionOutput "zz" m = "".
Proof.
  intros m.
  destruct (output_buffer sample_uuid reliable_pty
              [(10%Z, CreateSession sample_request); (11%Z, OnData 0 "he")])
    as (Hbuf & _ & Hout).
  fold m in Hbuf, Hout.
  split; [|split].
  - destruct (Hout "a") as [H _]. etrans; [eapply H; reflexivity|reflexivity].
  - edestruct (Hbuf 0) as [_ Hlater]; [reflexivity|].
    destruct (Hlater [(12%Z, OnData 0 "llo")]) as (i' & Hi' & Hb & _).
    exists i'. split; [exact Hi'|]. rewrite Hb. reflexivity.
  - destruct (Hout "zz") as [_ H]. apply H. reflexivity.
Defined.

(* ===================================================================== *)
(** * The notification dispatcher *)
(* ===================================================================== *)

Lemma sendWeChatMessage_returns config world message :
  exists b, fst (sendWeChatMessage config world message) = Returned b.
Proof.
  unfold sendWeChatMessage.
  destruct (negb (enabled config) || String.eqb (webhookUrl config) ""); [eauto|].
  destruct world as [| | |statusCode body]; cbn; eauto.
  destruct (statusCode =? 200)%Z; [|eauto].
  destruct body as [| |[code|]]; cbn; eauto.
Qed.

(** C10.  notifyTaskCompleted settles with a boolean on every configuration,
    session and delivery and never raises; with notifications disabled or an
    empty webhook URL it settles with false and sends no request; and when
    the delivery fails (refused URL, request error, timeout, or a status other
    than 200) it settles with false. *)
Theorem notifyTaskCompleted_total (config : NotificationConfig) (world : Delivery)
    (s : TerminalSession) :
  (exists b, fst (notifyTaskCompleted config world s) = Returned b) /\
  (enabled config = false \/ webhookUrl config = "" ->
   notifyTaskCompleted config world s = (Returned false, [])) /\
  (delivery_failed world -> fst (notifyTaskCompleted config world s) = Returned false).
Proof.
  unfold notifyTaskCompleted. split; [apply sendWeChatMessage_returns|].
  unfold sendWeChatMessage. split.
  - intros [H|H]; rewrite H; cbn; [reflexivity|].
    rewrite orb_true_r. reflexivity.
  - intros Hfail.
    destruct (negb (enabled config) || String.eqb (webhookUrl config) ""); [reflexivity|].
    destruct world as [| | |statusCode body]; cbn; try reflexivity.
    cbn in Hfail. destruct (Z.eqb_spec statusCode 200); [contradiction|reflexivity].
Qed.

Lemma notifyTaskCompleted_total_witness :
  let finished := mkSession "a" None (Some "/tmp/proj") (Some claude) failed (Some "claude")
                            "/tmp/proj" 1000 (Some 3600%Z) (Some 2%Z) in
  notifyTaskCompleted (mkConfig true "") (Responded 200 (BodyObject (Some 0%Z))) finished
    = (Returned false, []) /\
  fst (notifyTaskCompleted (mkConfig true "https://hook.example/send")
                           (Responded 500 BodyNotJson) finished)
    = Returned false.
Proof.
  intros finished. split.
  - apply (notifyTaskCompleted_total (mkConfig true "")
             (Responded 200 (BodyObject (Some 0%Z))) finished).
    right. reflexivity.
  - apply (notifyTaskCompleted_total (mkConfig true "https://hook.example/send")
             (Responded 500 BodyNotJson) finished).
    cbn. discriminate.
Defined.

(* ===================================================================== *)
(** * File names *)
(* ===================================================================== *)

Lemma append_cons c (a b : string) : String c a +:+ b = String c (a +:+ b).
Proof. reflexivity. Qed.

Lemma list_ascii_append (a b : string) :
  list_ascii_of_string (a +:+ b) = list_ascii_of_string a ++ list_ascii_of_string b.
Proof.
  induction a as [|c a IH]; [reflexivity|].
  rewrite append_cons. cbn [list_ascii_of_string]. rewrite IH. reflexivity.
Qed.

Lemma list_ascii_inj (a b : string) :
  list_ascii_of_string a = list_ascii_of_string b -> a = b.
Proof.
  intros H. rewrite <- (string_of_list_ascii_of_string a), <- (string_of_list_ascii_of_string b).
  rewrite H. reflexivity.
Qed.

Lemma append_inv_tail (a b c : string) : a +:+ c = b +:+ c -> a = b.
Proof.
  intros H. apply list_ascii_inj.
  apply (f_equal list_ascii_of_string) in H. rewrite !list_ascii_append in H.
  eapply app_inv_tail; exact H.
Qed.

Lemma append_inv_head (a b c : string) : c +:+ a = c +:+ b -> a = b.
Proof.
  induction c as [|x c IH]; [auto|]. rewrite !append_cons. intros [= H]. auto.
Qed.

Lemma getSessionMetaPath_inj a b : getSessionMetaPath a = getSessionMetaPath b -> a = b.
Proof.
  unfold getSessionMetaPath. intros H. apply append_inv_head in H.
  eapply append_inv_tail; exact H.
Qed.

Lemma getSessionLogPath_inj a b : getSessionLogPath a = getSessionLogPath b -> a = b.
Proof.
  unfold getSessionLogPath. intros H. apply append_inv_head in H.
  eapply append_inv_tail; exact H.
Qed.

Lemma json_is_not_log (a b : string) : a +:+ ".json" <> b +:+ ".log".
Proof.
  intros H. apply (f_equal list_ascii_of_string) in H. rewrite !list_ascii_append in H.
  change (list_ascii_of_string ".json") with ((list_ascii_of_string ".jso") ++ ["n"%char]) in H.
  change (list_ascii_of_string ".log") with ((list_ascii_of_string ".lo") ++ ["g"%char]) in H.
  rewrite !app_assoc in H. apply app_inj_tail in H as [_ H]. discriminate.
Qed.

Lemma meta_path_is_not_log_path a b : getSessionMetaPath a <> getSessionLogPath b.
Proof.
  unfold getSessionMetaPath, getSessionLogPath. intros H. apply append_inv_head in H.
  exact (json_is_not_log _ _ H).
Qed.

Lemma endsWith_true s suffix : endsWith s suffix = true <-> exists p, s = p +:+ suffix.
Proof.
  split.
  - induction s as [|c s IH]; cbn [endsWith].
    + destruct (String.eqb_spec "" suffix) as [<-|]; intros H; [|discriminate].
      exists "". reflexivity.
    + destruct (String.eqb_spec (String c s) suffix) as [<-|].
      * intros _. exists "". reflexivity.
      * intros H. destruct (IH H) as [p ->]. exists (String c p). reflexivity.
  - intros [p ->]. induction p as [|c p IH].
    + change (endsWith suffix suffix = true).
      destruct suffix; cbn [endsWith]; rewrite String.eqb_refl; reflexivity.
    + rewrite append_cons. cbn [endsWith]. rewrite IH. destruct (String.eqb _ _); reflexivity.
Qed.

Lemma meta_path_endsWith_json sessionId : endsWith (getSessionMetaPath sessionId) ".json" = true.
Proof.
  apply endsWith_true. exists ("session_" +:+ sessionId).
  unfold getSessionMetaPath. symmetry. apply append_assoc.
Qed.

Lemma log_path_not_json sessionId : endsWith (getSessionLogPath sessionId) ".json" = false.
Proof.
  destruct (endsWith (getSessionLogPath sessionId) ".json") eqn:E; [|reflexivity].
  apply endsWith_true in E as [p E]. unfold getSessionLogPath in E.
  rewrite <- append_assoc in E. symmetry in E. destruct (json_is_not_log _ _ E).
Qed.

Lemma remove_first_json sessionId :
  no_dot sessionId = true -> remove_first ".json" (sessionId +:+ ".json") = sessionId.
Proof.
  induction sessionId as [|c s IH]; [reflexivity|].
  cbn [no_dot]. intros [Hc Hs]%andb_prop. rewrite append_cons.
  cbn [remove_first startsWith].
  rewrite Ascii.eqb_sym. apply negb_true_iff in Hc. rewrite Hc. cbn [andb].
  rewrite IH by exact Hs. reflexivity.
Qed.

(** The id that the loops extract from a metadata file name is the id the
    name was built from, for ids without a dot. *)
Lemma sessionIdOfFile_meta_path sessionId :
  no_dot sessionId = true -> sessionIdOfFile (getSessionMetaPath sessionId) = sessionId.
Proof.
  intros H. unfold sessionIdOfFile, getSessionMetaPath.
  change (remove_first "session_" ("session_" +:+ sessionId +:+ ".json"))
    with (sessionId +:+ ".json").
  apply remove_first_json, H.
Qed.

(* ===================================================================== *)
(** * The store *)
(* ===================================================================== *)

Lemma elem_of_readdirSync (fs : gmap string Content) file :
  file ∈ readdirSync fs <-> is_Some (fs !! file).
Proof.
  unfold readdirSync. rewrite list_elem_of_fmap. split.
  - intros ([f c] & -> & Hin). apply elem_of_map_to_list in Hin. cbn. eauto.
  - intros [c Hc]. exists (file, c). split; [reflexivity|]. apply elem_of_map_to_list, Hc.
Qed.

Lemma NoDup_readdirSync (fs : gmap string Content) : NoDup (readdirSync fs).
Proof. apply NoDup_fst_map_to_list. Qed.

Lemma loadSessionMeta_lookup sessionId (fs : gmap string Content) :
  loadSessionMeta sessionId fs = fs !! getSessionMetaPath sessionId ≫= JSON_parse.
Proof.
  unfold loadSessionMeta, existsSync.
  destruct (fs !! getSessionMetaPath sessionId) as [c|] eqn:E.
  - rewrite bool_decide_eq_true_2 by eauto. reflexivity.
  - rewrite bool_decide_eq_false_2; [reflexivity|]. intros [? ?]. discriminate.
Qed.

Lemma deleteSessionLog_eq sessionId (fs : gmap string Content) :
  deleteSessionLog sessionId fs =
  delete (getSessionMetaPath sessionId) (delete (getSessionLogPath sessionId) fs).
Proof.
  unfold deleteSessionLog, existsSync.
  assert (Hdel : forall (g : gmap string Content) k,
             (if bool_decide (is_Some (g !! k)) then delete k g else g) = delete k g).
  { intros g k. destruct (g !! k) as [c|] eqn:E.
    - rewrite bool_decide_eq_true_2 by eauto. reflexivity.
    - rewrite bool_decide_eq_false_2 by (intros [? ?]; congruence).
      symmetry. apply delete_id, E. }
  rewrite !Hdel. reflexivity.
Qed.

Lemma deleteSessionLog_artifact sessionId (fs : gmap string Content) k :
  k ∈ artifacts sessionId -> deleteSessionLog sessionId fs !! k = None.
Proof.
  rewrite deleteSessionLog_eq. unfold artifacts.
  intros [->|[->|[]%elem_of_nil]%elem_of_cons]%elem_of_cons.
  - destruct (decide (getSessionMetaPath sessionId = getSessionLogPath sessionId)) as [E|E].
    + rewrite E. apply lookup_delete_eq.
    + rewrite lookup_delete_ne by exact E. apply lookup_delete_eq.
  - apply lookup_delete_eq.
Qed.

Lemma deleteSessionLog_other sessionId (fs : gmap string Content) k :
  k ∉ artifacts sessionId -> deleteSessionLog sessionId fs !! k = fs !! k.
Proof.
  rewrite deleteSessionLog_eq. unfold artifacts. intros Hk.
  rewrite !lookup_delete_ne; [reflexivity| |];
    intros <-; apply Hk; repeat constructor.
Qed.

Lemma deleteSessionLog_None sessionId (fs : gmap string Content) k :
  fs !! k = None -> deleteSessionLog sessionId fs !! k = None.
Proof.
  intros H. rewrite deleteSessionLog_eq.
  destruct (decide (getSessionMetaPath sessionId = k)) as [<-|E1]; [apply lookup_delete_eq|].
  rewrite lookup_delete_ne by exact E1.
  destruct (decide (getSessionLogPath sessionId = k)) as [<-|E2]; [apply lookup_delete_eq|].
  rewrite lookup_delete_ne by exact E2. exact H.
Qed.

Lemma store_names_ok_spec (fs : gmap string Content) file :
  store_names_ok fs = true -> is_Some (fs !! file) -> endsWith file ".json" = true ->
  getSessionMetaPath (sessionIdOfFile file) = file.
Proof.
  unfold store_names_ok. rewrite List.forallb_forall. intros H Hf He.
  apply elem_of_readdirSync, list_elem_of_In in Hf. specialize (H _ Hf).
  rewrite He in H. cbn in H. apply String.eqb_eq, H.
Qed.

Lemma store_ids_ok_spec (fs : gmap string Content) file s :
  store_ids_ok fs = true -> is_Some (fs !! file) -> endsWith file ".json" = true ->
  loadSessionMeta (sessionIdOfFile file) fs = Some s -> id s = sessionIdOfFile file.
Proof.
  unfold store_ids_ok. rewrite List.forallb_forall. intros H Hf He Hl.
  apply elem_of_readdirSync, list_elem_of_In in Hf. specialize (H _ Hf).
  rewrite Hl, He in H. cbn in H. apply String.eqb_eq, H.
Qed.

(** A readable record is found under its metadata path, and that name gives
    the id back. *)
Lemma loaded_file (fs : gmap string Content) sessionId s :
  store_names_ok fs = true -> loadSessionMeta sessionId fs = Some s ->
  getSessionMetaPath sessionId ∈ readdirSync fs /\
  endsWith (getSessionMetaPath sessionId) ".json" = true /\
  sessionIdOfFile (getSessionMetaPath sessionId) = sessionId.
Proof.
  intros Hok Hl. rewrite loadSessionMeta_lookup in Hl.
  destruct (fs !! getSessionMetaPath sessionId) as [c|] eqn:E; [|discriminate].
  assert (Hsome : is_Some (fs !! getSessionMetaPath sessionId)) by eauto.
  split; [apply elem_of_readdirSync, Hsome|].
  split; [apply meta_path_endsWith_json|].
  apply getSessionMetaPath_inj.
  apply (store_names_ok_spec fs); [exact Hok|exact Hsome|apply meta_path_endsWith_json].
Qed.

(* ===================================================================== *)
(** * The directory as the persistence layer writes it *)
(* ===================================================================== *)

Lemma store_names_ok_iff (fs : gmap string Content) :
  store_names_ok fs = true <->
  forall file, is_Some (fs !! file) -> endsWith file ".json" = true ->
               getSessionMetaPath (sessionIdOfFile file) = file.
Proof.
  split; [intros H file; apply store_names_ok_spec, H|].
  intros H. unfold store_names_ok. apply List.forallb_forall. intros file Hin.
  apply list_elem_of_In, elem_of_readdirSync in Hin.
  destruct (endsWith file ".json") eqn:He; [|reflexivity].
  cbn. apply String.eqb_eq, H; assumption.
Qed.

Lemma store_ids_ok_iff (fs : gmap string Content) :
  store_ids_ok fs = true <->
  forall file s, is_Some (fs !! file) -> endsWith file ".json" = true ->
                 loadSessionMeta (sessionIdOfFile file) fs = Some s ->
                 id s = sessionIdOfFile file.
Proof.
  split; [intros H file s; apply store_ids_ok_spec, H|].
  intros H. unfold store_ids_ok. apply List.forallb_forall. intros file Hin.
  apply list_elem_of_In, elem_of_readdirSync in Hin.
  destruct (loadSessionMeta (sessionIdOfFile file) fs) as [s|] eqn:Hl; [|reflexivity].
  destruct (endsWith file ".json") eqn:He; [|reflexivity].
  cbn. apply String.eqb_eq, H; assumption.
Qed.

(** The empty directory is well named, and writing the metadata of a
    session whose id has no dot, or deleting a session, keeps it so. *)
Lemma saveSessionMeta_names_ok s (fs : gmap string Content) :
  no_dot (id s) = true -> store_names_ok fs = true ->
  store_names_ok (saveSessionMeta s fs) = true.
Proof.
  rewrite !store_names_ok_iff. intros Hdot H file Hsome He.
  destruct (decide (file = getSessionMetaPath (id s))) as [->|Hne].
  - rewrite sessionIdOfFile_meta_path by exact Hdot. reflexivity.
  - unfold saveSessionMeta in Hsome. rewrite lookup_insert_ne in Hsome by congruence.
    apply H; assumption.
Qed.

Lemma saveSessionMeta_ids_ok s (fs : gmap string Content) :
  no_dot (id s) = true -> store_names_ok fs = true -> store_ids_ok fs = true ->
  store_ids_ok (saveSessionMeta s fs) = true.
Proof.
  rewrite store_names_ok_iff, !store_ids_ok_iff. intros Hdot Hnames Hids file s' Hsome He Hl.
  rewrite loadSessionMeta_lookup in Hl. unfold saveSessionMeta in Hsome, Hl.
  destruct (decide (file = getSessionMetaPath (id s))) as [->|Hne].
  - rewrite sessionIdOfFile_meta_path in * by exact Hdot.
    rewrite lookup_insert_eq in Hl. cbn in Hl. congruence.
  - rewrite lookup_insert_ne in Hsome by congruence.
    rewrite lookup_insert_ne in Hl by (rewrite (Hnames file Hsome He); congruence).
    apply Hids; [exact Hsome|exact He|]. rewrite loadSessionMeta_lookup. exact Hl.
Qed.

Lemma deleteSessionLog_names_ok sessionId (fs : gmap string Content) :
  store_names_ok fs = true -> store_names_ok (deleteSessionLog sessionId fs) = true.
Proof.
  rewrite !store_names_ok_iff. intros H file [c Hc] He. apply H; [|exact He].
  destruct (fs !! file) as [c'|] eqn:E; [eauto|].
  rewrite (deleteSessionLog_None sessionId fs file E) in Hc. discriminate.
Qed.

(* ===================================================================== *)
(** * Retention cleanup *)
(* ===================================================================== *)

Section CleanupLoop.
Context (cutoff : Z) (fs0 : gmap string Content).

(** While the file [file] is as it was in the listing, the loop body deletes
    exactly when the file holds an expired record. *)
Lemma cleanup_file_eq (cur : gmap string Content) cleaned file :
  (endsWith file ".json" = true -> getSessionMetaPath (sessionIdOfFile file) = file) ->
  (endsWith file ".json" = true -> cur !! file = fs0 !! file) ->
  cleanup_file cutoff (cur, cleaned) file =
  if expired_file cutoff fs0 file
  then (deleteSessionLog (sessionIdOfFile file) cur, S cleaned)
  else (cur, cleaned).
Proof.
  intros Hname Hsame. unfold cleanup_file, expired_file.
  destruct (endsWith file ".json") eqn:E; cbn [andb]; [|reflexivity].
  rewrite !loadSessionMeta_lookup, (Hname eq_refl), (Hsame eq_refl).
  destruct (fs0 !! file ≫= JSON_parse) as [s|]; [|reflexivity].
  destruct (createdAt s <? cutoff)%Z; reflexivity.
Qed.

Lemma cleanup_loop (files : list string) :
  NoDup files ->
  (forall file, file ∈ files -> endsWith file ".json" = true ->
                getSessionMetaPath (sessionIdOfFile file) = file) ->
  forall (cur : gmap string Content) cleaned,
    (forall file, file ∈ files -> endsWith file ".json" = true -> cur !! file = fs0 !! file) ->
    let result := List.fold_left (cleanup_file cutoff) files (cur, cleaned) in
    snd result = cleaned + length (List.filter (expired_file cutoff fs0) files) /\
    (forall k, cur !! k = None -> fst result !! k = None) /\
    (forall file k, file ∈ files -> expired_file cutoff fs0 file = true ->
                    k ∈ artifacts (sessionIdOfFile file) -> fst result !! k = None) /\
    (forall k, (forall file, file ∈ files -> expired_file cutoff fs0 file = true ->
                             k ∉ artifacts (sessionIdOfFile file)) ->
               fst result !! k = cur !! k).
Proof.
  induction files as [|file files IH]; intros Hnd Hnames cur cleaned Hsame; cbn zeta.
  - cbn. split; [lia|]. split; [auto|]. split; [|auto].
    intros ? ? []%elem_of_nil.
  - apply NoDup_cons in Hnd as [Hnotin Hnd].
    cbn [List.fold_left List.filter].
    rewrite cleanup_file_eq by (intros; first [apply Hnames|apply Hsame]; [left|assumption]).
    specialize (IH Hnd (fun f Hf => Hnames f (list_elem_of_further _ _ _ Hf))).
    destruct (expired_file cutoff fs0 file) eqn:Hexp.
    + assert (Hfile : getSessionMetaPath (sessionIdOfFile file) = file).
      { apply Hnames; [left|]. unfold expired_file in Hexp.
        apply andb_prop in Hexp as [He _]. exact He. }
      destruct (IH (deleteSessionLog (sessionIdOfFile file) cur) (S cleaned))
        as (Hn & Hnone & Hdel & Hkeep).
      { intros f Hf He. rewrite deleteSessionLog_other; [apply Hsame; auto; right; exact Hf|].
        unfold artifacts.
        intros [->|[Heq|[]%elem_of_nil]%elem_of_cons]%elem_of_cons.
        - rewrite log_path_not_json in He. discriminate.
        - apply Hnotin. rewrite Heq, Hfile in Hf. exact Hf. }
      split; [cbn [length]; lia|]. split; [|split].
      * intros k Hk. apply Hnone, deleteSessionLog_None, Hk.
      * intros f k [->|Hf]%elem_of_cons Hfexp Hk.
        -- apply Hnone, deleteSessionLog_artifact, Hk.
        -- eapply Hdel; eassumption.
      * intros k Hk. rewrite Hkeep.
        -- apply deleteSessionLog_other. apply Hk; [left|exact Hexp].
        -- intros f Hf. apply Hk. right. exact Hf.
    + destruct (IH cur cleaned) as (Hn & Hnone & Hdel & Hkeep).
      { intros f Hf He. apply Hsame; auto. right. exact Hf. }
      split; [exact Hn|]. split; [exact Hnone|]. split.
      * intros f k [->|Hf]%elem_of_cons Hfexp Hk; [congruence|].
        eapply Hdel; eassumption.
      * intros k Hk. apply Hkeep. intros f Hf. apply Hk. right. exact Hf.
Qed.

End CleanupLoop.

Lemma expired_file_expired cutoff (fs : gmap string Content) file :
  expired_file cutoff fs file = true -> expired cutoff fs (sessionIdOfFile file).
Proof.
  unfold expired_file, expired. intros [_ H]%andb_prop.
  destruct (loadSessionMeta (sessionIdOfFile file) fs) as [s|]; [|discriminate].
  exists s. split; [reflexivity|]. apply Z.ltb_lt, H.
Qed.

Lemma expired_expired_file cutoff (fs : gmap string Content) sessionId :
  store_names_ok fs = true -> expired cutoff fs sessionId ->
  getSessionMetaPath sessionId ∈ readdirSync fs /\
  expired_file cutoff fs (getSessionMetaPath sessionId) = true /\
  sessionIdOfFile (getSessionMetaPath sessionId) = sessionId.
Proof.
  intros Hok (s & Hl & Hlt).
  destruct (loaded_file fs sessionId s Hok Hl) as (Hin & He & Hid).
  split; [exact Hin|]. split; [|exact Hid].
  unfold expired_file. rewrite He, Hid, Hl. cbn. apply Z.ltb_lt, Hlt.
Qed.

(** C7.  On a directory whose metadata files are named after their session
    ids, cleanup with [daysToKeep] days: (1) removes the metadata and the log
    of every persisted session whose createdAt is below now minus daysToKeep
    days; (2) leaves every file that is not an artifact of such a session as
    it was, in particular both artifacts of every other session; (3) returns
    the number of sessions removed; (4) as a route, leaves the registry of
    resident sessions as it was. *)
Theorem cleanup_removes_expired (now daysToKeep : Z) (fs : gmap string Content)
    (m : PtyManager) :
  store_names_ok fs = true ->
  let cutoff := (now - daysToKeep * MS_PER_DAY)%Z in
  let fs' := fst (cleanupOldLogs now daysToKeep fs) in
  let cleaned := snd (cleanupOldLogs now daysToKeep fs) in
  (forall sessionId,
      expired cutoff fs sessionId ->
      fs' !! getSessionMetaPath sessionId = None /\ fs' !! getSessionLogPath sessionId = None) /\
  (forall file,
      (forall sessionId, expired cutoff fs sessionId -> file ∉ artifacts sessionId) ->
      fs' !! file = fs !! file) /\
  (forall sessionId,
      ~ expired cutoff fs sessionId ->
      fs' !! getSessionMetaPath sessionId = fs !! getSessionMetaPath sessionId /\
      fs' !! getSessionLogPath sessionId = fs !! getSessionLogPath sessionId) /\
  (exists removed : list string,
      NoDup removed /\
      (forall sessionId, sessionId ∈ removed <-> expired cutoff fs sessionId) /\
      cleaned = length removed) /\
  post_cleanup now daysToKeep (m, fs) = (cleaned, (m, fs')).
Proof.
  intros Hok cutoff fs' cleaned.
  assert (Hnames : forall file, file ∈ readdirSync fs -> endsWith file ".json" = true ->
                                getSessionMetaPath (sessionIdOfFile file) = file).
  { intros file Hin He. apply (store_names_ok_spec fs); [exact Hok| |exact He].
    apply elem_of_readdirSync, Hin. }
  destruct (cleanup_loop cutoff fs (readdirSync fs) (NoDup_readdirSync fs) Hnames fs 0)
    as (Hn & _ & Hdel & Hkeep); [reflexivity|].
  change (List.fold_left (cleanup_file cutoff) (readdirSync fs) (fs, 0))
    with (cleanupOldLogs now daysToKeep fs) in Hn, Hdel, Hkeep.
  fold fs' in Hdel, Hkeep. fold cleaned in Hn.
  assert (Hother : forall file,
             (forall sessionId, expired cutoff fs sessionId -> file ∉ artifacts sessionId) ->
             fs' !! file = fs !! file).
  { intros file Hfile. apply Hkeep. intros f _ Hexp.
    apply Hfile, expired_file_expired, Hexp. }
  split; [|split; [exact Hother|split; [|split]]].
  - intros sessionId Hexp.
    destruct (expired_expired_file cutoff fs sessionId Hok Hexp) as (Hin & Hfexp & Hid).
    split; eapply Hdel; try eassumption; rewrite Hid; unfold artifacts.
    + right. left.
    + left.
  - intros sessionId Hnot. split; apply Hother; intros other Hexp; unfold artifacts;
      intros [Heq|[Heq|[]%elem_of_nil]%elem_of_cons]%elem_of_cons.
    + exact (meta_path_is_not_log_path _ _ Heq).
    + apply getSessionMetaPath_inj in Heq. subst other. auto.
    + apply getSessionLogPath_inj in Heq. subst other. auto.
    + symmetry in Heq. exact (meta_path_is_not_log_path _ _ Heq).
  - exists (sessionIdOfFile <$> List.filter (expired_file cutoff fs) (readdirSync fs)).
    split; [|split].
    + apply NoDup_fmap_2_strong.
      * intros f1 f2 Hf1 Hf2 Heq.
        apply list_elem_of_In, List.filter_In in Hf1 as [Hin1 He1].
        apply list_elem_of_In, List.filter_In in Hf2 as [Hin2 He2].
        apply list_elem_of_In in Hin1, Hin2.
        unfold expired_file in He1, He2.
        apply andb_prop in He1 as [He1 _]. apply andb_prop in He2 as [He2 _].
        rewrite <- (Hnames f1 Hin1 He1), <- (Hnames f2 Hin2 He2), Heq. reflexivity.
      * apply NoDup_ListNoDup, List.NoDup_filter, NoDup_ListNoDup, NoDup_readdirSync.
    + intros sessionId. rewrite list_elem_of_fmap. split.
      * intros (f & -> & Hf). apply list_elem_of_In, List.filter_In in Hf as [_ Hf].
        apply expired_file_expired, Hf.
      * intros Hexp.
        destruct (expired_expired_file cutoff fs sessionId Hok Hexp) as (Hin & Hfexp & Hid).
        exists (getSessionMetaPath sessionId). split; [symmetry; exact Hid|].
        apply list_elem_of_In, List.filter_In. split; [apply list_elem_of_In, Hin|exact Hfexp].
    + rewrite Hn, length_fmap. reflexivity.
  - unfold post_cleanup, fs', cleaned. cbn [fst snd].
    destruct (cleanupOldLogs now daysToKeep fs) as [a b]. reflexivity.
Qed.

Lemma cleanup_removes_expired_witness :
  let fs' := fst (cleanupOldLogs sample_now 7 sample_store) in
  fs' !! "session_a1.json" = None /\
  fs' !! "session_a1.log" = None /\
  fs' !! "session_b2.json" = Some (JsonMeta sample_recent) /\
  fs' !! "notes.txt" = Some (RawText "keep").
Proof.
  intros fs'.
  destruct (cleanup_removes_expired sample_now 7 sample_store empty_manager eq_refl)
    as (Hdel & Hother & Hkeep & _ & _).
  assert (Hold : expired (sample_now - 7 * MS_PER_DAY) sample_store "a1").
  { exists sample_old. split; reflexivity. }
  assert (Hrecent : ~ expired (sample_now - 7 * MS_PER_DAY) sample_store "b2").
  { intros (s & Hl & Hlt). vm_compute in Hl. injection Hl as <-. vm_compute in Hlt. discriminate. }
  destruct (Hdel "a1" Hold) as [Hmeta Hlog].
  destruct (Hkeep "b2" Hrecent) as [Hmeta' _].
  split; [exact Hmeta|]. split; [exact Hlog|]. split; [exact (eq_trans Hmeta' eq_refl)|].
  unfold fs'. rewrite Hother; [reflexivity|].
  intros sessionId _ [H|[H|[]%elem_of_nil]%elem_of_cons]%elem_of_cons; discriminate.
Defined.

(** The retention job reads the store only.  The record of a session that is
    still resident and running is deleted like any other once it is old
    enough, and the registry keeps the session. *)
Lemma cleanup_ignores_residency :
  let m := run sample_uuid reliable_pty [(10%Z, CreateSession sample_request)] empty_manager in
  let store := match getSession "a" m with
               | Some s => saveSessionMeta s ∅
               | None => ∅
               end in
  option_map status (getSession "a" m) = Some running /\
  store !! "session_a.json" <> None /\
  post_cleanup sample_now 7 (m, store) = (1, (m, ∅)).
Proof. split; [reflexivity|]. split; [discriminate|]. vm_compute. reflexivity. Qed.

(* ===================================================================== *)
(** * Listing sessions *)
(* ===================================================================== *)

Lemma sort_insert_perm a l : sort_insert a l ≡ₚ a :: l.
Proof.
  induction l as [|b l IH]; cbn; [reflexivity|].
  destruct (stays_before a b); [reflexivity|].
  rewrite IH. apply Permutation_swap.
Qed.

Lemma sort_perm l : sort_by_createdAt_desc l ≡ₚ l.
Proof.
  induction l as [|a l IH]; cbn; [reflexivity|].
  rewrite sort_insert_perm, IH. reflexivity.
Qed.

Lemma sort_insert_sorted a l :
  StronglySorted newer_or_same l -> StronglySorted newer_or_same (sort_insert a l).
Proof.
  induction 1 as [|b l Hsorted IH Hb]; cbn.
  - repeat constructor.
  - unfold stays_before. destruct (Z.leb_spec (createdAt b - createdAt a) 0) as [Hle|Hgt].
    + constructor; [constructor; assumption|].
      constructor; [unfold newer_or_same; lia|].
      eapply Forall_impl; [exact Hb|]. unfold newer_or_same. intros x Hx. cbn in *. lia.
    + constructor; [exact IH|].
      rewrite sort_insert_perm. constructor; [unfold newer_or_same; lia|exact Hb].
Qed.

Lemma sort_sorted l : StronglySorted newer_or_same (sort_by_createdAt_desc l).
Proof.
  induction l as [|a l IH]; cbn; [constructor|]. apply sort_insert_sorted, IH.
Qed.

Lemma collect_saved_omap (fs : gmap string Content) files :
  collect_saved fs files = omap (saved_of_file fs) files.
Proof.
  unfold collect_saved.
  enough (H : forall acc,
             List.fold_left
               (fun sessions file =>
                  if endsWith file ".json" then
                    match loadSessionMeta (sessionIdOfFile file) fs with
                    | Some s => sessions ++ [s]
                    | None => sessions
                    end
                  else sessions) files acc
             = acc ++ omap (saved_of_file fs) files) by apply H.
  induction files as [|file files IH]; intros acc; cbn.
  - rewrite app_nil_r. reflexivity.
  - rewrite IH. unfold saved_of_file at 2.
    destruct (endsWith file ".json"); [|reflexivity].
    destruct (loadSessionMeta (sessionIdOfFile file) fs); [|reflexivity].
    rewrite <- app_assoc. reflexivity.
Qed.

Lemma elem_of_saved (fs : gmap string Content) s :
  store_names_ok fs = true ->
  s ∈ getAllSavedSessions fs <-> exists sessionId, loadSessionMeta sessionId fs = Some s.
Proof.
  intros Hok. unfold getAllSavedSessions.
  rewrite sort_perm, collect_saved_omap, list_elem_of_omap. split.
  - intros (file & _ & Hs). unfold saved_of_file in Hs.
    destruct (endsWith file ".json"); [eauto|discriminate].
  - intros (sessionId & Hl).
    destruct (loaded_file fs sessionId s Hok Hl) as (Hin & He & Hid).
    exists (getSessionMetaPath sessionId). split; [exact Hin|].
    unfold saved_of_file. rewrite He, Hid. exact Hl.
Qed.

Lemma NoDup_saved_ids (fs : gmap string Content) :
  store_names_ok fs = true -> store_ids_ok fs = true ->
  NoDup (id <$> getAllSavedSessions fs).
Proof.
  intros Hnames Hids. unfold getAllSavedSessions.
  rewrite sort_perm, collect_saved_omap.
  pose proof (NoDup_readdirSync fs) as Hnd.
  assert (Hin : forall file, file ∈ readdirSync fs -> is_Some (fs !! file))
    by (intros; apply elem_of_readdirSync; assumption).
  induction (readdirSync fs) as [|file files IH]; cbn; [constructor|].
  apply NoDup_cons in Hnd as [Hnotin Hnd].
  specialize (IH Hnd (fun f Hf => Hin f (list_elem_of_further _ _ _ Hf))).
  destruct (saved_of_file fs file) as [s|] eqn:Hs; [|exact IH].
  cbn. apply NoDup_cons. split; [|exact IH].
  intros (s' & Heq & (file' & Hfile' & Hs')%list_elem_of_omap)%list_elem_of_fmap.
  apply Hnotin. unfold saved_of_file in Hs, Hs'.
  destruct (endsWith file ".json") eqn:He; [|discriminate].
  destruct (endsWith file' ".json") eqn:He'; [|discriminate].
  assert (Hsome : is_Some (fs !! file)) by (apply Hin; left).
  assert (Hsome' : is_Some (fs !! file')) by (apply Hin; right; exact Hfile').
  rewrite <- (store_names_ok_spec fs file Hnames Hsome He).
  rewrite <- (store_ids_ok_spec fs file s Hids Hsome He Hs), Heq.
  rewrite (store_ids_ok_spec fs file' s' Hids Hsome' He' Hs').
  rewrite (store_names_ok_spec fs file' Hnames Hsome' He'). exact Hfile'.
Qed.

Lemma resident_ids m :
  registry_ok m -> id <$> getAllSessions m = fst <$> instances m.
Proof.
  intros [_ Hc _ _]. unfold getAllSessions, instance_values.
  induction (instances m) as [|[k h] entries IH]; [reflexivity|].
  destruct (Hc k h) as (i & Hh & Hid); [left; reflexivity|].
  cbn. rewrite Hh. cbn. rewrite Hid. f_equal.
  apply IH. intros k' h' Hin. apply Hc. right. exact Hin.
Qed.

Lemma NoDup_resident_ids m : registry_ok m -> NoDup (id <$> getAllSessions m).
Proof.
  intros Hok. rewrite (resident_ids m Hok). apply NoDup_ListNoDup. exact (ok_keys m Hok).
Qed.

Lemma elem_of_listed m (fs : gmap string Content) s :
  s ∈ sessions (get_sessions m fs) <->
  s ∈ getAllSessions m \/ (s ∈ getAllSavedSessions fs /\ id s ∉ id <$> getAllSessions m).
Proof.
  unfold get_sessions. cbn [sessions]. rewrite elem_of_app.
  rewrite (list_elem_of_In (List.filter _ _) s), List.filter_In, <- list_elem_of_In.
  rewrite negb_true_iff, bool_decide_eq_false, elem_of_list_to_set. reflexivity.
Qed.

Lemma elem_of_saved_files (fs : gmap string Content) s :
  store_names_ok fs = true -> s ∈ getAllSavedSessions fs <-> persisted_record fs s.
Proof.
  intros Hok. rewrite (elem_of_saved fs s Hok). unfold persisted_record. split.
  - intros (sessionId & Hl). rewrite loadSessionMeta_lookup in Hl.
    destruct (fs !! getSessionMetaPath sessionId) as [[s'|data]|] eqn:E; try discriminate.
    cbn in Hl. injection Hl as ->.
    exists (getSessionMetaPath sessionId). split; [apply meta_path_endsWith_json|exact E].
  - intros (file & He & Hf). exists (sessionIdOfFile file).
    rewrite loadSessionMeta_lookup, (store_names_ok_spec fs file Hok) by eauto.
    rewrite Hf. reflexivity.
Qed.

Lemma elem_of_resident m s :
  registry_ok m -> s ∈ getAllSessions m <-> resident_record m s.
Proof.
  intros [_ Hc _ _]. unfold getAllSessions, instance_values, resident_record.
  rewrite list_elem_of_In, List.in_map_iff. split.
  - intros (i & <- & Hi). apply list_elem_of_In, list_elem_of_omap in Hi as ([k h] & He & Hh).
    cbn in Hh. apply list_elem_of_In in He.
    destruct (Hc k h He) as (i' & Hh' & Hid).
    assert (i' = i) as -> by congruence.
    exists h, i. rewrite Hid. auto.
  - intros (h & i & He & Hh & <-). exists i. split; [reflexivity|].
    apply list_elem_of_In, list_elem_of_omap. exists (id (session i), h).
    split; [apply list_elem_of_In, He|exact Hh].
Qed.

Lemma resident_id_spec m k :
  registry_ok m -> k ∈ id <$> getAllSessions m <-> resident_id m k.
Proof.
  intros Hok. rewrite (resident_ids m Hok), list_elem_of_fmap. unfold resident_id. split.
  - intros ([k' h] & -> & He). exists h. apply list_elem_of_In, He.
  - intros (h & He). exists (k, h). split; [reflexivity|apply list_elem_of_In, He].
Qed.

Section Listing.
Context (uuidv4 : nat -> string) (backend : NodePty).

(** C8.  On a directory written by the persistence layer: (1)
    getAllSavedSessions is sorted by createdAt, newest first; (2) it holds
    exactly the records that the metadata files of the directory hold, one
    per session id, and skips the files that do not parse.  On every
    reachable registry, the list of the session-list route (3) holds exactly
    the sessions that the registry holds under their ids and the records on
    disk whose id has no entry in the registry, (4) has no id twice, and (5)
    shows, for a resident id, the in-memory record. *)
Theorem session_listing (trace : list (Z * Op)) (fs : gmap string Content) :
  store_names_ok fs = true -> store_ids_ok fs = true -> store_records_ok fs = true ->
  let m := run uuidv4 backend trace empty_manager in
  let saved := getAllSavedSessions fs in
  let listed := sessions (get_sessions m fs) in
  StronglySorted newer_or_same saved /\
  (forall s, s ∈ saved <-> persisted_record fs s) /\
  NoDup (id <$> saved) /\
  (forall s, s ∈ listed <->
             resident_record m s \/ (persisted_record fs s /\ ~ resident_id m (id s))) /\
  NoDup (id <$> listed) /\
  (forall a s, resident_record m a -> s ∈ listed -> id s = id a -> s = a).
Proof.
  intros Hnames Hids _ m saved listed.
  assert (Hok : registry_ok m) by (apply run_ok, empty_manager_ok).
  assert (Hlisted : NoDup (id <$> listed)).
  { unfold listed, get_sessions. cbn [sessions]. rewrite fmap_app. apply NoDup_app.
    split; [apply NoDup_resident_ids, Hok|]. split.
    - intros k Hk (s & -> & Hs)%list_elem_of_fmap.
      apply list_elem_of_In, List.filter_In in Hs as [_ Hs].
      apply negb_true_iff, bool_decide_eq_false in Hs. apply Hs, elem_of_list_to_set, Hk.
    - eapply (sublist_NoDup _ (id <$> getAllSavedSessions fs));
        [apply (NoDup_saved_ids fs Hnames Hids)|].
      apply fmap_sublist. clear. induction (getAllSavedSessions fs) as [|s l IH]; cbn.
      + constructor.
      + destruct (negb _); constructor; exact IH. }
  assert (Hmem : forall s, s ∈ listed <->
                 resident_record m s \/ (persisted_record fs s /\ ~ resident_id m (id s))).
  { intros s. unfold listed. rewrite elem_of_listed.
    rewrite (elem_of_resident m s Hok), (elem_of_saved_files fs s Hnames).
    rewrite (resident_id_spec m (id s) Hok). reflexivity. }
  split; [apply sort_sorted|]. split; [intros s; apply elem_of_saved_files, Hnames|].
  split; [apply NoDup_saved_ids; assumption|].
  split; [exact Hmem|]. split; [exact Hlisted|].
  intros a s Ha Hs Heq.
  assert (Ha' : a ∈ listed) by (apply Hmem; left; exact Ha).
  apply list_elem_of_lookup in Ha' as [j Hj]. apply list_elem_of_lookup in Hs as [k Hk].
  assert (j = k) as ->; [|congruence].
  eapply NoDup_lookup; [exact Hlisted| |]; rewrite list_lookup_fmap.
  - rewrite Hj. reflexivity.
  - rewrite Hk. cbn. rewrite Heq. reflexivity.
Qed.

End Listing.

Lemma session_listing_witness :
  let m := run sample_uuid reliable_pty [(10%Z, CreateSession sample_request)] empty_manager in
  let listed := sessions (get_sessions m sample_listing_store) in
  sample_resident ∈ listed /\ sample_old ∈ listed /\ (sample_stale ∉ listed) /\
  sample_stale ∈ getAllSavedSessions sample_listing_store /\
  listed = [sample_resident; sample_recent; sample_old] /\
  getAllSavedSessions sample_listing_store = [sample_recent; sample_old; sample_stale].
Proof.
  intros m listed.
  destruct (session_listing sample_uuid reliable_pty [(10%Z, CreateSession sample_request)]
              sample_listing_store eq_refl eq_refl eq_refl)
    as (_ & Hsaved & _ & Hlisted & _ & Hfirst).
  assert (Hres : resident_record m sample_resident).
  { exists 0, (mkInstance (mkPty [] [] false false) sample_resident []).
    split; [left; reflexivity|]. split; reflexivity. }
  split; [apply Hlisted; left; exact Hres|]. split; [|split; [|split; [|split]]].
  - apply Hlisted. right. split.
    + exists "session_a1.json". split; reflexivity.
    + intros [h [Hin|[]]]. discriminate.
  - intros Hin. specialize (Hfirst sample_resident sample_stale Hres Hin eq_refl). discriminate.
  - apply Hsaved. exists "session_a.json". split; reflexivity.
  - reflexivity.
  - reflexivity.
Defined.

(* ===================================================================== *)
(** * Further properties of the registry *)
(* ===================================================================== *)

Lemma map_get_delete_eq {V} k (entries : list (string * V)) :
  map_get k (map_delete k entries) = None.
Proof.
  induction entries as [|[k' v] entries IH]; [reflexivity|].
  unfold map_delete in *. cbn. destruct (String.eqb k k') eqn:E; cbn; [exact IH|].
  rewrite E. exact IH.
Qed.

Lemma map_get_delete_ne {V} k other (entries : list (string * V)) :
  other <> k -> map_get other (map_delete k entries) = map_get other entries.
Proof.
  intros Hne. induction entries as [|[k' v] entries IH]; [reflexivity|].
  unfold map_delete in *. cbn. destruct (String.eqb k k') eqn:E; cbn.
  - apply String.eqb_eq in E. subst k'.
    destruct (String.eqb_spec other k); [contradiction|exact IH].
  - destruct (String.eqb other k'); [reflexivity|exact IH].
Qed.

Lemma map_get_set_ne {V} k other (v : V) entries :
  other <> k -> map_get other (map_set k v entries) = map_get other entries.
Proof.
  intros Hne. induction entries as [|[k' v'] entries IH]; cbn.
  - destruct (String.eqb_spec other k); [contradiction|reflexivity].
  - destruct (String.eqb_spec k k') as [<-|Hk]; cbn.
    + destruct (String.eqb_spec other k); [contradiction|reflexivity].
    + destruct (String.eqb other k'); [reflexivity|exact IH].
Qed.

Lemma map_get_In {V} k (v : V) entries : map_get k entries = Some v -> List.In (k, v) entries.
Proof.
  induction entries as [|[k' v'] entries IH]; cbn; [discriminate|].
  destruct (String.eqb_spec k k') as [<-|_]; [intros [= ->]; left; reflexivity|].
  intros H. right. auto.
Qed.

Lemma map_get_NoDup {V} k (v : V) entries :
  List.NoDup (List.map fst entries) -> List.In (k, v) entries -> map_get k entries = Some v.
Proof.
  induction entries as [|[k' v'] entries IH]; cbn; [intros _ []|].
  intros Hnd [[= -> ->]|Hin]; [rewrite String.eqb_refl; reflexivity|].
  inversion Hnd as [|? ? Hnotin Hnd']; subst.
  destruct (String.eqb_spec k k') as [<-|_]; [|auto].
  destruct Hnotin. apply List.in_map_iff. exists (k, v). auto.
Qed.

Lemma getSession_None sessionId m :
  getSession sessionId m = None <-> get_instance sessionId m = None.
Proof.
  unfold getSession. destruct (get_instance sessionId m) as [[h i]|]; cbn; split; congruence.
Qed.

Lemma getSession_Some sessionId m s :
  getSession sessionId m = Some s <->
  exists h i, get_instance sessionId m = Some (h, i) /\ session i = s.
Proof.
  unfold getSession. destruct (get_instance sessionId m) as [[h i]|]; cbn; split.
  - intros [= <-]. eauto.
  - intros (h' & i' & [= <- <-] & <-). reflexivity.
  - discriminate.
  - intros (? & ? & ? & _). discriminate.
Qed.

Lemma get_instance_intro sessionId m h i :
  map_get sessionId (instances m) = Some h -> heap m !! h = Some i ->
  get_instance sessionId m = Some (h, i).
Proof. intros Hm Hh. unfold get_instance. rewrite Hm, Hh. reflexivity. Qed.

(** The cells of two different resident ids are different cells. *)
Lemma resident_cells_differ m a b ha hb ia ib :
  registry_ok m -> get_instance a m = Some (ha, ia) -> get_instance b m = Some (hb, ib) ->
  a <> b -> ha <> hb.
Proof.
  intros Hok Ga Gb Hne ->.
  apply get_instance_Some in Ga as [Ma Ha]. apply get_instance_Some in Gb as [Mb Hb].
  destruct (ok_cells m Hok a hb (map_get_In _ _ _ Ma)) as (i & Hi & Hid).
  destruct (ok_cells m Hok b hb (map_get_In _ _ _ Mb)) as (i' & Hi' & Hid').
  congruence.
Qed.

Lemma is_running_mark_killed now i : is_running (mark_killed now i) = false.
Proof. reflexivity. Qed.

Section RegistryExtras.
Context (uuidv4 : nat -> string) (backend : NodePty).

(** What a successful [killSession] leaves behind. *)
Lemma killSession_true now sessionId m :
  fst (killSession backend now sessionId m) = true ->
  exists h i, get_instance sessionId (snd (killSession backend now sessionId m)) = Some (h, i) /\
              is_running i = false.
Proof.
  unfold killSession. destruct (get_instance sessionId m) as [[h i]|] eqn:G; [|discriminate].
  destruct (is_running i) eqn:R.
  - destruct (kill_throws backend (pty i)); [discriminate|]. intros _. cbn.
    apply get_instance_Some in G as [Gm Gh].
    exists h, (mark_killed now i). split; [|reflexivity].
    apply get_instance_intro; [exact Gm|]. cbn.
    apply list_lookup_insert_eq. eapply lookup_lt_Some; exact Gh.
  - intros _. cbn. eauto.
Qed.

(** X1.  After a killSession that answered true the session is not running,
    and a second killSession on the same id answers true and changes
    nothing. *)
Theorem killSession_idempotent (now now' : Z) (sessionId : string) (m : PtyManager) :
  fst (killSession backend now sessionId m) = true ->
  let m' := snd (killSession backend now sessionId m) in
  option_map status (getSession sessionId m') <> Some running /\
  killSession backend now' sessionId m' = (true, m').
Proof.
  intros Hok m'. destruct (killSession_true now sessionId m Hok) as (h & i & G & R).
  fold m' in G. split.
  - unfold getSession. rewrite G. cbn. unfold is_running in R.
    intros [= Hs]. rewrite Hs in R. discriminate.
  - eapply killSession_terminal_noop; eassumption.
Qed.

(** X2.  On every reachable registry, removeSession of an id that is not
    resident answers false and changes nothing; for a resident id it answers
    true, the id is no longer resident (no session, no output), and every
    other id keeps its session and its output. *)
Theorem removeSession_forgets (trace : list (Z * Op)) (now : Z) (sessionId : string) :
  let m := run uuidv4 backend trace empty_manager in
  let m' := snd (removeSession backend now sessionId m) in
  (getSession sessionId m = None -> removeSession backend now sessionId m = (false, m)) /\
  (is_Some (getSession sessionId m) ->
   fst (removeSession backend now sessionId m) = true /\
   getSession sessionId m' = None /\
   getSessionOutput sessionId m' = "" /\
   forall other, other <> sessionId ->
                 getSession other m' = getSession other m /\
                 getSessionOutput other m' = getSessionOutput other m).
Proof.
  intros m m'.
  assert (Hok : registry_ok m) by (apply run_ok, empty_manager_ok).
  split.
  - intros Hnone. apply getSession_None in Hnone. unfold removeSession. rewrite Hnone. reflexivity.
  - intros [s Hs]. apply getSession_Some in Hs as (h & i & G & _).
    assert (Hinst : instances m' = map_delete sessionId (instances m)).
    { unfold m', removeSession. rewrite G. cbn.
      destruct (is_running i); [|reflexivity].
      destruct (killSession_evolves backend now sessionId m) as [_ ->]. reflexivity. }
    assert (Hgone : get_instance sessionId m' = None).
    { unfold get_instance. rewrite Hinst, map_get_delete_eq. reflexivity. }
    assert (Hothers : forall other, other <> sessionId ->
                                    get_instance other m' = get_instance other m).
    { intros other Hne. unfold get_instance at 1. rewrite Hinst, map_get_delete_ne by exact Hne.
      destruct (map_get other (instances m)) as [h'|] eqn:Mo;
        [|unfold get_instance; rewrite Mo; reflexivity].
      destruct (ok_cells m Hok other h' (map_get_In _ _ _ Mo)) as (i' & Hi' & _).
      assert (Go : get_instance other m = Some (h', i')) by (apply get_instance_intro; assumption).
      rewrite Go.
      assert (Hh : h' <> h) by (eapply resident_cells_differ; eassumption).
      assert (Hheap : heap m' !! h' = heap m !! h').
      { unfold m', removeSession. rewrite G. cbn. destruct (is_running i) eqn:R; [|reflexivity].
        cbn. unfold killSession. rewrite G, R.
        destruct (kill_throws backend (pty i)); [reflexivity|]. cbn.
        apply list_lookup_insert_ne. congruence. }
      rewrite Hheap, Hi'. reflexivity. }
    split; [unfold removeSession; rewrite G; reflexivity|].
    split; [apply getSession_None, Hgone|].
    split; [unfold getSessionOutput; rewrite Hgone; reflexivity|].
    intros other Hne. unfold getSession, getSessionOutput.
    rewrite (Hothers other Hne). split; reflexivity.
Qed.

End RegistryExtras.

Lemma killSession_idempotent_witness :
  let m := run sample_uuid reliable_pty [(10%Z, CreateSession sample_request)] empty_manager in
  let m' := snd (killSession reliable_pty 20 "a" m) in
  killSession reliable_pty 30 "a" m' = (true, m').
Proof.
  intros m m'.
  apply (killSession_idempotent reliable_pty 20 30 "a" m). reflexivity.
Defined.

Lemma removeSession_forgets_witness :
  let m := run sample_uuid reliable_pty
               [(10%Z, CreateSession sample_request); (11%Z, CreateSession sample_request)]
               empty_manager in
  removeSession reliable_pty 20 "zz" m = (false, m) /\
  getSession "a" (snd (removeSession reliable_pty 20 "a" m)) = None /\
  getSession "b" (snd (removeSession reliable_pty 20 "a" m)) = getSession "b" m.
Proof.
  intros m.
  destruct (removeSession_forgets sample_uuid reliable_pty
              [(10%Z, CreateSession sample_request); (11%Z, CreateSession sample_request)]
              20 "zz") as [Hnone _].
  destruct (removeSession_forgets sample_uuid reliable_pty
              [(10%Z, CreateSession sample_request); (11%Z, CreateSession sample_request)]
              20 "a") as [_ Hsome].
  split; [apply Hnone; reflexivity|].
  destruct Hsome as (_ & Hgone & _ & Hother); [eexists; reflexivity|].
  split; [exact Hgone|]. apply Hother. discriminate.
Defined.

Lemma instance_values_cons m (e : string * nat) entries :
  omap (fun e => heap m !! snd e) (e :: entries) =
  match heap m !! snd e with
  | Some i => i :: omap (fun e => heap m !! snd e) entries
  | None => omap (fun e => heap m !! snd e) entries
  end.
Proof. reflexivity. Qed.

Lemma values_length m (entries : list (string * nat)) :
  (forall e, List.In e entries -> is_Some (heap m !! snd e)) ->
  length (omap (fun e => heap m !! snd e) entries) = length entries.
Proof.
  induction entries as [|e entries IH]; intros H; [reflexivity|].
  rewrite instance_values_cons. destruct (H e) as [i ->]; [left; reflexivity|].
  cbn [length]. rewrite IH; [reflexivity|]. intros e' He'. apply H. right. exact He'.
Qed.

Lemma values_of_running_entries m (entries : list (string * nat)) :
  (forall e, List.In e entries -> is_Some (heap m !! snd e)) ->
  omap (fun e => heap m !! snd e) (List.filter (entry_running m) entries) =
  List.filter is_running (omap (fun e => heap m !! snd e) entries).
Proof.
  induction entries as [|e entries IH]; intros H; [reflexivity|].
  rewrite instance_values_cons. cbn [List.filter]. unfold entry_running at 1.
  destruct (H e) as [i Hi]; [left; reflexivity|]. rewrite Hi.
  specialize (IH (fun e' He' => H e' (or_intror He'))).
  cbn [List.filter]. destruct (is_running i).
  - rewrite instance_values_cons, Hi, IH. reflexivity.
  - exact IH.
Qed.

Lemma filter_sessions (l : list PtyInstance) :
  List.filter (fun s => Status_eqb (status s) running) (List.map session l) =
  List.map session (List.filter is_running l).
Proof.
  induction l as [|i l IH]; [reflexivity|].
  cbn [List.map List.filter]. unfold is_running at 1.
  destruct (Status_eqb (status (session i)) running); cbn [List.map]; rewrite IH; reflexivity.
Qed.

Lemma filter_idempotent {A} (f : A -> bool) (l : list A) :
  List.filter f (List.filter f l) = List.filter f l.
Proof.
  induction l as [|x l IH]; [reflexivity|].
  cbn [List.filter]. destruct (f x) eqn:E; cbn [List.filter]; rewrite ?E, IH; reflexivity.
Qed.

Section RegistryListing.
Context (uuidv4 : nat -> string) (backend : NodePty).

(** X6.  On every reachable registry: a lookup by id gives a session that
    carries that id and that getAllSessions lists; every listed session is
    what a lookup by its own id gives; no two listed sessions share an id;
    and the active count never exceeds the number of listed sessions. *)
Theorem sessions_are_keyed_by_id (trace : list (Z * Op)) :
  let m := run uuidv4 backend trace empty_manager in
  (forall sessionId s, getSession sessionId m = Some s ->
                       id s = sessionId /\ s ∈ getAllSessions m) /\
  (forall s, s ∈ getAllSessions m -> getSession (id s) m = Some s) /\
  NoDup (id <$> getAllSessions m) /\
  getActiveSessionCount m <= length (getAllSessions m).
Proof.
  intros m.
  assert (Hok : registry_ok m) by (apply run_ok, empty_manager_ok).
  assert (Hlisted : forall s, s ∈ getAllSessions m <->
                              exists k h i, List.In (k, h) (instances m) /\
                                            heap m !! h = Some i /\ session i = s).
  { intros s. unfold getAllSessions, instance_values.
    rewrite list_elem_of_In, List.in_map_iff. split.
    - intros (i & <- & Hin). apply list_elem_of_In, list_elem_of_omap in Hin as ([k h] & Hin & Hh).
      exists k, h, i. split; [apply list_elem_of_In, Hin|auto].
    - intros (k & h & i & Hin & Hh & <-). exists i. split; [reflexivity|].
      apply list_elem_of_In, list_elem_of_omap. exists (k, h).
      split; [apply list_elem_of_In, Hin|exact Hh]. }
  split; [|split; [|split]].
  - intros sessionId s Hs. apply getSession_Some in Hs as (h & i & G & <-).
    apply get_instance_Some in G as [Gm Gh]. apply map_get_In in Gm.
    destruct (ok_cells m Hok sessionId h Gm) as (i' & Hi' & Hid).
    assert (i' = i) as -> by congruence.
    split; [exact Hid|]. apply Hlisted. eauto 6.
  - intros s (k & h & i & Hin & Hh & <-)%Hlisted.
    destruct (ok_cells m Hok k h Hin) as (i' & Hi' & Hid).
    assert (i' = i) as -> by congruence. rewrite Hid.
    apply getSession_Some. exists h, i. split; [|reflexivity].
    apply get_instance_intro; [|exact Hh].
    apply map_get_NoDup; [exact (ok_keys m Hok)|exact Hin].
  - apply NoDup_resident_ids, Hok.
  - unfold getActiveSessionCount, getAllSessions. rewrite length_map.
    apply List.filter_length_le.
Qed.

(** X5.  createSession answers with a session exactly when there is capacity
    and the spawn does not raise.  On a reachable registry the session it
    answers with is the new running record under the next id of the
    generator, a lookup by that id gives it back with no output yet, one id
    has been drawn, and every other id keeps its session. *)
Theorem createSession_registers (trace : list (Z * Op)) (now : Z)
    (request : CreateSessionRequest) :
  let m := run uuidv4 backend trace empty_manager in
  (is_Some (fst (createSession uuidv4 backend now request m)) <->
   canCreateSession m = true /\ spawn_throws backend (req_cwd request) = false) /\
  (forall s m',
      createSession uuidv4 backend now request m = (Some s, m') ->
      s = new_session (uuidv4 (uuids m)) now request /\
      getSession (id s) m' = Some s /\
      getSessionOutput (id s) m' = "" /\
      uuids m' = S (uuids m) /\
      forall other, other <> id s -> getSession other m' = getSession other m).
Proof.
  intros m.
  assert (Hok : registry_ok m) by (apply run_ok, empty_manager_ok).
  unfold createSession. split.
  - destruct (canCreateSession m); cbn.
    + destruct (spawn_throws backend (req_cwd request)); cbn; split.
      * intros [? ?]. discriminate.
      * intros [_ ?]. discriminate.
      * eauto.
      * eauto.
    + split; [intros [? ?]; discriminate|intros [? _]; discriminate].
  - intros s m'. destruct (negb (canCreateSession m)); [discriminate|].
    destruct (spawn_throws backend (req_cwd request)); [discriminate|].
    intros [= <- <-]. cbn [id new_session].
    assert (Hnew : get_instance (uuidv4 (uuids m))
                     (mkManager (heap m ++ [mkInstance (mkPty [] [] false false)
                                                        (new_session (uuidv4 (uuids m)) now request) []])
                                (map_set (uuidv4 (uuids m)) (length (heap m)) (instances m))
                                (timers m ++ [(length (heap m), request)]) (emitted m)
                                (S (uuids m)))
                   = Some (length (heap m),
                           mkInstance (mkPty [] [] false false)
                                      (new_session (uuidv4 (uuids m)) now request) [])).
    { apply get_instance_intro; cbn; [apply map_get_set|].
      apply list_lookup_middle. reflexivity. }
    split; [reflexivity|]. split; [unfold getSession; rewrite Hnew; reflexivity|].
    split; [unfold getSessionOutput; rewrite Hnew; reflexivity|].
    split; [reflexivity|].
    intros other Hne. unfold getSession, get_instance. cbn [instances heap].
    rewrite map_get_set_ne by exact Hne.
    destruct (map_get other (instances m)) as [h|] eqn:Mo; [|reflexivity].
    destruct (ok_cells m Hok other h (map_get_In _ _ _ Mo)) as (i & Hi & _).
    rewrite lookup_app_l by (eapply lookup_lt_Some; exact Hi). reflexivity.
Qed.

(** X3.  On every reachable registry, cleanupCompletedSessions keeps exactly
    the running sessions, in their order, returns the number of sessions it
    dropped, and changes neither the active count nor any session object. *)
Theorem cleanupCompletedSessions_keeps_running (trace : list (Z * Op)) :
  let m := run uuidv4 backend trace empty_manager in
  let cleaned := fst (cleanupCompletedSessions m) in
  let m' := snd (cleanupCompletedSessions m) in
  getAllSessions m' =
    List.filter (fun s => Status_eqb (status s) running) (getAllSessions m) /\
  cleaned + length (getAllSessions m') = length (getAllSessions m) /\
  getActiveSessionCount m' = getActiveSessionCount m /\
  heap m' = heap m.
Proof.
  intros m cleaned m'.
  assert (Hok : registry_ok m) by (apply run_ok, empty_manager_ok).
  assert (Hvalid : forall e, List.In e (instances m) -> is_Some (heap m !! snd e)).
  { intros [k h] Hin. destruct (ok_cells m Hok k h Hin) as (i & Hi & _). cbn. eauto. }
  assert (Hkept : getAllSessions m' =
                  List.filter (fun s => Status_eqb (status s) running) (getAllSessions m)).
  { unfold m', getAllSessions, instance_values. cbn [snd cleanupCompletedSessions heap instances
                                                       set_instances].
    rewrite (values_of_running_entries m (instances m) Hvalid).
    symmetry. apply filter_sessions. }
  split; [exact Hkept|]. split; [|split; [|reflexivity]].
  - unfold cleaned. cbn [fst cleanupCompletedSessions].
    assert (Hlen : length (getAllSessions m) = length (instances m)).
    { unfold getAllSessions, instance_values. rewrite length_map.
      apply values_length, Hvalid. }
    assert (Hlen' : length (getAllSessions m') =
                    length (List.filter (entry_running m) (instances m))).
    { unfold m', getAllSessions, instance_values.
      cbn [snd cleanupCompletedSessions heap instances set_instances].
      rewrite length_map. apply values_length.
      intros e He. apply List.filter_In in He as [He _]. apply Hvalid, He. }
    rewrite Hlen, Hlen'.
    pose proof (List.filter_length_le (entry_running m) (instances m)). lia.
  - unfold getActiveSessionCount, m', instance_values.
    cbn [snd cleanupCompletedSessions heap instances set_instances].
    rewrite (values_of_running_entries m (instances m) Hvalid).
    rewrite filter_idempotent. reflexivity.
Qed.

End RegistryListing.

Lemma createSession_registers_witness :
  let created := createSession sample_uuid reliable_pty 10 sample_request empty_manager in
  exists s, fst created = Some s /\
            status s = running /\
            getSession "a" (snd created) = Some s.
Proof.
  intros created.
  destruct (createSession_registers sample_uuid reliable_pty [] 10 sample_request) as [Hiff Hs].
  destruct (proj2 Hiff (conj eq_refl eq_refl)) as [s Hfst].
  destruct (Hs s (snd created)) as (-> & Hget & _).
  { unfold created in *. cbn [run List.fold_left] in *.
    destruct (createSession sample_uuid reliable_pty 10 sample_request empty_manager) as [r m'].
    cbn in Hfst. subst r. reflexivity. }
  exists (new_session (sample_uuid (uuids empty_manager)) 10 sample_request).
  split; [exact Hfst|]. split; [reflexivity|exact Hget].
Defined.

Section Shutdown.
Context (backend : NodePty).

Lemma kills_stop_cell now (entries : list (string * nat)) :
  (forall p, kill_throws backend p = false) ->
  forall acc k h i,
    List.In (k, h) entries ->
    get_instance k acc = Some (h, i) ->
    let acc' := List.fold_left (fun a e => snd (killSession backend now (fst e) a)) entries acc in
    exists i', heap acc' !! h = Some i' /\ is_running i' = false /\
               id (session i') = id (session i).
Proof.
  intros Hkill. induction entries as [|e entries IH]; intros acc k h i Hin G; [destruct Hin|].
  cbn [List.fold_left]. set (acc1 := snd (killSession backend now (fst e) acc)).
  destruct (killSession_evolves backend now (fst e) acc) as [Hev Hinst].
  fold acc1 in Hev, Hinst.
  destruct Hin as [->|Hin].
  - cbn [fst] in *.
    assert (H1 : exists i1, heap acc1 !! h = Some i1 /\ is_running i1 = false /\
                            id (session i1) = id (session i)).
    { unfold acc1, killSession. rewrite G. apply get_instance_Some in G as [_ Gh].
      destruct (is_running i) eqn:R; [rewrite Hkill|]; cbn.
      - exists (mark_killed now i). split; [|split; reflexivity].
        apply list_lookup_insert_eq. eapply lookup_lt_Some; exact Gh.
      - exists i. auto. }
    destruct H1 as (i1 & Hi1 & R1 & Hid1).
    destruct (shutdown_kills_evolve backend now entries acc1) as [Hev' _].
    apply heap_quiet_evolves in Hev' as [_ Hev'].
    destruct (Hev' h i1 Hi1) as (i' & Hi' & Hsteps).
    exists i'. split; [exact Hi'|]. split.
    + destruct (is_running i') eqn:R'; [|reflexivity].
      rewrite (cell_steps_running _ _ Hsteps R') in R1. discriminate.
    + rewrite (cell_steps_id _ _ Hsteps). exact Hid1.
  - apply get_instance_Some in G as [Gm Gh].
    apply heap_quiet_evolves in Hev as [_ Hev].
    destruct (Hev h i Gh) as (i1 & Hi1 & Hsteps).
    destruct (IH acc1 k h i1 Hin) as (i' & Hi' & R' & Hid').
    { apply get_instance_intro; [rewrite Hinst; exact Gm|exact Hi1]. }
    exists i'. split; [exact Hi'|]. split; [exact R'|].
    rewrite Hid'. apply cell_steps_id, Hsteps.
Qed.

(** X4.  After shutdown no session is resident: the list is empty, every
    lookup fails, the active count is zero and a new session is admitted.
    When kill does not raise, every session that was resident is no longer
    running. *)
Theorem shutdown_clears_registry (now : Z) (m : PtyManager) :
  let m' := shutdown backend now m in
  getAllSessions m' = [] /\
  (forall sessionId, getSession sessionId m' = None) /\
  getActiveSessionCount m' = 0 /\
  canCreateSession m' = true /\
  ((forall p, kill_throws backend p = false) ->
   forall sessionId h i,
     get_instance sessionId m = Some (h, i) ->
     exists i', heap m' !! h = Some i' /\ is_running i' = false /\
                id (session i') = id (session i)).
Proof.
  intros m'. split; [reflexivity|]. split; [reflexivity|]. split; [reflexivity|].
  split; [reflexivity|].
  intros Hkill sessionId h i G.
  pose proof (get_instance_Some _ _ _ _ G) as [Gm _].
  exact (kills_stop_cell now (instances m) Hkill m sessionId h i (map_get_In _ _ _ Gm) G).
Qed.

End Shutdown.

Lemma shutdown_clears_registry_witness :
  let m := run sample_uuid reliable_pty five_creates empty_manager in
  exists i', heap (shutdown reliable_pty 99 m) !! 2 = Some i' /\ is_running i' = false.
Proof.
  intros m.
  destruct (shutdown_clears_registry reliable_pty 99 m) as (_ & _ & _ & _ & Hstop).
  edestruct (Hstop (fun _ => eq_refl) "c" 2) as (i' & Hi' & Hr & _); [reflexivity|].
  exists i'. split; assumption.
Defined.

Lemma sessions_are_keyed_by_id_witness :
  let m := run sample_uuid reliable_pty five_creates empty_manager in
  exists s, getSession "c" m = Some s /\ id s = "c" /\ s ∈ getAllSessions m.
Proof.
  intros m.
  destruct (sessions_are_keyed_by_id sample_uuid reliable_pty five_creates) as (Hkey & _).
  eexists. split; [reflexivity|]. apply Hkey. reflexivity.
Defined.

(* ===================================================================== *)
(** * Further properties of the persistence layer *)
(* ===================================================================== *)

Lemma append_empty_r (a : string) : a +:+ "" = a.
Proof.
  induction a as [|c a IH]; [reflexivity|]. rewrite append_cons, IH. reflexivity.
Qed.

Lemma join_app (l1 l2 : list string) : join (l1 ++ l2) = join l1 +:+ join l2.
Proof.
  induction l1 as [|x l1 IH]; [reflexivity|].
  cbn [app]. change (join (x :: l1 ++ l2)) with (x +:+ join (l1 ++ l2)).
  change (join (x :: l1)) with (x +:+ join l1). rewrite IH, append_assoc. reflexivity.
Qed.

Lemma loaded_id (fs : gmap string Content) sessionId s :
  store_names_ok fs = true -> store_ids_ok fs = true ->
  loadSessionMeta sessionId fs = Some s -> id s = sessionId.
Proof.
  intros Hnames Hids Hl.
  destruct (loaded_file fs sessionId s Hnames Hl) as (Hin & He & Hid).
  transitivity (sessionIdOfFile (getSessionMetaPath sessionId)); [|exact Hid].
  apply (store_ids_ok_spec fs); [exact Hids|apply elem_of_readdirSync, Hin|exact He|].
  rewrite Hid. exact Hl.
Qed.

Section LogFacts.
Context (JSON_stringify : TerminalSession -> string).

Lemma readSessionLog_lookup sessionId (fs : gmap string Content) :
  readSessionLog JSON_stringify sessionId fs =
  match fs !! getSessionLogPath sessionId with
  | Some c => readFileSync JSON_stringify c
  | None => ""
  end.
Proof.
  unfold readSessionLog, existsSync.
  destruct (fs !! getSessionLogPath sessionId) as [c|] eqn:E.
  - rewrite bool_decide_eq_true_2 by eauto. reflexivity.
  - rewrite bool_decide_eq_false_2; [reflexivity|]. intros [? ?]. discriminate.
Qed.

Lemma appendFileSync_lookup path data (fs : gmap string Content) k :
  appendFileSync JSON_stringify path data fs !! k =
  if decide (path = k)
  then Some (RawText (match fs !! path with
                      | Some c => readFileSync JSON_stringify c +:+ data
                      | None => data
                      end))
  else fs !! k.
Proof.
  unfold appendFileSync. destruct (fs !! path) as [c|] eqn:E; rewrite lookup_insert;
    destruct (decide (path = k)); reflexivity.
Qed.

Lemma loadSessionMeta_save_eq s (fs : gmap string Content) :
  loadSessionMeta (id s) (saveSessionMeta s fs) = Some s.
Proof. unfold saveSessionMeta. rewrite loadSessionMeta_lookup, lookup_insert_eq. reflexivity. Qed.

Lemma loadSessionMeta_save_ne s (fs : gmap string Content) other :
  other <> id s -> loadSessionMeta other (saveSessionMeta s fs) = loadSessionMeta other fs.
Proof.
  intros Hne. unfold saveSessionMeta.
  rewrite !loadSessionMeta_lookup, lookup_insert_ne; [reflexivity|].
  intros H. apply getSessionMetaPath_inj in H. congruence.
Qed.

Lemma readSessionLog_save s (fs : gmap string Content) sessionId :
  readSessionLog JSON_stringify sessionId (saveSessionMeta s fs)
  = readSessionLog JSON_stringify sessionId fs.
Proof.
  unfold saveSessionMeta. rewrite !readSessionLog_lookup, lookup_insert_ne; [reflexivity|].
  apply meta_path_is_not_log_path.
Qed.

Lemma readSessionLog_append_eq sessionId data (fs : gmap string Content) :
  readSessionLog JSON_stringify sessionId (appendSessionLog JSON_stringify sessionId data fs)
  = readSessionLog JSON_stringify sessionId fs +:+ data.
Proof.
  rewrite !readSessionLog_lookup. unfold appendSessionLog.
  rewrite appendFileSync_lookup. rewrite decide_True by reflexivity.
  destruct (fs !! getSessionLogPath sessionId); reflexivity.
Qed.

Lemma readSessionLog_append_ne sessionId data (fs : gmap string Content) other :
  other <> sessionId ->
  readSessionLog JSON_stringify other (appendSessionLog JSON_stringify sessionId data fs)
  = readSessionLog JSON_stringify other fs.
Proof.
  intros Hne. rewrite !readSessionLog_lookup. unfold appendSessionLog.
  rewrite appendFileSync_lookup. rewrite decide_False; [reflexivity|].
  intros H. apply getSessionLogPath_inj in H. congruence.
Qed.

Lemma loadSessionMeta_append sessionId data (fs : gmap string Content) other :
  loadSessionMeta other (appendSessionLog JSON_stringify sessionId data fs)
  = loadSessionMeta other fs.
Proof.
  rewrite !loadSessionMeta_lookup. unfold appendSessionLog.
  rewrite appendFileSync_lookup. rewrite decide_False; [reflexivity|].
  intros H. symmetry in H. exact (meta_path_is_not_log_path _ _ H).
Qed.

Lemma loadSessionMeta_delete_eq sessionId (fs : gmap string Content) :
  loadSessionMeta sessionId (deleteSessionLog sessionId fs) = None.
Proof.
  rewrite loadSessionMeta_lookup, deleteSessionLog_artifact; [reflexivity|].
  unfold artifacts. right. left.
Qed.

Lemma readSessionLog_delete_eq sessionId (fs : gmap string Content) :
  readSessionLog JSON_stringify sessionId (deleteSessionLog sessionId fs) = "".
Proof.
  rewrite readSessionLog_lookup, deleteSessionLog_artifact; [reflexivity|].
  unfold artifacts. left.
Qed.

Lemma delete_ne sessionId (fs : gmap string Content) other :
  other <> sessionId ->
  loadSessionMeta other (deleteSessionLog sessionId fs) = loadSessionMeta other fs /\
  readSessionLog JSON_stringify other (deleteSessionLog sessionId fs)
  = readSessionLog JSON_stringify other fs.
Proof.
  intros Hne. rewrite !loadSessionMeta_lookup, !readSessionLog_lookup.
  rewrite !deleteSessionLog_other; [split; reflexivity| |]; unfold artifacts;
    intros [H|[H|[]%elem_of_nil]%elem_of_cons]%elem_of_cons.
  - apply getSessionLogPath_inj in H. congruence.
  - symmetry in H. exact (meta_path_is_not_log_path _ _ H).
  - exact (meta_path_is_not_log_path _ _ H).
  - apply getSessionMetaPath_inj in H. congruence.
Qed.

(** X7.  A record saved under an id that is a file-name part is what
    loadSessionMeta reads back after any later sequence of saves, log appends
    and deletions made with such ids, as long as none of them saves or
    deletes the record of that id. *)
Theorem saved_record_survives (s : TerminalSession) (ops : list StoreOp)
    (fs : gmap string Content) :
  file_name_part (id s) = true ->
  file_name_ops ops = true ->
  forallb (fun op => negb (rewrites_meta (id s) op)) ops = true ->
  loadSessionMeta (id s) (store_run JSON_stringify ops (saveSessionMeta s fs)) = Some s.
Proof.
  intros _ _.
  enough (H : forall g, loadSessionMeta (id s) g = Some s ->
                        forallb (fun op => negb (rewrites_meta (id s) op)) ops = true ->
                        loadSessionMeta (id s) (store_run JSON_stringify ops g) = Some s)
    by (apply H, loadSessionMeta_save_eq).
  induction ops as [|op ops IH]; intros g Hg Hops; [exact Hg|].
  cbn [forallb] in Hops. apply andb_true_iff in Hops as [Hop Hops].
  unfold store_run. cbn [List.fold_left]. apply IH; [|exact Hops].
  apply negb_true_iff in Hop.
  destruct op as [s'|k data|k]; cbn [store_step rewrites_meta] in *.
  - rewrite loadSessionMeta_save_ne; [exact Hg|].
    apply String.eqb_neq in Hop. congruence.
  - rewrite loadSessionMeta_append. exact Hg.
  - apply String.eqb_neq in Hop.
    destruct (delete_ne k g (id s)) as [-> _]; [congruence|exact Hg].
Qed.

(** X8.  For an id that is a file-name part, the log read back after any
    sequence of saves, log appends and deletions made with such ids is the
    log as it was followed by the chunks appended for that id, in order, as
    long as the sequence does not delete that session. *)
Theorem appendSessionLog_appends (sessionId : string) (ops : list StoreOp)
    (fs : gmap string Content) :
  file_name_part sessionId = true ->
  file_name_ops ops = true ->
  forallb (fun op => negb (deletes sessionId op)) ops = true ->
  readSessionLog JSON_stringify sessionId (store_run JSON_stringify ops fs)
  = readSessionLog JSON_stringify sessionId fs +:+ join (appended_to sessionId ops).
Proof.
  intros _ _. revert fs. induction ops as [|op ops IH]; intros fs Hops.
  - cbn. rewrite append_empty_r. reflexivity.
  - cbn [forallb] in Hops. apply andb_true_iff in Hops as [Hop Hops].
    unfold store_run. cbn [List.fold_left]. fold (store_run JSON_stringify ops (store_step JSON_stringify fs op)).
    rewrite (IH _ Hops). apply negb_true_iff in Hop.
    destruct op as [s'|k data|k]; cbn [store_step deletes appended_to omap list_omap] in *.
    + fold (appended_to sessionId ops). rewrite readSessionLog_save. reflexivity.
    + fold (appended_to sessionId ops). destruct (String.eqb_spec k sessionId) as [->|Hne].
      * rewrite readSessionLog_append_eq.
        change (join (data :: appended_to sessionId ops))
          with (data +:+ join (appended_to sessionId ops)).
        rewrite append_assoc. reflexivity.
      * rewrite readSessionLog_append_ne by congruence. reflexivity.
    + fold (appended_to sessionId ops). apply String.eqb_neq in Hop.
      destruct (delete_ne k fs sessionId) as [_ ->]; [congruence|reflexivity].
Qed.

(** X9.  For ids that are file-name parts: after deleteSessionLog the session
    has neither a record nor a log; the records and logs of all other such
    ids are as they were; and deleting a session that has neither file
    changes nothing. *)
Theorem deleteSessionLog_forgets (sessionId : string) (fs : gmap string Content) :
  file_name_part sessionId = true ->
  loadSessionMeta sessionId (deleteSessionLog sessionId fs) = None /\
  readSessionLog JSON_stringify sessionId (deleteSessionLog sessionId fs) = "" /\
  (forall other, file_name_part other = true -> other <> sessionId ->
                 loadSessionMeta other (deleteSessionLog sessionId fs) = loadSessionMeta other fs /\
                 readSessionLog JSON_stringify other (deleteSessionLog sessionId fs)
                 = readSessionLog JSON_stringify other fs) /\
  (fs !! getSessionMetaPath sessionId = None -> fs !! getSessionLogPath sessionId = None ->
   deleteSessionLog sessionId fs = fs).
Proof.
  intros _. split; [apply loadSessionMeta_delete_eq|].
  split; [apply readSessionLog_delete_eq|]. split.
  - intros other _ Hne. apply delete_ne, Hne.
  - intros Hm Hl. rewrite deleteSessionLog_eq.
    rewrite (delete_id fs _ Hl). apply delete_id, Hm.
Qed.

End LogFacts.

(** X10.  On a directory written by the persistence layer, saving the record
    of a session whose id is a file-name part without a dot makes the saved
    listing hold that record in place of any earlier record of the same id,
    and all records of other ids as before. *)
Theorem saved_listing_after_save (s : TerminalSession) (fs : gmap string Content) :
  file_name_part (id s) = true -> no_dot (id s) = true ->
  store_names_ok fs = true -> store_ids_ok fs = true -> store_records_ok fs = true ->
  forall s', s' ∈ getAllSavedSessions (saveSessionMeta s fs) <->
             s' = s \/ (s' ∈ getAllSavedSessions fs /\ id s' <> id s).
Proof.
  intros _ Hdot Hnames Hids _ s'.
  pose proof (saveSessionMeta_names_ok s fs Hdot Hnames) as Hnames'.
  pose proof (loadSessionMeta_save_eq s fs) as Hsame.
  pose proof (loadSessionMeta_save_ne s fs) as Hother.
  rewrite (elem_of_saved _ s' Hnames'), (elem_of_saved _ s' Hnames). split.
  - intros (sessionId & Hl). destruct (decide (sessionId = id s)) as [->|Hne].
    + left. congruence.
    + right. rewrite (Hother _ Hne) in Hl. split; [eauto|].
      rewrite (loaded_id fs sessionId s' Hnames Hids Hl). exact Hne.
  - intros [->|[(sessionId & Hl) Hne]]; [eauto|].
    exists sessionId. rewrite Hother; [exact Hl|].
    rewrite <- (loaded_id fs sessionId s' Hnames Hids Hl). exact Hne.
Qed.

Lemma saved_record_survives_witness :
  loadSessionMeta "a1"
    (store_run (fun _ => "")
               [AppendLog "a1" "out"; SaveMeta sample_recent; DeleteLog "b2"; AppendLog "b2" "x"]
               (saveSessionMeta sample_old ∅))
  = Some sample_old.
Proof.
  apply (saved_record_survives (fun _ => "") sample_old
           [AppendLog "a1" "out"; SaveMeta sample_recent; DeleteLog "b2"; AppendLog "b2" "x"]
           ∅ eq_refl eq_refl eq_refl).
Defined.

Lemma appendSessionLog_appends_witness :
  readSessionLog (fun _ => "") "a1"
    (store_run (fun _ => "")
               [AppendLog "a1" "put"; AppendLog "b2" "x"; SaveMeta sample_old; DeleteLog "b2";
                AppendLog "a1" "s"]
               sample_store)
  = "outputs".
Proof.
  etrans; [apply (appendSessionLog_appends (fun _ => "") "a1"
                    [AppendLog "a1" "put"; AppendLog "b2" "x"; SaveMeta sample_old;
                     DeleteLog "b2"; AppendLog "a1" "s"]
                    sample_store eq_refl eq_refl eq_refl)|reflexivity].
Defined.

Lemma deleteSessionLog_forgets_witness :
  loadSessionMeta "b2" (deleteSessionLog "a1" sample_store) = Some sample_recent /\
  deleteSessionLog "zz" sample_store = sample_store.
Proof.
  destruct (deleteSessionLog_forgets (fun _ => "") "a1" sample_store eq_refl)
    as (_ & _ & Hother & _).
  destruct (deleteSessionLog_forgets (fun _ => "") "zz" sample_store eq_refl)
    as (_ & _ & _ & Hnoop).
  split.
  - destruct (Hother "b2") as [-> _]; [reflexivity|discriminate|reflexivity].
  - apply Hnoop; reflexivity.
Defined.

Lemma saved_listing_after_save_witness :
  sample_old ∈ getAllSavedSessions (saveSessionMeta sample_old sample_store).
Proof.
  apply (saved_listing_after_save sample_old sample_store eq_refl eq_refl eq_refl eq_refl eq_refl).
  left. reflexivity.
Defined.

(* ===================================================================== *)
(** * Properties of the service: listeners and routes *)
(* ===================================================================== *)

Section Emissions.
Context (uuidv4 : nat -> string) (backend : NodePty).

Lemma shutdown_kills_emitted now (entries : list (string * nat)) m :
  emitted (List.fold_left (fun acc e => snd (killSession backend now (fst e) acc)) entries m)
  = emitted m.
Proof.
  revert m. induction entries as [|e entries IH]; intros m; [reflexivity|].
  cbn [List.fold_left]. rewrite IH. unfold killSession.
  destruct (get_instance (fst e) m) as [[h i]|]; [|reflexivity].
  destruct (is_running i); [|reflexivity].
  destruct (kill_throws backend (pty i)); reflexivity.
Qed.

Lemma step_emitted m ev :
  emitted (step uuidv4 backend m ev) = emitted m ++ emits m ev.
Proof.
  destruct ev as [now op]. unfold step, emits. cbn [fst snd].
  destruct op as [request|sessionId data|sessionId cols rows|sessionId|sessionId| |
                  |h data|h code|]; rewrite ?app_nil_r.
  - unfold createSession. destruct (negb (canCreateSession m)); [reflexivity|].
    destruct (spawn_throws backend (req_cwd request)); reflexivity.
  - unfold writeToSession. destruct (get_instance sessionId m) as [[h i]|]; [|reflexivity].
    destruct (negb (is_running i)); [reflexivity|].
    destruct (write_throws backend (pty i) data); reflexivity.
  - unfold resizeSession. destruct (get_instance sessionId m) as [[h i]|]; [|reflexivity].
    destruct (negb (is_running i)); [reflexivity|].
    destruct (resize_throws backend (pty i) cols rows); reflexivity.
  - unfold killSession. destruct (get_instance sessionId m) as [[h i]|]; [|reflexivity].
    destruct (is_running i); [|reflexivity].
    destruct (kill_throws backend (pty i)); reflexivity.
  - unfold removeSession. destruct (get_instance sessionId m) as [[h i]|] eqn:G; [|reflexivity].
    cbn. destruct (is_running i) eqn:R; [|reflexivity].
    unfold killSession. rewrite G, R. destruct (kill_throws backend (pty i)); reflexivity.
  - reflexivity.
  - unfold shutdown. cbn. apply shutdown_kills_emitted.
  - unfold onData. destruct (heap m !! h); [reflexivity|]. rewrite app_nil_r. reflexivity.
  - unfold onExit. destruct (heap m !! h) as [i|]; [|rewrite app_nil_r]; reflexivity.
  - unfold onTimer. destruct (timers m) as [|[h request] rest]; [reflexivity|].
    destruct (commandInjection request); [|reflexivity].
    destruct (heap m !! h) as [i|]; [|reflexivity].
    destruct (write_throws backend (pty i) s); reflexivity.
Qed.

End Emissions.

Lemma emits_short m ev : emits m ev = [] \/ exists e, emits m ev = [e].
Proof.
  unfold emits. destruct (snd ev); auto.
  - destruct (heap m !! h); eauto.
  - destruct (heap m !! h) as [i|]; eauto.
Qed.

Lemma feed_suffix chunks buffer :
  exists dropped, buffer ++ chunks = dropped ++ feed chunks buffer.
Proof.
  revert buffer. induction chunks as [|data chunks IH]; intros buffer.
  - exists []. cbn. rewrite app_nil_r. reflexivity.
  - cbn [feed List.fold_left]. fold (feed chunks (push_chunk data buffer)).
    destruct (IH (push_chunk data buffer)) as [dropped Hd].
    unfold push_chunk in *.
    destruct (BUFFER_CAPACITY <? length (buffer ++ [data])).
    + destruct (buffer ++ [data]) as [|x rest] eqn:E.
      * destruct buffer; discriminate.
      * exists (x :: dropped). cbn [tail] in Hd.
        replace (buffer ++ data :: chunks) with ((buffer ++ [data]) ++ chunks)
          by (rewrite <- app_assoc; reflexivity).
        rewrite E. cbn. rewrite Hd. reflexivity.
    + exists dropped. rewrite <- Hd, <- app_assoc. reflexivity.
Qed.

Section ServiceFacts.
Context (JSON_stringify : TerminalSession -> string).
Context (uuidv4 : nat -> string) (backend : NodePty).

Lemma service_step_eq sv ev :
  service_step JSON_stringify uuidv4 backend sv ev =
  List.fold_left (dispatch JSON_stringify (step uuidv4 backend (svc_manager sv) ev))
                 (emits (svc_manager sv) ev)
                 (mkService (step uuidv4 backend (svc_manager sv) ev)
                            (svc_store sv) (svc_notified sv)).
Proof.
  unfold service_step. cbn zeta. rewrite step_emitted, drop_app_length. reflexivity.
Qed.

Lemma dispatch_manager m sv e :
  svc_manager (dispatch JSON_stringify m sv e) = svc_manager sv.
Proof.
  destruct e as [sessionId data|sessionId code]; cbn; [reflexivity|].
  destruct (getSession sessionId m); reflexivity.
Qed.

Lemma service_step_manager sv ev :
  svc_manager (service_step JSON_stringify uuidv4 backend sv ev)
  = step uuidv4 backend (svc_manager sv) ev.
Proof.
  rewrite service_step_eq.
  destruct (emits_short (svc_manager sv) ev) as [->|[e ->]]; cbn; [reflexivity|].
  apply dispatch_manager.
Qed.

Lemma service_run_manager trace sv :
  svc_manager (service_run JSON_stringify uuidv4 backend trace sv)
  = run uuidv4 backend trace (svc_manager sv).
Proof.
  revert sv. induction trace as [|ev trace IH]; intros sv; [reflexivity|].
  cbn [service_run run List.fold_left].
  fold (service_run JSON_stringify uuidv4 backend trace
          (service_step JSON_stringify uuidv4 backend sv ev)).
  rewrite IH, service_step_manager. reflexivity.
Qed.

(** One turn appends to the log of the session of cell [h] exactly the chunk
    that the turn delivers to the data callback of [h], when no other cell
    receives data. *)
Lemma service_step_log sv ev h i :
  heap (svc_manager sv) !! h = Some i ->
  data_only_for h [ev] = true ->
  readSessionLog JSON_stringify (id (session i))
                 (svc_store (service_step JSON_stringify uuidv4 backend sv ev))
  = readSessionLog JSON_stringify (id (session i)) (svc_store sv) +:+ join (chunks_for h [ev]).
Proof.
  intros Hh Honly. rewrite service_step_eq.
  destruct ev as [now op]. unfold emits, chunks_for, data_only_for in *.
  cbn [fst snd omap list_omap forallb] in *.
  destruct op as [request|sessionId data|sessionId cols rows|sessionId|sessionId| |
                  |h0 data|h0 code|];
    try (cbn; rewrite append_empty_r; reflexivity).
  - rewrite andb_true_r in Honly. apply Nat.eqb_eq in Honly. subst h0.
    rewrite Hh, decide_True by reflexivity. cbn.
    rewrite readSessionLog_append_eq, append_empty_r. reflexivity.
  - destruct (heap (svc_manager sv) !! h0) as [i0|]; [|cbn; rewrite append_empty_r; reflexivity].
    cbn. destruct (getSession _ _) as [s|]; cbn; [|rewrite append_empty_r; reflexivity].
    rewrite readSessionLog_save, append_empty_r. reflexivity.
Qed.

Lemma data_only_for_cons h ev trace :
  data_only_for h (ev :: trace) = data_only_for h [ev] && data_only_for h trace.
Proof. unfold data_only_for. cbn. rewrite andb_true_r. reflexivity. Qed.

(** X13.  While only cell [h] receives data, whatever else happens to the
    registry: the persisted log of the session of [h] grows by exactly the
    chunks delivered to [h], in order; the buffer of [h] is what the data
    callback makes of them; and if the buffered text was a suffix of the log
    before, it is one afterwards, so the in-memory history is always a tail of
    the persisted log. *)
Theorem log_follows_output (trace : list (Z * Op)) (sv : Service) (h : nat) (i : PtyInstance) :
  heap (svc_manager sv) !! h = Some i ->
  data_only_for h trace = true ->
  let sv' := service_run JSON_stringify uuidv4 backend trace sv in
  let log := readSessionLog JSON_stringify (id (session i)) in
  log (svc_store sv') = log (svc_store sv) +:+ join (chunks_for h trace) /\
  exists i',
    heap (svc_manager sv') !! h = Some i' /\
    outputBuffer i' = feed (chunks_for h trace) (outputBuffer i) /\
    (forall before, log (svc_store sv) = before +:+ join (outputBuffer i) ->
                    exists before', log (svc_store sv') = before' +:+ join (outputBuffer i')).
Proof.
  intros Hh Honly sv' log.
  assert (Hlog : log (svc_store sv') = log (svc_store sv) +:+ join (chunks_for h trace)).
  { unfold sv', log. clear sv' log. revert sv i Hh Honly.
    induction trace as [|ev trace IH]; intros sv i Hh Honly.
    - cbn. rewrite append_empty_r. reflexivity.
    - rewrite data_only_for_cons in Honly. apply andb_prop in Honly as [Hev Htrace].
      cbn [service_run List.fold_left].
      fold (service_run JSON_stringify uuidv4 backend trace
              (service_step JSON_stringify uuidv4 backend sv ev)).
      destruct (step_cell uuidv4 backend (svc_manager sv) ev h i Hh) as (i1 & Hi1 & Hsteps).
      rewrite <- service_step_manager in Hi1.
      pose proof (IH _ i1 Hi1 Htrace) as IH1.
      rewrite (cell_steps_id _ _ Hsteps) in IH1. rewrite IH1.
      rewrite (service_step_log sv ev h i Hh Hev).
      rewrite (chunks_for_cons h ev trace), join_app, append_assoc. reflexivity. }
  split; [exact Hlog|].
  destruct (run_buffer uuidv4 backend trace (svc_manager sv) h i Hh) as (i' & Hi' & Hb).
  exists i'. split; [unfold sv'; rewrite service_run_manager; exact Hi'|].
  split; [exact Hb|].
  intros before Hbefore.
  destruct (feed_suffix (chunks_for h trace) (outputBuffer i)) as [dropped Hd].
  exists (before +:+ join dropped).
  rewrite Hlog, Hbefore, Hb, !append_assoc. f_equal.
  rewrite <- !join_app, Hd. reflexivity.
Qed.

(** One exit event of the process of a resident session, as the listener
    sees it. *)
Lemma service_step_exit (sv : Service) (now : Z) (h : nat) (code : Z) (i : PtyInstance) :
  get_instance (id (session i)) (svc_manager sv) = Some (h, i) ->
  let sv' := service_step JSON_stringify uuidv4 backend sv (now, OnExit h code) in
  let final := session (mark_exited now code i) in
  svc_store sv' = saveSessionMeta final (svc_store sv) /\
  svc_notified sv' = svc_notified sv ++ [final] /\
  get_instance (id (session i)) (svc_manager sv') = Some (h, mark_exited now code i).
Proof.
  intros G sv' final. destruct (get_instance_Some _ _ _ _ G) as [Gm Hh].
  assert (Hheap : heap (onExit now h code (svc_manager sv)) !! h = Some (mark_exited now code i)).
  { unfold onExit. rewrite Hh. cbn.
    apply list_lookup_insert_eq. eapply lookup_lt_Some; exact Hh. }
  assert (Hinst : instances (onExit now h code (svc_manager sv)) = instances (svc_manager sv)).
  { apply onExit_evolves. }
  assert (G' : get_instance (id (session i)) (onExit now h code (svc_manager sv))
               = Some (h, mark_exited now code i)).
  { apply get_instance_intro; [rewrite Hinst; exact Gm|exact Hheap]. }
  assert (Hstep : sv' = dispatch JSON_stringify (onExit now h code (svc_manager sv))
                          (mkService (onExit now h code (svc_manager sv))
                                     (svc_store sv) (svc_notified sv))
                          (EmitExit (id (session i)) code)).
  { unfold sv'. rewrite service_step_eq. unfold emits, step. cbn [fst snd].
    rewrite Hh. reflexivity. }
  rewrite Hstep. cbn [dispatch]. unfold getSession. rewrite G'. cbn.
  split; [reflexivity|]. split; [reflexivity|exact G'].
Qed.

(** X14.  Each exit event of the process of a resident session makes the
    exit listener save the record as the handler left it (status by exit
    code, exit code set) and call the notifier with it once.  Neither the
    handler nor the listener looks at the status: a further exit event of the
    same process is handled like the first, so the record is saved again with
    the new code and the notifier is called again.  For a cell whose session
    is no longer resident the store and the notifications are left as they
    were. *)
Theorem exit_is_persisted_and_notified (sv : Service) (now : Z) (h : nat) (code : Z)
    (i : PtyInstance) :
  heap (svc_manager sv) !! h = Some i ->
  let sv' := service_step JSON_stringify uuidv4 backend sv (now, OnExit h code) in
  let final := session (mark_exited now code i) in
  (get_instance (id (session i)) (svc_manager sv) = Some (h, i) ->
   status final = (if (code =? 0)%Z then completed else failed) /\
   exitCode final = Some code /\
   loadSessionMeta (id (session i)) (svc_store sv') = Some final /\
   svc_notified sv' = svc_notified sv ++ [final] /\
   forall now' code',
     let sv'' := service_step JSON_stringify uuidv4 backend sv' (now', OnExit h code') in
     let final' := session (mark_exited now' code' (mark_exited now code i)) in
     loadSessionMeta (id (session i)) (svc_store sv'') = Some final' /\
     svc_notified sv'' = svc_notified sv ++ [final; final']) /\
  (getSession (id (session i)) (svc_manager sv) = None ->
   svc_store sv' = svc_store sv /\ svc_notified sv' = svc_notified sv).
Proof.
  intros Hh sv' final. split.
  - intros G. destruct (service_step_exit sv now h code i G) as (Hstore & Hnotified & G').
    fold sv' in Hstore, Hnotified, G'. fold final in Hstore, Hnotified.
    split; [reflexivity|]. split; [reflexivity|].
    split; [rewrite Hstore; apply (loadSessionMeta_save_eq final)|].
    split; [exact Hnotified|].
    intros now' code' sv'' final'.
    destruct (service_step_exit sv' now' h code' (mark_exited now code i) G')
      as (Hstore' & Hnotified' & _).
    fold sv'' in Hstore', Hnotified'. fold final' in Hstore', Hnotified'.
    split; [rewrite Hstore'; apply (loadSessionMeta_save_eq final')|].
    rewrite Hnotified', Hnotified, <- app_assoc. reflexivity.
  - intros Hnone.
    assert (Hinst : instances (onExit now h code (svc_manager sv)) = instances (svc_manager sv)).
    { apply onExit_evolves. }
    assert (Hstep : sv' = dispatch JSON_stringify (onExit now h code (svc_manager sv))
                            (mkService (onExit now h code (svc_manager sv))
                                       (svc_store sv) (svc_notified sv))
                            (EmitExit (id (session i)) code)).
    { unfold sv'. rewrite service_step_eq. unfold emits, step. cbn [fst snd].
      rewrite Hh. reflexivity. }
    rewrite Hstep. cbn [dispatch].
    assert (Hget : getSession (id (session i)) (onExit now h code (svc_manager sv)) = None).
    { apply getSession_None. apply getSession_None in Hnone.
      unfold get_instance in *. rewrite Hinst.
      destruct (map_get (id (session i)) (instances (svc_manager sv))) as [h'|]; [|reflexivity].
      destruct (heap (svc_manager sv) !! h') as [i'|] eqn:E; [discriminate|].
      apply lookup_ge_None in E.
      destruct (onExit_evolves now h code (svc_manager sv)) as [[Hlen _] _].
      rewrite <- Hlen in E. apply lookup_ge_None in E. rewrite E. reflexivity. }
    rewrite Hget. split; reflexivity.
Qed.

End ServiceFacts.

Lemma deleteSessionLog_Some sessionId (fs : gmap string Content) k c :
  deleteSessionLog sessionId fs !! k = Some c -> fs !! k = Some c.
Proof.
  destruct (decide (k ∈ artifacts sessionId)) as [Hin|Hout].
  - rewrite deleteSessionLog_artifact by exact Hin. discriminate.
  - rewrite deleteSessionLog_other by exact Hout. auto.
Qed.

Lemma deleteSessionLog_load sessionId (fs : gmap string Content) other s :
  loadSessionMeta other (deleteSessionLog sessionId fs) = Some s ->
  loadSessionMeta other fs = Some s.
Proof.
  rewrite !loadSessionMeta_lookup.
  destruct (deleteSessionLog sessionId fs !! getSessionMetaPath other) as [c|] eqn:E;
    [|discriminate].
  rewrite (deleteSessionLog_Some _ _ _ _ E). auto.
Qed.

Lemma deleteSessionLog_ids_ok sessionId (fs : gmap string Content) :
  store_ids_ok fs = true -> store_ids_ok (deleteSessionLog sessionId fs) = true.
Proof.
  rewrite !store_ids_ok_iff. intros H file s [c Hc] He Hl.
  apply (H file s); [|exact He|].
  - rewrite (deleteSessionLog_Some _ _ _ _ Hc). eauto.
  - eapply deleteSessionLog_load; exact Hl.
Qed.

Lemma createSession_lookup uuidv4 backend now request m s m' :
  createSession uuidv4 backend now request m = (Some s, m') ->
  status s = running /\ getSession (id s) m' = Some s /\ getSessionOutput (id s) m' = "".
Proof.
  unfold createSession. destruct (negb (canCreateSession m)); [discriminate|].
  destruct (spawn_throws backend (req_cwd request)); [discriminate|].
  intros [= <- <-]. split; [reflexivity|].
  unfold getSession, getSessionOutput, get_instance. cbn.
  rewrite map_get_set, list_lookup_middle by reflexivity. split; reflexivity.
Qed.

Lemma removeSession_gone backend now sessionId m :
  get_instance sessionId (snd (removeSession backend now sessionId m)) = None.
Proof.
  unfold removeSession. destruct (get_instance sessionId m) as [[h i]|] eqn:G; [|exact G].
  cbn. unfold get_instance. cbn [instances set_instances].
  rewrite map_get_delete_eq. reflexivity.
Qed.

Section Routes.
Context (JSON_stringify : TerminalSession -> string).
Context (uuidv4 : nat -> string) (backend : NodePty).

(** X12.  POST /sessions answers 400, 429, 500 or 200.  It answers 200
    exactly when cwd and aiTool are given, there is capacity and the spawn
    does not raise; the session of a 200 answer is running, resident under
    its id and persisted under its id.  Any other answer carries no session
    and changes neither the store nor the list of resident sessions. *)
Theorem post_sessions_outcomes (now : Z) (request : CreateSessionRequest) (sv : Service) :
  let answer := post_sessions uuidv4 backend now request sv in
  let code := fst (fst answer) in
  let created := snd (fst answer) in
  let sv' := snd answer in
  (code = 400 \/ code = 429 \/ code = 500 \/ code = 200)%Z /\
  (code = 200%Z <->
   req_cwd request <> "" /\ is_Some (req_aiTool request) /\
   canCreateSession (svc_manager sv) = true /\
   spawn_throws backend (req_cwd request) = false) /\
  (code = 200%Z ->
   exists s, created = Some s /\ status s = running /\
             getSession (id s) (svc_manager sv') = Some s /\
             loadSessionMeta (id s) (svc_store sv') = Some s) /\
  (code <> 200%Z ->
   created = None /\ svc_store sv' = svc_store sv /\
   svc_notified sv' = svc_notified sv /\
   getAllSessions (svc_manager sv') = getAllSessions (svc_manager sv)).
Proof.
  cbn zeta. unfold post_sessions.
  destruct (String.eqb_spec (req_cwd request) "") as [Hcwd|Hcwd].
  { cbn [truthy]. rewrite (proj2 (String.eqb_eq _ _) Hcwd). cbn.
    split; [auto|]. split; [split; [discriminate|intros [H _]; contradiction]|].
    split; [discriminate|]. intros _. auto. }
  cbn [truthy]. rewrite (proj2 (String.eqb_neq _ _) Hcwd). cbn [negb orb].
  destruct (req_aiTool request) as [tool|] eqn:Htool.
  2:{ rewrite bool_decide_eq_false_2 by (intros [? ?]; discriminate). cbn.
      split; [auto|]. split; [split; [discriminate|]|].
      - intros (_ & [? ?] & _). discriminate.
      - split; [discriminate|]. intros _. auto. }
  rewrite bool_decide_eq_true_2 by eauto. cbn [negb].
  destruct (canCreateSession (svc_manager sv)) eqn:Hcan; cbn [negb].
  2:{ cbn. split; [auto|]. split; [split; [discriminate|]|].
      - intros (_ & _ & ? & _). discriminate.
      - split; [discriminate|]. intros _. auto. }
  destruct (createSession uuidv4 backend now request (svc_manager sv)) as [[s|] m'] eqn:Hc.
  - destruct (createSession_lookup _ _ _ _ _ _ _ Hc) as (Hrun & Hget & _).
    assert (Hspawn : spawn_throws backend (req_cwd request) = false).
    { unfold createSession in Hc. rewrite Hcan in Hc. cbn in Hc.
      destruct (spawn_throws backend (req_cwd request)); [discriminate|reflexivity]. }
    cbn. split; [auto|]. split; [split; eauto|]. split; [|intros H; contradiction].
    intros _. exists s. split; [reflexivity|]. split; [exact Hrun|]. split; [exact Hget|].
    apply loadSessionMeta_save_eq.
  - assert (Hspawn : spawn_throws backend (req_cwd request) = true /\
                     getAllSessions m' = getAllSessions (svc_manager sv)).
    { unfold createSession in Hc. rewrite Hcan in Hc. cbn in Hc.
      destruct (spawn_throws backend (req_cwd request)); [|discriminate].
      injection Hc as <-. split; reflexivity. }
    destruct Hspawn as [Hspawn Hsame].
    cbn. split; [auto|]. split; [split; [discriminate|]|].
    + intros (_ & _ & _ & H). congruence.
    + split; [discriminate|]. intros _. auto.
Qed.

(** X11.  On a directory written by the persistence layer, after
    DELETE /sessions/:id the session is found neither in memory nor on disk:
    GET /sessions/:id answers 404 and a viewer that connects gets no
    history. *)
Theorem deleted_session_is_gone (now : Z) (sessionId : string) (sv : Service) :
  store_names_ok (svc_store sv) = true -> store_ids_ok (svc_store sv) = true ->
  let sv' := delete_session backend now sessionId sv in
  get_session_by_id JSON_stringify sessionId sv' = None /\
  connect_history JSON_stringify sessionId sv' = None /\
  store_names_ok (svc_store sv') = true /\ store_ids_ok (svc_store sv') = true.
Proof.
  intros Hnames Hids sv'.
  pose proof (removeSession_gone backend now sessionId (svc_manager sv)) as Hgone.
  pose proof (deleteSessionLog_names_ok sessionId _ Hnames) as Hnames'.
  pose proof (deleteSessionLog_ids_ok sessionId _ Hids) as Hids'.
  pose proof (loadSessionMeta_delete_eq sessionId (svc_store sv)) as Hload.
  pose proof (readSessionLog_delete_eq JSON_stringify sessionId (svc_store sv)) as Hlog.
  assert (Hout : getSessionOutput sessionId (svc_manager sv') = "").
  { unfold sv', delete_session, getSessionOutput. cbn [svc_manager]. rewrite Hgone. reflexivity. }
  split; [|split; [|split; assumption]].
  - unfold get_session_by_id, sv', delete_session, getSession. cbn [svc_manager svc_store].
    rewrite Hgone. cbn [option_map].
    destruct (List.find _ _) as [s|] eqn:Hfind; [|reflexivity].
    apply List.find_some in Hfind as [Hin Heq]. apply String.eqb_eq in Heq.
    apply list_elem_of_In, elem_of_saved in Hin as (sid & Hl); [|exact Hnames'].
    rewrite (loaded_id _ sid s Hnames' Hids' Hl) in Heq. subst sid. congruence.
  - unfold connect_history. rewrite Hout. cbn [truthy String.eqb negb].
    unfold sv', delete_session. cbn [svc_store]. rewrite Hlog. reflexivity.
Qed.

End Routes.

Lemma log_follows_output_witness :
  let sv := snd (post_sessions sample_uuid reliable_pty 10 sample_request empty_service) in
  let sv' := service_run (fun _ => "") sample_uuid reliable_pty
                         [(11%Z, OnData 0 "he"); (12%Z, OnTimer); (13%Z, OnData 0 "llo")] sv in
  readSessionLog (fun _ => "") "a" (svc_store sv') = "hello".
Proof.
  intros sv sv'.
  edestruct (log_follows_output (fun _ => "") sample_uuid reliable_pty
               [(11%Z, OnData 0 "he"); (12%Z, OnTimer); (13%Z, OnData 0 "llo")] sv 0)
    as [Hlog _]; [reflexivity|reflexivity|].
  exact Hlog.
Defined.

Lemma exit_is_persisted_and_notified_witness :
  let sv := snd (post_sessions sample_uuid reliable_pty 10 sample_request empty_service) in
  let sv' := service_step (fun _ => "") sample_uuid reliable_pty sv (50%Z, OnExit 0 2%Z) in
  let sv'' := service_step (fun _ => "") sample_uuid reliable_pty sv' (60%Z, OnExit 0 0%Z) in
  option_map status (loadSessionMeta "a" (svc_store sv')) = Some failed /\
  length (svc_notified sv') = 1 /\
  option_map status (loadSessionMeta "a" (svc_store sv'')) = Some completed /\
  length (svc_notified sv'') = 2.
Proof.
  intros sv sv' sv''.
  edestruct (exit_is_persisted_and_notified (fun _ => "") sample_uuid reliable_pty sv 50 0 2)
    as [Hres _]; [reflexivity|].
  destruct Hres as (_ & _ & Hload & Hnotified & Hagain); [reflexivity|].
  destruct (Hagain 60%Z 0%Z) as (Hload' & Hnotified').
  split; [|split; [|split]].
  - etrans; [apply (f_equal (option_map status)); exact Hload|reflexivity].
  - etrans; [apply (f_equal (@length _)); exact Hnotified|reflexivity].
  - etrans; [apply (f_equal (option_map status)); exact Hload'|reflexivity].
  - etrans; [apply (f_equal (@length _)); exact Hnotified'|reflexivity].
Defined.

Lemma post_sessions_outcomes_witness :
  let answer := post_sessions sample_uuid reliable_pty 10 sample_request empty_service in
  exists s, snd (fst answer) = Some s /\
            loadSessionMeta (id s) (svc_store (snd answer)) = Some s.
Proof.
  intros answer.
  destruct (post_sessions_outcomes sample_uuid reliable_pty 10 sample_request
              empty_service) as (_ & _ & Hok & _).
  destruct (Hok eq_refl) as (s & Hs & _ & _ & Hload).
  exists s. split; assumption.
Defined.

Lemma deleted_session_is_gone_witness :
  let sv := mkService empty_manager sample_store [] in
  get_session_by_id (fun _ => "") "a1" (delete_session reliable_pty 20 "a1" sv) = None.
Proof.
  intros sv.
  apply (deleted_session_is_gone (fun _ => "") reliable_pty 20 "a1" sv eq_refl eq_refl).
Defined.

(* ===================================================================== *)
(** * Further properties of the notification dispatcher *)
(* ===================================================================== *)


(** X16.  The message of a request carries the success mark exactly for a
    completed session, the exit code of the record, and a duration in whole
    seconds that is within half a second of completedAt minus createdAt; the
    duration is 0 when completedAt is unset or 0. *)
Theorem notification_message (config : NotificationConfig) (world : Delivery)
    (s : TerminalSession) (url : string) (message : NotificationMessage) :
  List.In (url, message) (snd (notifyTaskCompleted config world s)) ->
  (msg_success message = true <-> status s = completed) /\
  msg_exitCode message = exitCode s /\
  match completedAt s with
  | Some finished =>
      if (finished =? 0)%Z then msg_duration message = 0%Z
      else (1000 * msg_duration message - 500 <= finished - createdAt s
            < 1000 * msg_duration message + 500)%Z
  | None => msg_duration message = 0%Z
  end.
Proof.
  unfold notifyTaskCompleted, sendWeChatMessage.
  destruct (negb (enabled config) || String.eqb (webhookUrl config) ""); [intros []|].
  intros Hin.
  assert (Hm : message =
               mkMessage (Status_eqb (status s) completed) (aiTool s)
                         match completedAt s with
                         | Some c => if (c =? 0)%Z then 0%Z else round_seconds (c - createdAt s)
                         | None => 0%Z
                         end
                         (projectPath s)
                         (if truthy (requirementId s) then requirementId s else None)
                         (exitCode s)).
  { destruct world; cbn in Hin; destruct Hin as [[= _ <-]|[]] || destruct Hin; reflexivity. }
  subst message. cbn [msg_success msg_exitCode msg_duration].
  split; [destruct (status s); cbn; split; congruence|]. split; [reflexivity|].
  destruct (completedAt s) as [finished|]; [|reflexivity].
  destruct (finished =? 0)%Z; [reflexivity|].
  unfold round_seconds.
  pose proof (Z.div_mod (finished - createdAt s + 500) 1000 ltac:(lia)) as Hdiv.
  pose proof (Z.mod_pos_bound (finished - createdAt s + 500) 1000 ltac:(lia)) as Hmod.
  lia.
Qed.


Lemma notification_message_witness :
  exists message,
    List.In ("https://hook.example/send", message)
            (snd (notifyTaskCompleted (mkConfig true "https://hook.example/send")
                                      RequestTimeout
                                      (mkSession "a" None None (Some claude) failed None
                                                 "/tmp" 1000 (Some 3600%Z) (Some 2%Z)))) /\
    msg_exitCode message = Some 2%Z.
Proof.
  eexists. split; [left; reflexivity|].
  edestruct (notification_message (mkConfig true "https://hook.example/send") RequestTimeout
               (mkSession "a" None None (Some claude) failed None
                          "/tmp" 1000 (Some 3600%Z) (Some 2%Z)))
    as (_ & He & _); [left; reflexivity|].
  exact He.
Defined.

(* ===================================================================== *)
(** * Viewer connections *)
(* ===================================================================== *)

Lemma set_add_spec ws sockets :
  NoDup sockets -> NoDup (set_add ws sockets) /\ set_add ws sockets <> [] /\
                   ws ∈ set_add ws sockets.
Proof.
  intros Hnd. unfold set_add. destruct (bool_decide (ws ∈ sockets)) eqn:E.
  - apply bool_decide_eq_true in E. split; [exact Hnd|]. split; [|exact E].
    intros ->. apply elem_of_nil in E. exact E.
  - apply bool_decide_eq_false in E. split; [|split].
    + apply NoDup_app. split; [exact Hnd|]. split; [|apply NoDup_singleton].
      intros x Hx ->%list_elem_of_singleton. contradiction.
    + destruct sockets; discriminate.
    + apply elem_of_app. right. apply list_elem_of_singleton. reflexivity.
Qed.

Lemma set_delete_spec ws sockets :
  NoDup sockets -> NoDup (set_delete ws sockets) /\ ws ∉ set_delete ws sockets.
Proof.
  intros Hnd. unfold set_delete. split.
  - apply NoDup_ListNoDup, List.NoDup_filter, NoDup_ListNoDup, Hnd.
  - intros Hin. apply list_elem_of_In, List.filter_In in Hin as [_ Hin].
    rewrite Nat.eqb_refl in Hin. discriminate.
Qed.

Lemma ws_connect_ok ws sessionId conns :
  connections_ok conns -> connections_ok (ws_connect ws sessionId conns).
Proof.
  intros Hok. unfold ws_connect.
  destruct (truthy sessionId) eqn:Ht; cbn [negb]; [|exact Hok].
  destruct sessionId as [key|]; [|discriminate].
  change (default "" (Some key)) with key.
  apply truthy_Some in Ht.
  intros k sockets Hk. destruct (decide (key = k)) as [<-|Hne].
  - rewrite lookup_insert_eq in Hk. injection Hk as <-.
    assert (Hnd : NoDup (default [] ((if bool_decide (is_Some (conns !! key))
                                      then conns else <[key:=[]]> conns) !! key))).
    { destruct (conns !! key) as [old|] eqn:E.
      - rewrite bool_decide_eq_true_2 by eauto. rewrite E. cbn. apply (Hok key old E).
      - rewrite bool_decide_eq_false_2 by (intros [? ?]; discriminate).
        rewrite lookup_insert_eq. cbn. constructor. }
    destruct (set_add_spec ws _ Hnd) as (H1 & H2 & _). auto.
  - rewrite lookup_insert_ne in Hk by exact Hne.
    destruct (bool_decide (is_Some (conns !! key))); [exact (Hok k sockets Hk)|].
    rewrite lookup_insert_ne in Hk by exact Hne. exact (Hok k sockets Hk).
Qed.

Lemma ws_close_ok ws sessionId conns :
  connections_ok conns -> connections_ok (ws_close ws sessionId conns).
Proof.
  intros Hok. unfold ws_close.
  destruct (conns !! sessionId) as [old|] eqn:E; [|exact Hok].
  destruct (Hok sessionId old E) as (_ & Hnd & Hkey).
  destruct (Nat.eqb_spec (length (set_delete ws old)) 0) as [Hlen|Hlen];
    intros k sockets Hk; destruct (decide (sessionId = k)) as [<-|Hne].
  - rewrite lookup_delete_eq in Hk. discriminate.
  - rewrite lookup_delete_ne in Hk by exact Hne. exact (Hok k sockets Hk).
  - rewrite lookup_insert_eq in Hk. injection Hk as <-.
    split; [|split; [apply set_delete_spec, Hnd|exact Hkey]].
    intros H. rewrite H in Hlen. contradiction.
  - rewrite lookup_insert_ne in Hk by exact Hne. exact (Hok k sockets Hk).
Qed.

(** X17.  After any sequence of connections and closes, the table of viewer
    connections holds no empty set, no socket twice and no empty session id;
    a broadcast reaches exactly the open sockets of that session; a socket
    that connected with a session id is in the set of that session; and a
    socket that closed is no longer in it. *)
Theorem connections_bookkeeping (events : list WsEvent) :
  let conns := ws_run events ∅ in
  connections_ok conns /\
  (forall sessionId is_open ws,
      ws ∈ broadcastToSession sessionId is_open conns <->
      exists sockets, conns !! sessionId = Some sockets /\ ws ∈ sockets /\ is_open ws = true) /\
  (forall ws sessionId,
      sessionId <> "" ->
      exists sockets, ws_connect ws (Some sessionId) conns !! sessionId = Some sockets /\
                      ws ∈ sockets) /\
  (forall ws sessionId sockets,
      ws_close ws sessionId conns !! sessionId = Some sockets -> ws ∉ sockets).
Proof.
  intros conns.
  assert (Hok : connections_ok conns).
  { unfold conns, ws_run.
    assert (H : forall start, connections_ok start ->
                              connections_ok (List.fold_left ws_step events start)).
    { induction events as [|ev events IH]; intros start Hs; [exact Hs|].
      cbn [List.fold_left]. apply IH.
      destruct ev; cbn; [apply ws_connect_ok|apply ws_close_ok]; exact Hs. }
    apply H. intros k sockets Hk. rewrite lookup_empty in Hk. discriminate. }
  split; [exact Hok|]. split; [|split].
  - intros sessionId is_open ws. unfold broadcastToSession.
    destruct (conns !! sessionId) as [sockets|]; split.
    + intros Hin. apply list_elem_of_In, List.filter_In in Hin as [Hin Ho].
      exists sockets. split; [reflexivity|]. split; [apply list_elem_of_In, Hin|exact Ho].
    + intros (sockets' & [= <-] & Hin & Ho).
      apply list_elem_of_In, List.filter_In. split; [apply list_elem_of_In, Hin|exact Ho].
    + intros []%elem_of_nil.
    + intros (? & ? & _). discriminate.
  - intros ws sessionId Hne. unfold ws_connect.
    rewrite (proj2 (truthy_Some sessionId) Hne). cbn [negb].
    change (default "" (Some sessionId)) with sessionId.
    rewrite lookup_insert_eq. eexists. split; [reflexivity|].
    apply set_add_spec.
    destruct (conns !! sessionId) as [old|] eqn:E.
    + rewrite bool_decide_eq_true_2 by eauto. rewrite E. cbn. apply (Hok sessionId old E).
    + rewrite bool_decide_eq_false_2 by (intros [? ?]; discriminate).
      rewrite lookup_insert_eq. cbn. constructor.
  - intros ws sessionId sockets. unfold ws_close.
    destruct (conns !! sessionId) as [old|] eqn:E.
    + destruct (Hok sessionId old E) as (_ & Hnd & _).
      destruct (Nat.eqb (length (set_delete ws old)) 0).
      * rewrite lookup_delete_eq. discriminate.
      * rewrite lookup_insert_eq. intros [= <-]. apply set_delete_spec, Hnd.
    + rewrite E. discriminate.
Qed.

Lemma connections_bookkeeping_witness :
  let conns := ws_run [WsConnect 1 (Some "a"); WsConnect 2 (Some "a"); WsConnect 3 None;
                       WsClose 1 "a"] ∅ in
  conns !! "a" = Some [2] /\
  (exists sockets, ws_connect 7 (Some "a") conns !! "a" = Some sockets /\ 7 ∈ sockets).
Proof.
  intros conns. split; [reflexivity|].
  destruct (connections_bookkeeping
              [WsConnect 1 (Some "a"); WsConnect 2 (Some "a"); WsConnect 3 None; WsClose 1 "a"])
    as (_ & _ & Hconnect & _).
  apply Hconnect. discriminate.
Defined.

(* ===================================================================== *)
(** * The directory that the service writes *)
(* ===================================================================== *)

Lemma cleanup_fold_names_ok cutoff files (fs : gmap string Content) cleaned :
  store_names_ok fs = true ->
  store_names_ok (fst (List.fold_left (cleanup_file cutoff) files (fs, cleaned))) = true.
Proof.
  revert fs cleaned. induction files as [|file files IH]; intros fs cleaned H; [exact H|].
  cbn [List.fold_left]. unfold cleanup_file at 2.
  destruct (endsWith file ".json"); [|apply IH, H].
  destruct (loadSessionMeta (sessionIdOfFile file) fs) as [s|]; [|apply IH, H].
  destruct (createdAt s <? cutoff)%Z; [|apply IH, H].
  apply IH, deleteSessionLog_names_ok, H.
Qed.

Lemma cleanup_fold_ids_ok cutoff files (fs : gmap string Content) cleaned :
  store_ids_ok fs = true ->
  store_ids_ok (fst (List.fold_left (cleanup_file cutoff) files (fs, cleaned))) = true.
Proof.
  revert fs cleaned. induction files as [|file files IH]; intros fs cleaned H; [exact H|].
  cbn [List.fold_left]. unfold cleanup_file at 2.
  destruct (endsWith file ".json"); [|apply IH, H].
  destruct (loadSessionMeta (sessionIdOfFile file) fs) as [s|]; [|apply IH, H].
  destruct (createdAt s <? cutoff)%Z; [|apply IH, H].
  apply IH, deleteSessionLog_ids_ok, H.
Qed.

Section ServiceInvariant.
Context (JSON_stringify : TerminalSession -> string).
Context (uuidv4 : nat -> string) (backend : NodePty).
Hypothesis uuid_no_dot : forall n, no_dot (uuidv4 n) = true.

Lemma appendSessionLog_names_ok sessionId data (fs : gmap string Content) :
  store_names_ok fs = true ->
  store_names_ok (appendSessionLog JSON_stringify sessionId data fs) = true.
Proof.
  rewrite !store_names_ok_iff. intros H file Hsome He. apply H; [|exact He].
  unfold appendSessionLog in Hsome. rewrite appendFileSync_lookup in Hsome.
  destruct (decide (getSessionLogPath sessionId = file)) as [<-|_]; [|exact Hsome].
  rewrite log_path_not_json in He. discriminate.
Qed.

Lemma appendSessionLog_ids_ok sessionId data (fs : gmap string Content) :
  store_ids_ok fs = true ->
  store_ids_ok (appendSessionLog JSON_stringify sessionId data fs) = true.
Proof.
  rewrite !store_ids_ok_iff. intros H file s Hsome He Hl.
  rewrite loadSessionMeta_append in Hl. apply H; [|exact He|exact Hl].
  unfold appendSessionLog in Hsome. rewrite appendFileSync_lookup in Hsome.
  destruct (decide (getSessionLogPath sessionId = file)) as [<-|_]; [|exact Hsome].
  rewrite log_path_not_json in He. discriminate.
Qed.

Lemma step_ids_have_no_dot m ev :
  ids_have_no_dot m -> ids_have_no_dot (step uuidv4 backend m ev).
Proof.
  intros Hm h i' Hh'.
  destruct (heap m !! h) as [i|] eqn:Hh.
  - destruct (step_cell uuidv4 backend m ev h i Hh) as (i'' & Hi'' & Hsteps).
    assert (i'' = i') as -> by congruence.
    rewrite (cell_steps_id _ _ Hsteps). eapply Hm; exact Hh.
  - destruct ev as [now op]. unfold step in Hh'. cbn [fst snd] in Hh'.
    assert (Hsame : forall m1, heap_evolves_by quiet_step (heap m) (heap m1) ->
                               heap m1 !! h = Some i' -> False).
    { intros m1 [Hlen _] H1. apply lookup_ge_None in Hh. rewrite <- Hlen in Hh.
      apply lookup_ge_None in Hh. congruence. }
    destruct op as [request|sessionId data|sessionId cols rows|sessionId|sessionId| |
                    |h0 data|h0 code|].
    + unfold createSession in Hh'. destruct (negb (canCreateSession m)); [cbn in Hh'; congruence|].
      destruct (spawn_throws backend (req_cwd request)); cbn in Hh'; [congruence|].
      apply lookup_app_Some in Hh' as [Hh'|[_ Hh']]; [congruence|].
      destruct (h - length (heap m)) as [|n]; cbn in Hh'; [|discriminate].
      injection Hh' as <-. cbn. apply uuid_no_dot.
    + destruct (Hsame _ (proj1 (writeToSession_evolves backend sessionId data m)) Hh').
    + destruct (Hsame _ (proj1 (resizeSession_evolves backend sessionId cols rows m)) Hh').
    + destruct (Hsame _ (proj1 (killSession_evolves backend now sessionId m)) Hh').
    + destruct (removeSession_evolves backend now sessionId m) as [[He _]|Heq].
      * destruct (Hsame _ He Hh').
      * rewrite Heq in Hh'. congruence.
    + cbn in Hh'. congruence.
    + destruct (Hsame _ (proj1 (shutdown_kills_evolve backend now (instances m) m)) Hh').
    + destruct (onData_evolves h0 data m) as [[Hlen _] _].
      apply lookup_ge_None in Hh. rewrite <- Hlen in Hh. apply lookup_ge_None in Hh. congruence.
    + destruct (Hsame _ (proj1 (onExit_evolves now h0 code m)) Hh').
    + destruct (Hsame _ (proj1 (onTimer_evolves backend m)) Hh').
Qed.

Lemma resident_session_no_dot m sessionId s :
  ids_have_no_dot m -> getSession sessionId m = Some s -> no_dot (id s) = true.
Proof.
  intros Hm Hs. apply getSession_Some in Hs as (h & i & G & <-).
  apply get_instance_Some in G as [_ Gh]. eapply Hm; exact Gh.
Qed.

Lemma dispatch_ok m sv e :
  ids_have_no_dot m -> svc_manager sv = m -> service_ok sv ->
  service_ok (dispatch JSON_stringify m sv e).
Proof.
  intros Hm Heq (Hnames & Hids & Hdots).
  destruct e as [sessionId data|sessionId code]; cbn [dispatch].
  - split; [apply appendSessionLog_names_ok, Hnames|].
    split; [apply appendSessionLog_ids_ok, Hids|exact Hdots].
  - destruct (getSession sessionId m) as [s|] eqn:Hs; [|split; [|split]; assumption].
    pose proof (resident_session_no_dot m sessionId s Hm Hs) as Hdot.
    split; [apply saveSessionMeta_names_ok; assumption|].
    split; [apply saveSessionMeta_ids_ok; assumption|exact Hdots].
Qed.

Lemma serve_ok sv r : service_ok sv -> service_ok (serve JSON_stringify uuidv4 backend sv r).
Proof.
  intros (Hnames & Hids & Hdots). destruct r as [ev|now request|now sessionId|now days];
    cbn [serve].
  - rewrite service_step_eq.
    pose proof (step_ids_have_no_dot (svc_manager sv) ev Hdots) as Hdots'.
    destruct (emits_short (svc_manager sv) ev) as [->|[e ->]]; cbn [List.fold_left].
    + split; [|split]; assumption.
    + apply dispatch_ok; [exact Hdots'|reflexivity|]. split; [|split]; assumption.
  - unfold post_sessions.
    destruct (negb (truthy (Some (req_cwd request))) ||
              negb (bool_decide (is_Some (req_aiTool request))));
      [split; [|split]; assumption|].
    destruct (negb (canCreateSession (svc_manager sv))); [split; [|split]; assumption|].
    pose proof (step_ids_have_no_dot (svc_manager sv) (now, CreateSession request) Hdots)
      as Hdots'.
    unfold step in Hdots'. cbn [fst snd] in Hdots'.
    destruct (createSession uuidv4 backend now request (svc_manager sv)) as [[s|] m'] eqn:Hc;
      cbn [snd] in *.
    + destruct (createSession_lookup _ _ _ _ _ _ _ Hc) as (_ & Hget & _).
      pose proof (resident_session_no_dot m' (id s) s Hdots' Hget) as Hdot.
      split; [apply saveSessionMeta_names_ok; assumption|].
      split; [apply saveSessionMeta_ids_ok; assumption|exact Hdots'].
    + split; [|split]; assumption.
  - unfold delete_session.
    split; [apply deleteSessionLog_names_ok, Hnames|].
    split; [apply deleteSessionLog_ids_ok, Hids|].
    exact (step_ids_have_no_dot (svc_manager sv) (now, RemoveSession sessionId) Hdots).
  - unfold cleanupOldLogs.
    split; [apply cleanup_fold_names_ok, Hnames|].
    split; [apply cleanup_fold_ids_ok, Hids|exact Hdots].
Qed.

(** X18.  When the id generator gives ids without a dot, as UUIDs are, the
    directory that the service writes is well formed after any sequence of
    registry turns, session creations, deletions and retention cleanups:
    every metadata file is named after the id that the listing and cleanup
    loops extract from its name, and holds the record of that id.  So the
    saved listing is then exactly the readable records, one per session id. *)
Theorem service_store_is_well_formed (requests : list ServiceRequest) :
  let sv := serve_all JSON_stringify uuidv4 backend requests empty_service in
  store_names_ok (svc_store sv) = true /\
  store_ids_ok (svc_store sv) = true /\
  (forall s, s ∈ getAllSavedSessions (svc_store sv) <->
             loadSessionMeta (id s) (svc_store sv) = Some s) /\
  NoDup (id <$> getAllSavedSessions (svc_store sv)).
Proof.
  intros sv.
  assert (Hok : service_ok sv).
  { unfold sv, serve_all.
    assert (H : forall start, service_ok start ->
                service_ok (List.fold_left (serve JSON_stringify uuidv4 backend) requests start)).
    { induction requests as [|r requests IH]; intros start Hs; [exact Hs|].
      cbn [List.fold_left]. apply IH, serve_ok, Hs. }
    apply H. split; [reflexivity|]. split; [reflexivity|].
    intros h i Hh. cbn in Hh. rewrite lookup_nil in Hh. discriminate. }
  destruct Hok as (Hnames & Hids & _).
  split; [exact Hnames|]. split; [exact Hids|]. split; [|apply NoDup_saved_ids; assumption].
  intros s. rewrite (elem_of_saved _ s Hnames). split.
  - intros (sessionId & Hl). rewrite (loaded_id _ sessionId s Hnames Hids Hl). exact Hl.
  - eauto.
Qed.

End ServiceInvariant.

Lemma unary_uuid_no_dot n : no_dot (unary_uuid n) = true.
Proof. induction n as [|n IH]; [reflexivity|]. cbn. exact IH. Qed.

Lemma service_store_is_well_formed_witness :
  let sv := serve_all (fun _ => "") unary_uuid reliable_pty
                      [PostSessions 10 sample_request; Turn (11%Z, OnData 0 "out");
                       Turn (12%Z, OnExit 0 0%Z); PostCleanup sample_now 7]
                      empty_service in
  store_names_ok (svc_store sv) = true /\
  NoDup (id <$> getAllSavedSessions (svc_store sv)).
Proof.
  intros sv.
  destruct (service_store_is_well_formed (fun _ => "") unary_uuid reliable_pty
              unary_uuid_no_dot
              [PostSessions 10 sample_request; Turn (11%Z, OnData 0 "out");
               Turn (12%Z, OnExit 0 0%Z); PostCleanup sample_now 7])
    as (Hnames & _ & _ & Hnodup).
  split; [exact Hnames|exact Hnodup].
Defined.

(* ===================================================================== *)
(** * Live handles *)
(* ===================================================================== *)

Lemma cell_step_live i i' : cell_step i i' -> cell_live i -> cell_live i'.
Proof.
  destruct 1 as [i0 i1 [i w r|now i Hrun|now code i]|i data]; unfold cell_live; cbn.
  - auto.
  - unfold is_running; cbn. discriminate.
  - unfold is_running; cbn. destruct (code =? 0)%Z; discriminate.
  - auto.
Qed.

Lemma cell_steps_live i i' : rtc cell_step i i' -> cell_live i -> cell_live i'.
Proof. induction 1; eauto using cell_step_live. Qed.

Section LiveHandles.
Context (uuidv4 : nat -> string) (backend : NodePty).

(** The only cell that a turn adds is the one of a new session. *)
Lemma step_new_cell m ev h i' :
  heap m !! h = None -> heap (step uuidv4 backend m ev) !! h = Some i' ->
  exists now request,
    i' = mkInstance (mkPty [] [] false false) (new_session (uuidv4 (uuids m)) now request) [].
Proof.
  intros Hh Hh'. destruct ev as [now op]. unfold step in Hh'. cbn [fst snd] in Hh'.
  assert (Hsame : forall m1, heap_evolves_by quiet_step (heap m) (heap m1) ->
                             heap m1 !! h = Some i' -> False).
  { intros m1 [Hlen _] H1. apply lookup_ge_None in Hh. rewrite <- Hlen in Hh.
    apply lookup_ge_None in Hh. congruence. }
  destruct op as [request|sessionId data|sessionId cols rows|sessionId|sessionId| |
                  |h0 data|h0 code|].
  - unfold createSession in Hh'. destruct (negb (canCreateSession m)); [cbn in Hh'; congruence|].
    destruct (spawn_throws backend (req_cwd request)); cbn in Hh'; [congruence|].
    apply lookup_app_Some in Hh' as [Hh'|[_ Hh']]; [congruence|].
    destruct (h - length (heap m)) as [|n]; cbn in Hh'; [|discriminate].
    injection Hh' as <-. eauto.
  - destruct (Hsame _ (proj1 (writeToSession_evolves backend sessionId data m)) Hh').
  - destruct (Hsame _ (proj1 (resizeSession_evolves backend sessionId cols rows m)) Hh').
  - destruct (Hsame _ (proj1 (killSession_evolves backend now sessionId m)) Hh').
  - destruct (removeSession_evolves backend now sessionId m) as [[He _]|Heq].
    + destruct (Hsame _ He Hh').
    + rewrite Heq in Hh'. congruence.
  - cbn in Hh'. congruence.
  - destruct (Hsame _ (proj1 (shutdown_kills_evolve backend now (instances m) m)) Hh').
  - destruct (onData_evolves h0 data m) as [[Hlen _] _].
    apply lookup_ge_None in Hh. rewrite <- Hlen in Hh. apply lookup_ge_None in Hh. congruence.
  - destruct (Hsame _ (proj1 (onExit_evolves now h0 code m)) Hh').
  - destruct (Hsame _ (proj1 (onTimer_evolves backend m)) Hh').
Qed.

Lemma run_live trace m :
  (forall h i, heap m !! h = Some i -> cell_live i) ->
  forall h i, heap (run uuidv4 backend trace m) !! h = Some i -> cell_live i.
Proof.
  revert m. induction trace as [|ev trace IH]; intros m Hm; [exact Hm|].
  cbn [run List.fold_left]. apply IH. intros h i' Hh'.
  destruct (heap m !! h) as [i|] eqn:Hh.
  - destruct (step_cell uuidv4 backend m ev h i Hh) as (i'' & Hi'' & Hsteps).
    assert (i'' = i') as -> by congruence.
    eapply cell_steps_live; [exact Hsteps|]. eapply Hm; exact Hh.
  - destruct (step_new_cell m ev h i' Hh Hh') as (now & request & ->).
    intros _. split; reflexivity.
Qed.

(** X19.  On every reachable registry the handle of a running session has
    not been killed and has not delivered its exit event; so a
    writeToSession or resizeSession that answers true has forwarded the call
    to such a handle, and to the handle of that session only. *)
Theorem forwarded_to_live_handle (trace : list (Z * Op)) :
  let m := run uuidv4 backend trace empty_manager in
  (forall h i, heap m !! h = Some i -> is_running i = true ->
               killed (pty i) = false /\ exited (pty i) = false) /\
  (forall sessionId data,
      fst (writeToSession backend sessionId data m) = true ->
      exists h i, get_instance sessionId m = Some (h, i) /\
                  killed (pty i) = false /\ exited (pty i) = false /\
                  heap (snd (writeToSession backend sessionId data m))
                  = <[h := log_write data i]> (heap m)) /\
  (forall sessionId cols rows,
      fst (resizeSession backend sessionId cols rows m) = true ->
      exists h i, get_instance sessionId m = Some (h, i) /\
                  killed (pty i) = false /\ exited (pty i) = false /\
                  heap (snd (resizeSession backend sessionId cols rows m))
                  = <[h := log_resize cols rows i]> (heap m)).
Proof.
  intros m.
  assert (Hlive : forall h i, heap m !! h = Some i -> cell_live i).
  { apply run_live. intros h i Hh. cbn in Hh. rewrite lookup_nil in Hh. discriminate. }
  split; [intros h i Hh; apply (Hlive h i Hh)|]. split.
  - intros sessionId data. unfold writeToSession.
    destruct (get_instance sessionId m) as [[h i]|] eqn:G; [|discriminate].
    destruct (is_running i) eqn:R; cbn [negb]; [|discriminate].
    destruct (write_throws backend (pty i) data); [discriminate|]. intros _.
    pose proof (get_instance_Some _ _ _ _ G) as [_ Gh].
    destruct (Hlive h i Gh R) as [Hk He]. exists h, i. auto.
  - intros sessionId cols rows. unfold resizeSession.
    destruct (get_instance sessionId m) as [[h i]|] eqn:G; [|discriminate].
    destruct (is_running i) eqn:R; cbn [negb]; [|discriminate].
    destruct (resize_throws backend (pty i) cols rows); [discriminate|]. intros _.
    pose proof (get_instance_Some _ _ _ _ G) as [_ Gh].
    destruct (Hlive h i Gh R) as [Hk He]. exists h, i. auto.
Qed.

End LiveHandles.

Lemma forwarded_to_live_handle_witness :
  let m := run sample_uuid reliable_pty [(10%Z, CreateSession sample_request)] empty_manager in
  exists h i, get_instance "a" m = Some (h, i) /\ killed (pty i) = false.
Proof.
  intros m.
  destruct (forwarded_to_live_handle sample_uuid reliable_pty
              [(10%Z, CreateSession sample_request)]) as (_ & Hwrite & _).
  destruct (Hwrite "a" "ls" eq_refl) as (h & i & G & Hk & _).
  exists h, i. split; assumption.
Defined.

(* ===================================================================== *)
(** * Cleanup twice *)
(* ===================================================================== *)

Lemma cleanup_fold_Some cutoff files (fs : gmap string Content) cleaned k c :
  fst (List.fold_left (cleanup_file cutoff) files (fs, cleaned)) !! k = Some c ->
  fs !! k = Some c.
Proof.
  revert fs cleaned. induction files as [|file files IH]; intros fs cleaned; [auto|].
  cbn [List.fold_left]. unfold cleanup_file at 2.
  destruct (endsWith file ".json"); [|apply IH].
  destruct (loadSessionMeta (sessionIdOfFile file) fs) as [s|]; [|apply IH].
  destruct (createdAt s <? cutoff)%Z; [|apply IH].
  intros H. apply IH in H. eapply deleteSessionLog_Some; exact H.
Qed.

(** X20.  On a directory whose metadata files are named after their session
    ids, cleanup only deletes: every file left is a file that was there, with
    the same content.  No session left has a record older than the cutoff, and
    a second cleanup with the same clock and retention removes nothing. *)
Theorem cleanup_is_idempotent (now daysToKeep : Z) (fs : gmap string Content) :
  store_names_ok fs = true ->
  let fs' := fst (cleanupOldLogs now daysToKeep fs) in
  (forall file c, fs' !! file = Some c -> fs !! file = Some c) /\
  (forall sessionId, ~ expired (now - daysToKeep * MS_PER_DAY) fs' sessionId) /\
  cleanupOldLogs now daysToKeep fs' = (fs', 0).
Proof.
  intros Hok fs'. set (cutoff := (now - daysToKeep * MS_PER_DAY)%Z).
  assert (Hnames : forall g, store_names_ok g = true ->
                   forall file, file ∈ readdirSync g -> endsWith file ".json" = true ->
                                getSessionMetaPath (sessionIdOfFile file) = file).
  { intros g Hg file Hin He. apply (store_names_ok_spec g); [exact Hg| |exact He].
    apply elem_of_readdirSync, Hin. }
  assert (Hsome : forall file c, fs' !! file = Some c -> fs !! file = Some c).
  { intros file c. apply cleanup_fold_Some. }
  destruct (cleanup_loop cutoff fs (readdirSync fs) (NoDup_readdirSync fs) (Hnames fs Hok) fs 0)
    as (_ & _ & Hdel & _); [reflexivity|].
  change (List.fold_left (cleanup_file cutoff) (readdirSync fs) (fs, 0))
    with (cleanupOldLogs now daysToKeep fs) in Hdel. fold fs' in Hdel.
  assert (Hnone : forall sessionId, ~ expired cutoff fs' sessionId).
  { intros sessionId (s & Hl & Hlt).
    assert (Hl0 : loadSessionMeta sessionId fs = Some s).
    { rewrite loadSessionMeta_lookup in *.
      destruct (fs' !! getSessionMetaPath sessionId) as [c|] eqn:E; [|discriminate].
      rewrite (Hsome _ _ E). exact Hl. }
    destruct (expired_expired_file cutoff fs sessionId Hok) as (Hin & Hexp & Hid);
      [exists s; auto|].
    rewrite loadSessionMeta_lookup in Hl.
    rewrite (Hdel (getSessionMetaPath sessionId) (getSessionMetaPath sessionId) Hin Hexp) in Hl;
      [discriminate|].
    rewrite Hid. unfold artifacts. right. left. }
  split; [exact Hsome|]. split; [exact Hnone|].
  pose proof (cleanup_fold_names_ok cutoff (readdirSync fs) fs 0 Hok) as Hok'.
  change (List.fold_left (cleanup_file cutoff) (readdirSync fs) (fs, 0))
    with (cleanupOldLogs now daysToKeep fs) in Hok'. fold fs' in Hok'.
  destruct (cleanup_loop cutoff fs' (readdirSync fs') (NoDup_readdirSync fs') (Hnames fs' Hok')
              fs' 0) as (Hn & _ & _ & Hkeep); [reflexivity|].
  change (List.fold_left (cleanup_file cutoff) (readdirSync fs') (fs', 0))
    with (cleanupOldLogs now daysToKeep fs') in Hn, Hkeep.
  assert (Hfresh : forall file, expired_file cutoff fs' file = false).
  { intros file. destruct (expired_file cutoff fs' file) eqn:E; [|reflexivity].
    destruct (Hnone _ (expired_file_expired _ _ _ E)). }
  destruct (cleanupOldLogs now daysToKeep fs') as [fs'' n]. cbn [fst snd] in Hn, Hkeep.
  f_equal.
  - apply map_eq. intros k. apply Hkeep. intros file _ E. rewrite Hfresh in E. discriminate.
  - rewrite Hn. clear -Hfresh. induction (readdirSync fs') as [|file files IH]; [reflexivity|].
    cbn [List.filter]. rewrite Hfresh. exact IH.
Qed.

Lemma cleanup_is_idempotent_witness :
  let fs' := fst (cleanupOldLogs sample_now 7 sample_store) in
  cleanupOldLogs sample_now 7 fs' = (fs', 0).
Proof.
  intros fs'. apply (cleanup_is_idempotent sample_now 7 sample_store eq_refl).
Defined.

(* ===================================================================== *)
(** * The metadata files that the service writes hold records *)
(* ===================================================================== *)

Lemma store_records_ok_iff (fs : gmap string Content) :
  store_records_ok fs = true <->
  forall file c, fs !! file = Some c -> endsWith file ".json" = true ->
                 record_or_unreadable c = true.
Proof.
  unfold store_records_ok. rewrite List.forallb_forall. split.
  - intros H file c Hf He.
    specialize (H (file, c)). cbn in H. rewrite He in H. apply H.
    apply list_elem_of_In, elem_of_map_to_list, Hf.
  - intros H [file c] Hin. apply list_elem_of_In, elem_of_map_to_list in Hin. cbn.
    destruct (endsWith file ".json") eqn:He; [|reflexivity]. cbn. eapply H; eassumption.
Qed.

Lemma saveSessionMeta_records_ok s (fs : gmap string Content) :
  store_records_ok fs = true -> store_records_ok (saveSessionMeta s fs) = true.
Proof.
  rewrite !store_records_ok_iff. intros H file c Hf He. unfold saveSessionMeta in Hf.
  apply lookup_insert_Some in Hf as [[_ <-]|[_ Hf]]; [reflexivity|].
  eapply H; eassumption.
Qed.

Lemma deleteSessionLog_records_ok sessionId (fs : gmap string Content) :
  store_records_ok fs = true -> store_records_ok (deleteSessionLog sessionId fs) = true.
Proof.
  rewrite !store_records_ok_iff. intros H file c Hf He.
  apply deleteSessionLog_Some in Hf. eapply H; eassumption.
Qed.

Lemma cleanup_fold_records_ok cutoff files (fs : gmap string Content) cleaned :
  store_records_ok fs = true ->
  store_records_ok (fst (List.fold_left (cleanup_file cutoff) files (fs, cleaned))) = true.
Proof.
  rewrite !store_records_ok_iff. intros H file c Hf He.
  apply cleanup_fold_Some in Hf. eapply H; eassumption.
Qed.

Section ServiceRecords.
Context (JSON_stringify : TerminalSession -> string).
Context (uuidv4 : nat -> string) (backend : NodePty).

Lemma appendSessionLog_records_ok sessionId data (fs : gmap string Content) :
  store_records_ok fs = true ->
  store_records_ok (appendSessionLog JSON_stringify sessionId data fs) = true.
Proof.
  rewrite !store_records_ok_iff. intros H file c Hf He.
  unfold appendSessionLog in Hf. rewrite appendFileSync_lookup in Hf.
  destruct (decide (getSessionLogPath sessionId = file)) as [<-|_]; [|eapply H; eassumption].
  rewrite log_path_not_json in He. discriminate.
Qed.

Lemma dispatch_records_ok m sv e :
  store_records_ok (svc_store sv) = true ->
  store_records_ok (svc_store (dispatch JSON_stringify m sv e)) = true.
Proof.
  intros H. destruct e as [sessionId data|sessionId code]; cbn [dispatch].
  - apply appendSessionLog_records_ok, H.
  - destruct (getSession sessionId m) as [s|]; [|exact H].
    apply saveSessionMeta_records_ok, H.
Qed.

Lemma serve_records_ok sv r :
  store_records_ok (svc_store sv) = true ->
  store_records_ok (svc_store (serve JSON_stringify uuidv4 backend sv r)) = true.
Proof.
  intros H. destruct r as [ev|now request|now sessionId|now days]; cbn [serve].
  - rewrite service_step_eq.
    destruct (emits_short (svc_manager sv) ev) as [->|[e ->]]; cbn [List.fold_left];
      [exact H|apply dispatch_records_ok, H].
  - unfold post_sessions.
    destruct (negb (truthy (Some (req_cwd request))) ||
              negb (bool_decide (is_Some (req_aiTool request)))); [exact H|].
    destruct (negb (canCreateSession (svc_manager sv))); [exact H|].
    destruct (createSession uuidv4 backend now request (svc_manager sv)) as [[s|] m'];
      cbn [snd svc_store]; [apply saveSessionMeta_records_ok, H|exact H].
  - unfold delete_session. cbn [svc_store]. apply deleteSessionLog_records_ok, H.
  - cbn [svc_store]. unfold cleanupOldLogs. apply cleanup_fold_records_ok, H.
Qed.

(** Whatever the service is asked to do, every metadata file of its
    directory holds a record as saveSessionMeta writes it. *)
Lemma service_store_holds_records (requests : list ServiceRequest) :
  store_records_ok
    (svc_store (serve_all JSON_stringify uuidv4 backend requests empty_service)) = true.
Proof.
  unfold serve_all.
  assert (H : forall start, store_records_ok (svc_store start) = true ->
              store_records_ok
                (svc_store (List.fold_left (serve JSON_stringify uuidv4 backend)
                                           requests start)) = true).
  { induction requests as [|r requests IH]; intros start Hs; [exact Hs|].
    cbn [List.fold_left]. apply IH, serve_records_ok, Hs. }
  apply H. reflexivity.
Qed.

End ServiceRecords.
